(** * A shallow embedding of the libnl core: message framing (lib/msg.c),
      callback sets (lib/handlers.c) and the socket engine (lib/nl.c),
      with the two helpers of the command line tools (src/utils.c,
      src/nl-route-add.c) that stand on their own.

    Integers are mathematical integers with the C conversions written out;
    structures are records; the message buffer is the header record followed
    by the octets behind it; callbacks are state transformers over an
    abstract user state. *)

From Stdlib Require Import ZArith Lia Bool List.
From Stdlib Require Import Strings.Byte Strings.String Strings.Ascii.
From Stdlib Require Import HexString.
From stdpp Require Import base option list gmap.

Local Open Scope Z_scope.

(** ** C integer types *)

Module CInt.

(** The two data models the library is built for: [int] and the header
    fields are 32 bits wide in both, [size_t] is 32 or 64 bits wide. *)
Inductive data_model := ILP32 | LP64.

Definition size_bits (dm : data_model) : Z :=
  match dm with ILP32 => 32 | LP64 => 64 end.

(** Conversion to [uint16_t], [uint32_t] / [unsigned int], [int], [size_t]. *)
Definition u16 (z : Z) : Z := z mod 2 ^ 16.
Definition u32 (z : Z) : Z := z mod 2 ^ 32.
Definition s32 (z : Z) : Z := (z + 2 ^ 31) mod 2 ^ 32 - 2 ^ 31.
Definition usize (dm : data_model) (z : Z) : Z := z mod 2 ^ size_bits dm.

Definition INT_MAX : Z := 2 ^ 31 - 1.
Definition INT_MIN : Z := - 2 ^ 31.

Definition is_u16 (z : Z) : Prop := 0 <= z < 2 ^ 16.
Definition is_u32 (z : Z) : Prop := 0 <= z < 2 ^ 32.
Definition is_int (z : Z) : Prop := INT_MIN <= z <= INT_MAX.
Definition is_size (dm : data_model) (z : Z) : Prop := 0 <= z < 2 ^ size_bits dm.

End CInt.

Import CInt.

(** ** Results of C functions that can trip an assertion *)

(** [NoReturn] stands for a run that does not come back: a [BUG()] assertion, or a
    step whose behaviour C leaves undefined (an access outside a block). *)
Inductive outcome (A : Type) : Type :=
  | Ret (a : A)
  | NoReturn.
Arguments Ret {A} a.
Arguments NoReturn {A}.

(** ** lib/msg.c *)

Module Msg.

(** Modelled from the spec: the frame header [struct nlmsghdr] is declared
    in the kernel header linux/netlink.h, which is not among the sources;
    the five fields are those of section 3 of the specification, under the
    names the code uses. [nlmsg_len], [nlmsg_seq] and [nlmsg_pid] are
    32-bit unsigned, [nlmsg_type] and [nlmsg_flags] 16-bit unsigned. *)
Record nlmsghdr := mk_nlmsghdr {
  nlmsg_len : Z;
  nlmsg_type : Z;
  nlmsg_flags : Z;
  nlmsg_seq : Z;
  nlmsg_pid : Z
}.

(** Modelled from the spec: [struct sockaddr_nl] (linux/netlink.h), the
    peer identity stored in a message and in an endpoint. *)
Record sockaddr_nl := mk_sockaddr_nl {
  nl_family : Z;
  nl_pad : Z;
  nl_pid : Z;
  nl_groups : Z
}.

(** Modelled from the spec: [struct ucred] (sys/socket.h), the identity
    tuple of the credentials record. *)
Record ucred := mk_ucred {
  cr_pid : Z;
  cr_uid : Z;
  cr_gid : Z
}.

(** Modelled from the spec: [struct nl_msg] is declared in the private
    header netlink-types.h, which is not among the sources; the fields are
    the ones lib/msg.c and lib/nl.c access. The block [nm_nlh] points to is
    the header record [nm_nlh] followed by the octets [nm_data]: its size is
    [buffer_len]. *)
Record nl_msg := mk_nl_msg {
  nm_protocol : Z;
  nm_flags : Z;
  nm_src : sockaddr_nl;
  nm_dst : sockaddr_nl;
  nm_creds : ucred;
  nm_nlh : nlmsghdr;
  nm_data : list byte
}.

(** Modelled from the spec: [sizeof(struct nlmsghdr)], [NLMSG_ALIGNTO] and
    [NLMSG_HDRLEN] of linux/netlink.h: a fixed header of 16 octets and an
    alignment unit of 4 octets. *)
Definition sizeof_nlmsghdr : Z := 16.
Definition NLMSG_ALIGNTO : Z := 4.

(** Modelled from the spec: the macro [NLMSG_ALIGN] of linux/netlink.h,
    [((len) + NLMSG_ALIGNTO - 1) & ~(NLMSG_ALIGNTO - 1)], evaluated in
    32-bit unsigned arithmetic. *)
Definition NLMSG_ALIGN (len : Z) : Z :=
  u32 (Z.land (u32 (len + (NLMSG_ALIGNTO - 1)))
              (u32 (Z.lnot (NLMSG_ALIGNTO - 1)))).

Definition NLMSG_HDRLEN : Z := s32 (NLMSG_ALIGN sizeof_nlmsghdr).

(** Modelled from the spec: [NL_MSG_CRED_PRESENT] of netlink-local.h, the
    credentials-present bit of the bookkeeping flags word. *)
Definition NL_MSG_CRED_PRESENT : Z := 1.

(** *** Size calculations *)

Definition nlmsg_msg_size (payload : Z) : Z :=
  s32 (NLMSG_HDRLEN + payload).

Definition nlmsg_total_size (payload : Z) : Z :=
  s32 (NLMSG_ALIGN (nlmsg_msg_size payload)).

Definition nlmsg_padlen (payload : Z) : Z :=
  s32 (nlmsg_total_size payload - nlmsg_msg_size payload).

(** [nlmsg_len()], the length of the payload of a frame. *)
Definition nlmsg_payload_len (nlh : nlmsghdr) : Z :=
  s32 (nlmsg_len nlh - NLMSG_HDRLEN).

(** *** Message parsing *)

(** [remaining] is an [int]; in [remaining >= sizeof(struct nlmsghdr)] it
    is converted to [size_t], in [nlh->nlmsg_len <= remaining] to
    [unsigned int]. *)
Definition nlmsg_ok (dm : data_model) (nlh : nlmsghdr) (remaining : Z) : bool :=
  (sizeof_nlmsghdr <=? usize dm remaining)
  && (sizeof_nlmsghdr <=? usize dm (nlmsg_len nlh))
  && (nlmsg_len nlh <=? u32 remaining).

(** [nlmsg_next] returns the new position (an offset in the stream) and the
    decremented [remaining]. *)
Definition nlmsg_next (pos : Z) (nlh : nlmsghdr) (remaining : Z) : Z * Z :=
  let totlen := s32 (NLMSG_ALIGN (nlmsg_len nlh)) in
  (pos + totlen, s32 (remaining - totlen)).

(** What the specification says of the iteration predicate. *)
Definition nlmsg_ok_spec (nlh : nlmsghdr) (remaining : Z) : bool :=
  (16 <=? remaining) && (16 <=? nlmsg_len nlh) && (nlmsg_len nlh <=? remaining).

(** *** The allocator *)

Definition buffer_len (m : nl_msg) : Z := 16 + Z.of_nat (length (nm_data m)).

(** Octet [off] of the block of [m], for an offset behind the header. *)
Definition byte_at (m : nl_msg) (off : Z) : option byte :=
  if off <? 16 then None else nm_data m !! Z.to_nat (off - 16).

(** Modelled from the spec: [struct nlmsgerr] (linux/netlink.h), the body
    of an ERROR frame: a signed code followed by a copy of the header of
    the request. *)
Record nlmsgerr := mk_nlmsgerr {
  e_error : Z;
  e_msg : nlmsghdr
}.

Definition sizeof_nlmsgerr : Z := 4 + sizeof_nlmsghdr.

(** A frame as it lies in a receive buffer: the header, the octets behind
    it, and what those octets read as a [struct nlmsgerr]. *)
Record raw_frame := mk_raw_frame {
  rf_hdr : nlmsghdr;
  rf_data : list byte;
  rf_err : nlmsgerr
}.

Definition zero_hdr : nlmsghdr := mk_nlmsghdr 0 0 0 0 0.
Definition zero_addr : sockaddr_nl := mk_sockaddr_nl 0 0 0 0.
Definition zero_ucred : ucred := mk_ucred 0 0 0.

Definition set_nlmsg_len (h : nlmsghdr) (len : Z) : nlmsghdr :=
  mk_nlmsghdr len (nlmsg_type h) (nlmsg_flags h) (nlmsg_seq h) (nlmsg_pid h).

Definition set_nlh (m : nl_msg) (h : nlmsghdr) (d : list byte) : nl_msg :=
  mk_nl_msg (nm_protocol m) (nm_flags m) (nm_src m) (nm_dst m)
            (nm_creds m) h d.

Section Allocator.

Variable dm : data_model.

(** The answer of the C allocator to a request of the given size, and the
    contents of memory it hands out without clearing it. *)
Variable mem : Z -> bool.
Variable junk : nat -> byte.

(** [__nlmsg_alloc]: both blocks are obtained with [calloc]; [None] is the
    NULL result. A block that cannot hold the header is outside the
    model. *)
Definition __nlmsg_alloc (len : Z) : outcome (option nl_msg) :=
  if negb (mem len) then Ret None
  else if len <? sizeof_nlmsghdr then NoReturn
  else Ret (Some (mk_nl_msg (-1) 0 zero_addr zero_addr zero_ucred
                    (set_nlmsg_len zero_hdr (u32 len))
                    (replicate (Z.to_nat (len - 16)) x00))).

Definition nlmsg_alloc : outcome (option nl_msg) :=
  __nlmsg_alloc (usize dm (nlmsg_total_size 0)).

Definition nlmsg_inherit (hdr : option nlmsghdr) : outcome (option nl_msg) :=
  match nlmsg_alloc with
  | Ret (Some nm) =>
      match hdr with
      | Some h =>
          Ret (Some (set_nlh nm
             (mk_nlmsghdr (nlmsg_len (nm_nlh nm)) (nlmsg_type h)
                (nlmsg_flags h) (nlmsg_seq h) (nlmsg_pid h))
             (nm_data nm)))
      | None => Ret (Some nm)
      end
  | r => r
  end.

Definition nlmsg_alloc_simple (nlmsgtype flags : Z) : outcome (option nl_msg) :=
  nlmsg_inherit (Some (mk_nlmsghdr 0 (u16 nlmsgtype) (u16 flags) 0 0)).

(** [nlmsg_convert]: the block has [NLMSG_ALIGN(hdr->nlmsg_len)] cleared
    octets, into which [memcpy] copies [hdr->nlmsg_len] octets of the
    frame, header included. A copy that runs off the block (the alignment
    wrapped around) or off the octets at hand is outside the model. *)
Definition nlmsg_convert (f : raw_frame) : outcome (option nl_msg) :=
  let len := nlmsg_len (rf_hdr f) in
  match __nlmsg_alloc (usize dm (NLMSG_ALIGN len)) with
  | Ret (Some nm) =>
      if (NLMSG_ALIGN len <? len)
         || (Z.of_nat (length (rf_data f)) <? len - 16)
      then NoReturn
      else
        Ret (Some (set_nlh nm (rf_hdr f)
               (take (Z.to_nat (len - 16)) (rf_data f)
                ++ drop (Z.to_nat (len - 16)) (nm_data nm))))
  | r => r
  end.

(** The aligned size computed by [nlmsg_reserve]:
    [pad ? ((len + (pad - 1)) & ~(pad - 1)) : len], with [len] a
    [size_t] and [pad] an [int]. *)
Definition reserve_tlen (len pad : Z) : Z :=
  if pad =? 0 then len
  else usize dm (Z.land (usize dm (len + usize dm (s32 (pad - 1))))
                        (usize dm (Z.lnot (s32 (pad - 1))))).

(** [realloc]: the old contents up to the new size, then uncleared
    memory. *)
Definition realloc_data (size : nat) (d : list byte) : list byte :=
  take size d ++ map junk (seq (length d) (size - length d)).

Definition memset0 (d : list byte) (start count : nat) : list byte :=
  take start d ++ replicate count x00 ++ drop (start + count) d.

(** [nlmsg_reserve]: the result is the message and the offset of the
    tailroom in its block, or the unchanged message and [None] for NULL.
    The model covers messages whose length field is at least the header
    length (what [nlmsg_put] asserts) and requests that do not wrap
    around the address space. *)
Definition nlmsg_reserve (n : nl_msg) (len pad : Z)
  : outcome (nl_msg * option Z) :=
  let tlen := reserve_tlen len pad in
  let old := nlmsg_len (nm_nlh n) in
  let size := usize dm (old + tlen) in
  if negb (mem size) then Ret (n, None)
  else if (old <? sizeof_nlmsghdr) || (size <? old) then NoReturn
  else
    let d1 := realloc_data (Z.to_nat (size - 16)) (nm_data n) in
    let d2 := if len <? tlen
              then memset0 d1 (Z.to_nat (old + len - 16)) (Z.to_nat (tlen - len))
              else d1 in
    Ret (set_nlh n (set_nlmsg_len (nm_nlh n) (u32 (old + tlen))) d2,
         Some old).

(** [nlmsg_append]: reserve, then copy [len] octets of [data]; the result
    code is 0 or the negative code of [nl_errno(ENOMEM)]. *)
Variable nl_errno_ENOMEM : Z.

Definition memcpy_at (d : list byte) (start : nat) (src : list byte) : list byte :=
  take start d ++ src ++ drop (start + length src) d.

Definition nlmsg_append (n : nl_msg) (data : list byte) (len pad : Z)
  : outcome (nl_msg * Z) :=
  match nlmsg_reserve n len pad with
  | NoReturn => NoReturn
  | Ret (n', None) => Ret (n', nl_errno_ENOMEM)
  | Ret (n', Some tmp) =>
      if (Z.of_nat (length data) <? len)
         || (buffer_len n' <? tmp + len) then NoReturn
      else
        Ret (set_nlh n' (nm_nlh n')
               (memcpy_at (nm_data n') (Z.to_nat (tmp - 16))
                  (take (Z.to_nat len) data)), 0)
  end.

(** [nlmsg_put]: overwrite the header fields, then reserve [payload]
    octets aligned to [NLMSG_ALIGNTO] when [payload > 0]. The second
    component tells whether a header pointer (rather than NULL) is
    returned. *)
Definition nlmsg_put (n : nl_msg) (pid seq type payload flags : Z)
  : outcome (nl_msg * bool) :=
  if nlmsg_len (nm_nlh n) <? u32 NLMSG_HDRLEN then NoReturn
  else
    let nlh := mk_nlmsghdr (nlmsg_len (nm_nlh n)) (u16 type) (u16 flags)
                           seq pid in
    let n1 := set_nlh n nlh (nm_data n) in
    if 0 <? payload then
      match nlmsg_reserve n1 (usize dm payload) NLMSG_ALIGNTO with
      | NoReturn => NoReturn
      | Ret (n2, None) => Ret (n2, false)
      | Ret (n2, Some _) => Ret (n2, true)
      end
    else Ret (n1, true).

Definition nlmsg_hdr (n : nl_msg) : nlmsghdr := nm_nlh n.

(** *** Attributes of a message *)

Definition nlmsg_set_proto (msg : nl_msg) (protocol : Z) : nl_msg :=
  mk_nl_msg protocol (nm_flags msg) (nm_src msg) (nm_dst msg)
            (nm_creds msg) (nm_nlh msg) (nm_data msg).

Definition nlmsg_get_proto (msg : nl_msg) : Z := nm_protocol msg.

Definition nlmsg_set_src (msg : nl_msg) (addr : sockaddr_nl) : nl_msg :=
  mk_nl_msg (nm_protocol msg) (nm_flags msg) addr (nm_dst msg)
            (nm_creds msg) (nm_nlh msg) (nm_data msg).

Definition nlmsg_get_src (msg : nl_msg) : sockaddr_nl := nm_src msg.

Definition nlmsg_set_dst (msg : nl_msg) (addr : sockaddr_nl) : nl_msg :=
  mk_nl_msg (nm_protocol msg) (nm_flags msg) (nm_src msg) addr
            (nm_creds msg) (nm_nlh msg) (nm_data msg).

Definition nlmsg_get_dst (msg : nl_msg) : sockaddr_nl := nm_dst msg.

Definition nlmsg_set_creds (msg : nl_msg) (creds : ucred) : nl_msg :=
  mk_nl_msg (nm_protocol msg)
            (s32 (Z.lor (nm_flags msg) NL_MSG_CRED_PRESENT))
            (nm_src msg) (nm_dst msg) creds (nm_nlh msg) (nm_data msg).

Definition nlmsg_get_creds (msg : nl_msg) : option ucred :=
  if Z.land (nm_flags msg) NL_MSG_CRED_PRESENT =? 0 then None
  else Some (nm_creds msg).

End Allocator.

End Msg.

(** ** lib/handlers.c *)

Module Handlers.

Import Msg.

(** Modelled from the spec: [enum nl_cb_action] of netlink/handlers.h, which
    is not among the sources: OK (proceed), SKIP, STOP, numbered in this
    order from 0. *)
Definition NL_OK : Z := 0.
Definition NL_SKIP : Z := 1.
Definition NL_STOP : Z := 2.

(** Modelled from the spec: [enum nl_cb_kind] of netlink/handlers.h, the
    presets DEFAULT, VERBOSE, DEBUG and CUSTOM. *)
Inductive nl_cb_kind :=
  | NL_CB_DEFAULT | NL_CB_VERBOSE | NL_CB_DEBUG | NL_CB_CUSTOM.

(** Modelled from the spec: [enum nl_cb_type] of netlink/handlers.h, the
    fixed enumeration of hook types of section 4.2. *)
Inductive nl_cb_type :=
  | NL_CB_VALID | NL_CB_FINISH | NL_CB_OVERRUN | NL_CB_SKIPPED | NL_CB_ACK
  | NL_CB_MSG_IN | NL_CB_MSG_OUT | NL_CB_INVALID | NL_CB_SEQ_CHECK
  | NL_CB_SEND_ACK | NL_CB_DUMP_INTR.

#[global] Instance nl_cb_kind_eq_dec : EqDecision nl_cb_kind.
Proof. solve_decision. Defined.

#[global] Instance nl_cb_type_eq_dec : EqDecision nl_cb_type.
Proof. solve_decision. Defined.

Definition NL_CB_KIND_MAX : Z := 3.
Definition NL_CB_TYPE_MAX : Z := 10.

Definition all_types : list nl_cb_type :=
  [NL_CB_VALID; NL_CB_FINISH; NL_CB_OVERRUN; NL_CB_SKIPPED; NL_CB_ACK;
   NL_CB_MSG_IN; NL_CB_MSG_OUT; NL_CB_INVALID; NL_CB_SEQ_CHECK;
   NL_CB_SEND_ACK; NL_CB_DUMP_INTR].

(** The enumerator a C integer stands for, when it is in range. *)
Definition kind_of_Z (k : Z) : option nl_cb_kind :=
  if (k <? 0) || (NL_CB_KIND_MAX <? k) then None
  else [NL_CB_DEFAULT; NL_CB_VERBOSE; NL_CB_DEBUG; NL_CB_CUSTOM] !! Z.to_nat k.

Definition type_of_Z (t : Z) : option nl_cb_type :=
  if (t <? 0) || (NL_CB_TYPE_MAX <? t) then None
  else all_types !! Z.to_nat t.

(** Modelled from the spec: the error code Range, [NLE_RANGE] of
    netlink/errno.h, with the number it has there. *)
Definition NLE_RANGE : Z := 8.

(** Modelled from the spec: [struct nl_sock] is declared in the private
    header netlink-types.h, which is not among the sources; the fields are
    those of the Endpoint of section 3, under the names lib/nl.c uses.
    [s_cb] is the address of the callback set in the store. *)
Record nl_sock := mk_nl_sock {
  s_local : sockaddr_nl;
  s_peer : sockaddr_nl;
  s_fd : Z;
  s_proto : Z;
  s_seq_next : Z;
  s_seq_expect : Z;
  s_flags : Z;
  s_cb : positive;
  s_bufsize : Z
}.

(** What one datagram read hands back: the peer address, the receive
    buffer seen as the frame lying at each octet offset, and the
    credentials when the kernel delivered some. *)
Record datagram := mk_datagram {
  dg_nla : sockaddr_nl;
  dg_buf : Z -> raw_frame;
  dg_creds : option ucred
}.

(** The stream a diagnostic writer prints to. *)
Inductive FILE (arg : Type) :=
  | stdout
  | stderr
  | user_stream (a : arg).
Arguments stdout {arg}.
Arguments stderr {arg}.
Arguments user_stream {arg} a.

Section Callbacks.

(** The state user callbacks and system calls act on, and the type of
    the opaque argument bound with a callback. *)
Variable U : Type.
Variable arg : Type.

(** A hook receives the message (which it may modify in place) and its
    argument; the error hook receives the peer address and the error
    record. *)
Definition nl_recvmsg_msg_cb_t : Type :=
  nl_msg -> option arg -> U -> Z * nl_msg * U.
Definition nl_recvmsg_err_cb_t : Type :=
  sockaddr_nl -> nlmsgerr -> option arg -> U -> Z * U.

(** Modelled from the spec: [struct nl_cb] of netlink-types.h: the table
    of hooks and their arguments, the error slot, the three overrides
    and the reference count. *)
Record nl_cb := mk_nl_cb {
  cb_set : nl_cb_type -> option nl_recvmsg_msg_cb_t;
  cb_args : nl_cb_type -> option arg;
  cb_err : option nl_recvmsg_err_cb_t;
  cb_err_arg : option arg;
  cb_recvmsgs_ow : option (nl_sock -> positive -> U -> Z * nl_sock * U);
  cb_recv_ow : option (nl_sock -> U -> Z * datagram * U);
  cb_send_ow : option (nl_sock -> nl_msg -> U -> Z * U);
  cb_refcnt : Z
}.

(** The store of callback sets: a pointer is an address, NULL is
    [None]. *)
Abbreviation cb_store := (gmap positive nl_cb).

Definition set_refcnt (cb : nl_cb) (r : Z) : nl_cb :=
  mk_nl_cb (cb_set cb) (cb_args cb) (cb_err cb) (cb_err_arg cb)
           (cb_recvmsgs_ow cb) (cb_recv_ow cb) (cb_send_ow cb) r.

Definition set_slot (cb : nl_cb) (type : nl_cb_type)
    (func : option nl_recvmsg_msg_cb_t) (a : option arg) : nl_cb :=
  mk_nl_cb (fun t => if decide (t = type) then func else cb_set cb t)
           (fun t => if decide (t = type) then a else cb_args cb t)
           (cb_err cb) (cb_err_arg cb)
           (cb_recvmsgs_ow cb) (cb_recv_ow cb) (cb_send_ow cb)
           (cb_refcnt cb).

Definition set_err (cb : nl_cb) (func : option nl_recvmsg_err_cb_t)
    (a : option arg) : nl_cb :=
  mk_nl_cb (cb_set cb) (cb_args cb) func a
           (cb_recvmsgs_ow cb) (cb_recv_ow cb) (cb_send_ow cb)
           (cb_refcnt cb).

(** *** The preset handlers *)

(** Printing is an effect on the user state; the kernel error translator
    [nl_syserr2nlerr] lives in lib/error.c, outside the sources. *)
Variable fprintf : FILE arg -> string -> U -> U.
Variable print_header_content : FILE arg -> nlmsghdr -> U -> U.
Variable nl_msg_dump : nl_msg -> FILE arg -> U -> U.
Variable strerror : Z -> string.
Variable nl_syserr2nlerr : Z -> Z.

Definition ofd_or (a : option arg) (dflt : FILE arg) : FILE arg :=
  match a with Some f => user_stream f | None => dflt end.

(** The one-character string a C literal writes as backslash-n. *)
Definition newline : string := String (ascii_of_nat 10) EmptyString.

Definition report (text : string) (dflt : FILE arg) (ret : Z)
  : nl_recvmsg_msg_cb_t :=
  fun msg a u =>
    let ofd := ofd_or a dflt in
    let u := fprintf ofd text u in
    let u := print_header_content ofd (nlmsg_hdr msg) u in
    let u := fprintf ofd newline u in
    (ret, msg, u).

Definition nl_valid_handler_verbose : nl_recvmsg_msg_cb_t :=
  report "-- Warning: unhandled valid message: " stdout NL_OK.

Definition nl_invalid_handler_verbose : nl_recvmsg_msg_cb_t :=
  report "-- Error: Invalid message: " stderr NL_STOP.

Definition nl_overrun_handler_verbose : nl_recvmsg_msg_cb_t :=
  report "-- Error: Netlink Overrun: " stderr NL_STOP.

Definition nl_error_handler_verbose : nl_recvmsg_err_cb_t :=
  fun who e a u =>
    let ofd := ofd_or a stderr in
    let u := fprintf ofd
               (String.append "-- Error received: "
                  (String.append (strerror (s32 (- e_error e)))
                     (String.append newline "-- Original message: "))) u in
    let u := print_header_content ofd (e_msg e) u in
    let u := fprintf ofd newline u in
    (s32 (- nl_syserr2nlerr (e_error e)), u).

Definition nl_valid_handler_debug : nl_recvmsg_msg_cb_t :=
  report "-- Debug: Unhandled Valid message: " stderr NL_OK.

Definition nl_finish_handler_debug : nl_recvmsg_msg_cb_t :=
  report "-- Debug: End of multipart message block: " stderr NL_STOP.

Definition nl_msg_in_handler_debug : nl_recvmsg_msg_cb_t :=
  fun msg a u =>
    let ofd := ofd_or a stderr in
    let u := fprintf ofd (String.append "-- Debug: Received Message:" newline) u in
    (NL_OK, msg, nl_msg_dump msg ofd u).

Definition nl_msg_out_handler_debug : nl_recvmsg_msg_cb_t :=
  fun msg a u =>
    let ofd := ofd_or a stderr in
    let u := fprintf ofd (String.append "-- Debug: Sent Message:" newline) u in
    (NL_OK, msg, nl_msg_dump msg ofd u).

Definition nl_skipped_handler_debug : nl_recvmsg_msg_cb_t :=
  report "-- Debug: Skipped message: " stderr NL_SKIP.

Definition nl_ack_handler_debug : nl_recvmsg_msg_cb_t :=
  report "-- Debug: ACK: " stderr NL_STOP.

(** The table [cb_def]; an entry the initialiser leaves out is NULL. *)
Definition cb_def (type : nl_cb_type) (kind : nl_cb_kind)
  : option nl_recvmsg_msg_cb_t :=
  match type, kind with
  | NL_CB_VALID, NL_CB_VERBOSE => Some nl_valid_handler_verbose
  | NL_CB_VALID, NL_CB_DEBUG => Some nl_valid_handler_debug
  | NL_CB_FINISH, NL_CB_DEBUG => Some nl_finish_handler_debug
  | NL_CB_INVALID, NL_CB_VERBOSE => Some nl_invalid_handler_verbose
  | NL_CB_INVALID, NL_CB_DEBUG => Some nl_invalid_handler_verbose
  | NL_CB_MSG_IN, NL_CB_DEBUG => Some nl_msg_in_handler_debug
  | NL_CB_MSG_OUT, NL_CB_DEBUG => Some nl_msg_out_handler_debug
  | NL_CB_OVERRUN, NL_CB_VERBOSE => Some nl_overrun_handler_verbose
  | NL_CB_OVERRUN, NL_CB_DEBUG => Some nl_overrun_handler_verbose
  | NL_CB_SKIPPED, NL_CB_DEBUG => Some nl_skipped_handler_debug
  | NL_CB_ACK, NL_CB_DEBUG => Some nl_ack_handler_debug
  | _, _ => None
  end.

Definition cb_err_def (kind : nl_cb_kind) : option nl_recvmsg_err_cb_t :=
  match kind with
  | NL_CB_VERBOSE | NL_CB_DEBUG => Some nl_error_handler_verbose
  | _ => None
  end.

(** *** Callback setup *)

Definition nl_cb_set (cb : nl_cb) (type kind : Z)
    (func : option nl_recvmsg_msg_cb_t) (a : option arg) : nl_cb * Z :=
  match type_of_Z type with
  | None => (cb, - NLE_RANGE)
  | Some t =>
      match kind_of_Z kind with
      | None => (cb, - NLE_RANGE)
      | Some NL_CB_CUSTOM => (set_slot cb t func a, 0)
      | Some k => (set_slot cb t (cb_def t k) a, 0)
      end
  end.

(** The loop [for (i = 0; i <= NL_CB_TYPE_MAX; i++)] of [nl_cb_set_all],
    from index [i], with [todo] iterations left. *)
Fixpoint nl_cb_set_all_from (todo : nat) (i : Z) (cb : nl_cb) (kind : Z)
    (func : option nl_recvmsg_msg_cb_t) (a : option arg) : nl_cb * Z :=
  match todo with
  | O => (cb, 0)
  | S todo' =>
      let '(cb', err) := nl_cb_set cb i kind func a in
      if err <? 0 then (cb', err)
      else nl_cb_set_all_from todo' (i + 1) cb' kind func a
  end.

Definition nl_cb_set_all (cb : nl_cb) (kind : Z)
    (func : option nl_recvmsg_msg_cb_t) (a : option arg) : nl_cb * Z :=
  nl_cb_set_all_from (Z.to_nat (NL_CB_TYPE_MAX + 1)) 0 cb kind func a.

Definition nl_cb_err (cb : nl_cb) (kind : Z)
    (func : option nl_recvmsg_err_cb_t) (a : option arg) : nl_cb * Z :=
  match kind_of_Z kind with
  | None => (cb, - NLE_RANGE)
  | Some NL_CB_CUSTOM => (set_err cb func a, 0)
  | Some k => (set_err cb (cb_err_def k) a, 0)
  end.

(** *** Callback handle management *)

(** The block [calloc] returns: every pointer NULL, the count 0. *)
Definition zero_cb : nl_cb :=
  mk_nl_cb (fun _ => None) (fun _ => None) None None None None None 0.

(** The loop of [nl_cb_alloc], which ignores the result code of
    [nl_cb_set]. *)
Fixpoint nl_cb_alloc_from (todo : nat) (i : Z) (cb : nl_cb) (kind : Z) : nl_cb :=
  match todo with
  | O => cb
  | S todo' =>
      nl_cb_alloc_from todo' (i + 1) (fst (nl_cb_set cb i kind None None)) kind
  end.

(** [nl_cb_alloc]; [block] is the answer of [calloc]: NULL, or the
    address of a block that is not in use. *)
Definition nl_cb_alloc (h : cb_store) (block : option positive) (kind : Z)
  : outcome (cb_store * option positive) :=
  if (kind <? 0) || (NL_CB_KIND_MAX <? kind) then Ret (h, None)
  else
    match block with
    | None => Ret (h, None)
    | Some p =>
        match h !! p with
        | Some _ => NoReturn
        | None =>
            let cb := set_refcnt zero_cb 1 in
            let cb := nl_cb_alloc_from (Z.to_nat (NL_CB_TYPE_MAX + 1)) 0 cb kind in
            let cb := fst (nl_cb_err cb kind None None) in
            Ret (<[p := cb]> h, Some p)
        end
    end.

(** [nl_cb_clone]: a fresh set, overwritten with a copy of the original,
    with a count of its own. *)
Definition nl_cb_clone (h : cb_store) (block : option positive) (orig : positive)
  : outcome (cb_store * option positive) :=
  match nl_cb_alloc h block 0 with
  | Ret (h', Some p) =>
      match h' !! orig with
      | Some o => Ret (<[p := set_refcnt o 1]> h', Some p)
      | None => NoReturn
      end
  | r => r
  end.

Definition nl_cb_get (h : cb_store) (cb : positive)
  : outcome (cb_store * positive) :=
  match h !! cb with
  | None => NoReturn
  | Some c => Ret (<[cb := set_refcnt c (s32 (cb_refcnt c + 1))]> h, cb)
  end.

(** Modelled from the spec: the macro [BUG()] of netlink-local.h is an
    assertion: the run does not go on. *)
Definition nl_cb_put (h : cb_store) (cb : option positive) : outcome cb_store :=
  match cb with
  | None => Ret h
  | Some p =>
      match h !! p with
      | None => NoReturn
      | Some c =>
          let c' := set_refcnt c (s32 (cb_refcnt c - 1)) in
          if cb_refcnt c' <? 0 then NoReturn
          else if cb_refcnt c' <=? 0 then Ret (delete p h)
          else Ret (<[p := c']> h)
      end
  end.

(** *** Overwriting *)

Definition nl_cb_overwrite_recvmsgs (cb : nl_cb)
    (func : option (nl_sock -> positive -> U -> Z * nl_sock * U)) : nl_cb :=
  mk_nl_cb (cb_set cb) (cb_args cb) (cb_err cb) (cb_err_arg cb)
           func (cb_recv_ow cb) (cb_send_ow cb) (cb_refcnt cb).

Definition nl_cb_overwrite_recv (cb : nl_cb)
    (func : option (nl_sock -> U -> Z * datagram * U)) : nl_cb :=
  mk_nl_cb (cb_set cb) (cb_args cb) (cb_err cb) (cb_err_arg cb)
           (cb_recvmsgs_ow cb) func (cb_send_ow cb) (cb_refcnt cb).

Definition nl_cb_overwrite_send (cb : nl_cb)
    (func : option (nl_sock -> nl_msg -> U -> Z * U)) : nl_cb :=
  mk_nl_cb (cb_set cb) (cb_args cb) (cb_err cb) (cb_err_arg cb)
           (cb_recvmsgs_ow cb) (cb_recv_ow cb) func (cb_refcnt cb).

End Callbacks.

End Handlers.

(** ** lib/nl.c *)

Module Nl.

Import Msg Handlers.

(** Modelled from the spec: the sentinels [NL_AUTO_PORT] and [NL_AUTO_SEQ]
    of netlink/msg.h, the header flags and the control frame types of
    linux/netlink.h, the endpoint flags of netlink-local.h and the error
    codes of netlink/errno.h. None of these headers is among the sources
    and the specification gives the names only: the numbers are those of
    the Linux netlink ABI and of the libnl headers. The properties below
    refer to the constants by name. *)
Definition NL_AUTO_PORT : Z := 0.
Definition NL_AUTO_SEQ : Z := 0.

Definition NLM_F_REQUEST : Z := 1.
Definition NLM_F_MULTI : Z := 2.
Definition NLM_F_ACK : Z := 4.
Definition NLM_F_DUMP_INTR : Z := 16.

Definition NLMSG_NOOP : Z := 1.
Definition NLMSG_ERROR : Z := 2.
Definition NLMSG_DONE : Z := 3.
Definition NLMSG_OVERRUN : Z := 4.

Definition NL_SOCK_BUFSIZE_SET : Z := 1.
Definition NL_SOCK_PASSCRED : Z := 2.
Definition NL_OWN_PORT : Z := 4.
Definition NL_MSG_PEEK : Z := 8.
Definition NL_NO_AUTO_ACK : Z := 16.

Definition NLE_NOMEM : Z := 5.
Definition NLE_SEQ_MISMATCH : Z := 16.
Definition NLE_MSG_OVERFLOW : Z := 17.
Definition NLE_MSG_TRUNC : Z := 18.
Definition NLE_DUMP_INTR : Z := 33.

Definition AF_NETLINK : Z := 16.

(** Modelled from the spec: [nlmsg_size] is declared in netlink/msg.h and
    defined outside the sources: [msg_size(payload) = 16 + payload]. *)
Definition nlmsg_size (payload : Z) : Z := s32 (NLMSG_HDRLEN + payload).

(** *** Auto-completion *)

Definition set_seq_next (sk : nl_sock) (v : Z) : nl_sock :=
  mk_nl_sock (s_local sk) (s_peer sk) (s_fd sk) (s_proto sk) v
             (s_seq_expect sk) (s_flags sk) (s_cb sk) (s_bufsize sk).

Definition set_seq_expect (sk : nl_sock) (v : Z) : nl_sock :=
  mk_nl_sock (s_local sk) (s_peer sk) (s_fd sk) (s_proto sk) (s_seq_next sk)
             v (s_flags sk) (s_cb sk) (s_bufsize sk).

Definition set_pid (h : nlmsghdr) (v : Z) : nlmsghdr :=
  mk_nlmsghdr (nlmsg_len h) (nlmsg_type h) (nlmsg_flags h) (nlmsg_seq h) v.

Definition set_seq (h : nlmsghdr) (v : Z) : nlmsghdr :=
  mk_nlmsghdr (nlmsg_len h) (nlmsg_type h) (nlmsg_flags h) v (nlmsg_pid h).

Definition or_flags (h : nlmsghdr) (f : Z) : nlmsghdr :=
  mk_nlmsghdr (nlmsg_len h) (nlmsg_type h) (u16 (Z.lor (nlmsg_flags h) f))
              (nlmsg_seq h) (nlmsg_pid h).

(** [nlh] aliases the header inside the block of [msg]: the message
    returned carries the header as it stands at the end. *)
Definition nl_complete_msg (sk : nl_sock) (msg : nl_msg) : nl_sock * nl_msg :=
  let nlh := nlmsg_hdr msg in
  let nlh :=
    if nlmsg_pid nlh =? NL_AUTO_PORT then set_pid nlh (nl_pid (s_local sk))
    else nlh in
  let '(nlh, sk) :=
    if nlmsg_seq nlh =? NL_AUTO_SEQ
    then (set_seq nlh (s_seq_next sk),
          set_seq_next sk (u32 (s_seq_next sk + 1)))
    else (nlh, sk) in
  let msg :=
    if nm_protocol msg =? -1 then nlmsg_set_proto msg (s_proto sk) else msg in
  let nlh := or_flags nlh NLM_F_REQUEST in
  let nlh :=
    if Z.land (s_flags sk) NL_NO_AUTO_ACK =? 0 then or_flags nlh NLM_F_ACK
    else nlh in
  (sk, set_nlh msg nlh (nm_data msg)).

Definition nl_auto_complete (sk : nl_sock) (msg : nl_msg) : nl_sock * nl_msg :=
  nl_complete_msg sk msg.

(** Lines 286-289 on their own: the flags a run of auto-completion ORs
    into a header. *)
Definition stamped (sk : nl_sock) (h : nlmsghdr) : nlmsghdr :=
  if Z.land (s_flags sk) NL_NO_AUTO_ACK =? 0
  then or_flags (or_flags h NLM_F_REQUEST) NLM_F_ACK
  else or_flags h NLM_F_REQUEST.


(** *** What the transport sees *)

Inductive iov_ptr :=
  | msg_block
  | user_block (octets : list byte).

Record iovec := mk_iovec {
  iov_base : iov_ptr;
  iov_len : Z
}.

(** [struct msghdr], with the ancillary buffer reduced to the credentials
    record it carries. *)
Record msghdr := mk_msghdr {
  msg_name : sockaddr_nl;
  msg_iov : list iovec;
  msg_control : option ucred
}.

Section Engine.

Variable U : Type.
Variable arg : Type.
Variable dm : data_model.
Variable mem : Z -> bool.

Abbreviation nl_cb := (Handlers.nl_cb U arg).
Abbreviation cb_store := (gmap positive nl_cb).

(** The environment: the kernel error translator of lib/error.c, the
    [sendmsg] system call (its result and [errno]), and the built-in
    datagram read [nl_recv], whose system calls are not modelled. *)
Variable nl_syserr2nlerr : Z -> Z.
Variable sys_sendmsg : Z -> msghdr -> nl_msg -> U -> Z * Z * U.
Variable nl_recv : nl_sock -> U -> Z * datagram * U.

(** What can be observed of a run: the hooks invoked and the datagrams
    handed to the transport, in order. *)
Inductive event :=
  | EvHook (type : nl_cb_type) (msg : nl_msg)
  | EvErr (who : sockaddr_nl) (e : nlmsgerr)
  | EvSendmsg (fd : Z) (hdr : msghdr) (msg : nl_msg).

Record world := mk_world {
  w_user : U;
  w_log : list event
}.

(** Modelled from the spec: the inline [nl_cb_call] of netlink-local.h
    calls the function bound to the slot with the argument bound to it;
    a call through an empty slot has no result. *)
Definition nl_cb_call (cb : nl_cb) (type : nl_cb_type) (msg : nl_msg)
    (w : world) : option (Z * nl_msg * world) :=
  match cb_set U arg cb type with
  | None => None
  | Some f =>
      let '(r, msg', u') := f msg (cb_args U arg cb type) (w_user w) in
      Some (r, msg', mk_world u' (w_log w ++ [EvHook type msg]))
  end.

(** *** Send *)

(** Lines 198-203: hand the datagram to the transport and translate a
    failure. *)
Definition do_sendmsg (sk : nl_sock) (hdr : msghdr) (msg : nl_msg) (w : world)
  : outcome (Z * nl_msg * world) :=
  let '(n, errno, u') := sys_sendmsg (s_fd sk) hdr msg (w_user w) in
  let ret := s32 n in
  let w' := mk_world u' (w_log w ++ [EvSendmsg (s_fd sk) hdr msg]) in
  if ret <? 0 then Ret (s32 (- nl_syserr2nlerr errno), msg, w')
  else Ret (ret, msg, w').

Definition nl_sendmsg (h : cb_store) (sk : nl_sock) (msg : nl_msg)
    (hdr : msghdr) (w : world) : outcome (Z * nl_msg * world) :=
  let msg := nlmsg_set_src msg (s_local sk) in
  match h !! s_cb sk with
  | None => NoReturn
  | Some cb =>
      match cb_set U arg cb NL_CB_MSG_OUT with
      | Some _ =>
          match nl_cb_call cb NL_CB_MSG_OUT msg w with
          | None => NoReturn
          | Some (ret, msg', w') =>
              if negb (ret =? NL_OK) then Ret (ret, msg', w')
              else do_sendmsg sk hdr msg' w'
          end
      | None => do_sendmsg sk hdr msg w
      end
  end.

Definition nl_send_iovec (h : cb_store) (sk : nl_sock) (msg : nl_msg)
    (iov : list iovec) (w : world) : outcome (Z * nl_msg * world) :=
  let dst := nlmsg_get_dst msg in
  let name := if nl_family dst =? AF_NETLINK then dst else s_peer sk in
  nl_sendmsg h sk msg (mk_msghdr name iov (nlmsg_get_creds msg)) w.

Definition nl_send (h : cb_store) (sk : nl_sock) (msg : nl_msg) (w : world)
  : outcome (Z * nl_msg * world) :=
  nl_send_iovec h sk msg
    [mk_iovec msg_block (usize dm (nlmsg_len (nlmsg_hdr msg)))] w.

Definition nl_send_auto (h : cb_store) (sk : nl_sock) (msg : nl_msg)
    (w : world) : outcome (Z * nl_sock * nl_msg * world) :=
  match h !! s_cb sk with
  | None => NoReturn
  | Some cb =>
      let '(sk, msg) := nl_complete_msg sk msg in
      match cb_send_ow U arg cb with
      | Some f =>
          let '(ret, u') := f sk msg (w_user w) in
          Ret (ret, sk, msg, mk_world u' (w_log w))
      | None =>
          match nl_send h sk msg w with
          | NoReturn => NoReturn
          | Ret (ret, msg', w') => Ret (ret, sk, msg', w')
          end
      end
  end.

(** *** Receive *)

(** The local variables of [recvmsgs], the socket and the world. [r_hdr]
    is the position of [hdr] in the receive buffer. *)
Record rstate := mk_rstate {
  r_sk : nl_sock;
  r_world : world;
  r_msg : option nl_msg;
  r_multipart : bool;
  r_interrupted : bool;
  r_nrecv : Z;
  r_n : Z;
  r_hdr : Z
}.

Definition with_sk (s : rstate) (sk : nl_sock) : rstate :=
  mk_rstate sk (r_world s) (r_msg s) (r_multipart s) (r_interrupted s)
            (r_nrecv s) (r_n s) (r_hdr s).
Definition with_world (s : rstate) (w : world) : rstate :=
  mk_rstate (r_sk s) w (r_msg s) (r_multipart s) (r_interrupted s)
            (r_nrecv s) (r_n s) (r_hdr s).
Definition with_msg (s : rstate) (m : option nl_msg) : rstate :=
  mk_rstate (r_sk s) (r_world s) m (r_multipart s) (r_interrupted s)
            (r_nrecv s) (r_n s) (r_hdr s).
Definition with_multipart (s : rstate) (b : bool) : rstate :=
  mk_rstate (r_sk s) (r_world s) (r_msg s) b (r_interrupted s)
            (r_nrecv s) (r_n s) (r_hdr s).
Definition with_interrupted (s : rstate) (b : bool) : rstate :=
  mk_rstate (r_sk s) (r_world s) (r_msg s) (r_multipart s) b
            (r_nrecv s) (r_n s) (r_hdr s).
Definition with_nrecv (s : rstate) (v : Z) : rstate :=
  mk_rstate (r_sk s) (r_world s) (r_msg s) (r_multipart s) (r_interrupted s)
            v (r_n s) (r_hdr s).
Definition with_cursor (s : rstate) (pos n : Z) : rstate :=
  mk_rstate (r_sk s) (r_world s) (r_msg s) (r_multipart s) (r_interrupted s)
            (r_nrecv s) n pos.

(** Where control goes after a step of the body of the frame loop: on to
    the next statement, or to one of the labels [skip], [stop], [out]
    (with the value of [err]). [Crash] is a step C leaves undefined. *)
Inductive flow (A : Type) : Type :=
  | Proceed (a : A) (s : rstate)
  | GotoSkip (s : rstate)
  | GotoStop (s : rstate)
  | GotoOut (err : Z) (s : rstate)
  | Crash.
Arguments Proceed {A} a s.
Arguments GotoSkip {A} s.
Arguments GotoStop {A} s.
Arguments GotoOut {A} err s.
Arguments Crash {A}.

Definition M (A : Type) : Type := rstate -> flow A.

Definition ret {A} (a : A) : M A := fun s => Proceed a s.

Definition bind {A B} (m : M A) (k : A -> M B) : M B :=
  fun s =>
    match m s with
    | Proceed a s' => k a s'
    | GotoSkip s' => GotoSkip s'
    | GotoStop s' => GotoStop s'
    | GotoOut err s' => GotoOut err s'
    | Crash => Crash
    end.

Definition seqm {B} (m : M unit) (k : M B) : M B := bind m (fun _ => k).

Definition get : M rstate := fun s => Proceed s s.
Definition modify (f : rstate -> rstate) : M unit := fun s => Proceed tt (f s).
Definition goto_skip {A} : M A := fun s => GotoSkip s.
Definition goto_out {A} (err : Z) : M A := fun s => GotoOut err s.
Definition crash {A} : M A := fun _ => Crash.
Definition when (b : bool) (m : M unit) : M unit := if b then m else ret tt.

(** The macro [NL_CB_CALL(cb, type, msg)]. *)
Definition NL_CB_CALL (cb : nl_cb) (type : nl_cb_type) : M unit :=
  fun s =>
    match r_msg s with
    | None => Crash
    | Some msg =>
        match nl_cb_call cb type msg (r_world s) with
        | None => Crash
        | Some (err, msg', w') =>
            let s' := with_msg (with_world s w') (Some msg') in
            if err =? NL_OK then Proceed tt s'
            else if err =? NL_SKIP then GotoSkip s'
            else if err =? NL_STOP then GotoStop s'
            else GotoOut err s'
        end
    end.

Definition bound (cb : nl_cb) (type : nl_cb_type) : bool :=
  match cb_set U arg cb type with Some _ => true | None => false end.

Definition has_flag (word flag : Z) : bool := negb (Z.land word flag =? 0).

(** Lines 577-594: free the previous message, convert the frame, stamp
    protocol, source and credentials, count it, and run the raw
    [MSG_IN] hook. *)
Definition frame_prologue (cb : nl_cb) (dg : datagram) (f : raw_frame) : M unit :=
  seqm (modify (fun s => with_msg s None))
  (seqm (fun s =>
     match nlmsg_convert dm mem f with
     | NoReturn => Crash
     | Ret None => GotoOut (- NLE_NOMEM) s
     | Ret (Some msg) =>
         let msg := nlmsg_set_proto msg (s_proto (r_sk s)) in
         let msg := nlmsg_set_src msg (dg_nla dg) in
         let msg := match dg_creds dg with
                    | Some creds => nlmsg_set_creds msg creds
                    | None => msg
                    end in
         Proceed tt (with_nrecv (with_msg s (Some msg)) (s32 (r_nrecv s + 1)))
     end)
  (when (bound cb NL_CB_MSG_IN) (NL_CB_CALL cb NL_CB_MSG_IN))).

(** Lines 599-612: sequence number checking. *)
Definition seq_check (cb : nl_cb) (f : raw_frame) : M unit :=
  if bound cb NL_CB_SEQ_CHECK then NL_CB_CALL cb NL_CB_SEQ_CHECK
  else
    bind get (fun s =>
      if negb (has_flag (s_flags (r_sk s)) NL_NO_AUTO_ACK) then
        if negb (nlmsg_seq (rf_hdr f) =? s_seq_expect (r_sk s)) then
          if bound cb NL_CB_INVALID then NL_CB_CALL cb NL_CB_INVALID
          else goto_out (- NLE_SEQ_MISMATCH)
        else ret tt
      else ret tt).

(** Lines 614-624: a control frame advances the expected sequence
    number. *)
Definition seq_advance (f : raw_frame) : M unit :=
  let type := nlmsg_type (rf_hdr f) in
  when ((type =? NLMSG_DONE) || (type =? NLMSG_ERROR)
        || (type =? NLMSG_NOOP) || (type =? NLMSG_OVERRUN))
    (modify (fun s =>
       with_sk s (set_seq_expect (r_sk s) (u32 (s_seq_expect (r_sk s) + 1))))).

(** Lines 626-627. *)
Definition mark_multipart (f : raw_frame) : M unit :=
  when (has_flag (nlmsg_flags (rf_hdr f)) NLM_F_MULTI)
    (modify (fun s => with_multipart s true)).

(** Lines 629-640. *)
Definition dump_intr (cb : nl_cb) (f : raw_frame) : M unit :=
  when (has_flag (nlmsg_flags (rf_hdr f)) NLM_F_DUMP_INTR)
    (if bound cb NL_CB_DUMP_INTR then NL_CB_CALL cb NL_CB_DUMP_INTR
     else modify (fun s => with_interrupted s true)).

(** Lines 643-649. *)
Definition send_ack (cb : nl_cb) (f : raw_frame) : M unit :=
  when (has_flag (nlmsg_flags (rf_hdr f)) NLM_F_ACK)
    (when (bound cb NL_CB_SEND_ACK) (NL_CB_CALL cb NL_CB_SEND_ACK)).

(** Lines 699-715: the error hook and what is made of its result. *)
Definition call_err (cb : nl_cb) (dg : datagram) (e : nlmsgerr) : M unit :=
  match cb_err U arg cb with
  | Some cb_err_fn =>
      fun s =>
        let w := r_world s in
        let '(err, u') :=
          cb_err_fn (dg_nla dg) e (cb_err_arg U arg cb) (w_user w) in
        let s' := with_world s
                    (mk_world u' (w_log w ++ [EvErr (dg_nla dg) e])) in
        if err <? 0 then GotoOut err s'
        else if err =? NL_SKIP then GotoSkip s'
        else if err =? NL_STOP
             then GotoOut (s32 (- nl_syserr2nlerr (e_error e))) s'
        else Proceed tt s'
  | None => goto_out (s32 (- nl_syserr2nlerr (e_error e)))
  end.

(** Lines 655-724: dispatch on the frame type. *)
Definition dispatch (cb : nl_cb) (dg : datagram) (f : raw_frame) : M unit :=
  let hdr := rf_hdr f in
  if nlmsg_type hdr =? NLMSG_DONE then
    seqm (modify (fun s => with_multipart s false))
         (when (bound cb NL_CB_FINISH) (NL_CB_CALL cb NL_CB_FINISH))
  else if nlmsg_type hdr =? NLMSG_NOOP then
    if bound cb NL_CB_SKIPPED then NL_CB_CALL cb NL_CB_SKIPPED
    else goto_skip
  else if nlmsg_type hdr =? NLMSG_OVERRUN then
    if bound cb NL_CB_OVERRUN then NL_CB_CALL cb NL_CB_OVERRUN
    else goto_out (- NLE_MSG_OVERFLOW)
  else if nlmsg_type hdr =? NLMSG_ERROR then
    let e := rf_err f in
    if nlmsg_len hdr <? u32 (nlmsg_size sizeof_nlmsgerr) then
      if bound cb NL_CB_INVALID then NL_CB_CALL cb NL_CB_INVALID
      else goto_out (- NLE_MSG_TRUNC)
    else if negb (e_error e =? 0) then call_err cb dg e
    else when (bound cb NL_CB_ACK) (NL_CB_CALL cb NL_CB_ACK)
  else
    when (bound cb NL_CB_VALID) (NL_CB_CALL cb NL_CB_VALID).

(** Lines 599-649: what is done with every frame between the raw hook and
    the dispatch on its type. *)
Definition frame_checks (cb : nl_cb) (f : raw_frame) : M unit :=
  seqm (seq_check cb f)
  (seqm (seq_advance f)
  (seqm (mark_multipart f)
  (seqm (dump_intr cb f)
        (send_ack cb f)))).

(** The body of the [while (nlmsg_ok(hdr, n))] loop. *)
Definition process_frame (cb : nl_cb) (dg : datagram) (f : raw_frame) : M unit :=
  seqm (frame_prologue cb dg f)
  (seqm (frame_checks cb f)
        (dispatch cb dg f)).

(** The frame [f], taken up in state [s0], gets as far as the sequence
    check in state [s1], or as far as the dispatch in state [s2]. *)
Definition reaches_seq_check (cb : nl_cb) (dg : datagram) (f : raw_frame)
    (s0 s1 : rstate) : Prop :=
  frame_prologue cb dg f s0 = Proceed tt s1.

Definition reaches_dispatch (cb : nl_cb) (dg : datagram) (f : raw_frame)
    (s0 s2 : rstate) : Prop :=
  exists s1, frame_prologue cb dg f s0 = Proceed tt s1
             /\ frame_checks cb f s1 = Proceed tt s2.

(** The labels [out:] and [stop:] (which sets [err = 0] first): release
    the message, then compute the value returned. *)
Definition epilogue (err : Z) (s : rstate) : Z * rstate :=
  let s := with_msg s None in
  let err := if r_interrupted s then - NLE_DUMP_INTR else err in
  let err := if err =? 0 then r_nrecv s else err in
  (err, s).

(** The states of section 4.4: reading the next datagram, or parsing
    the one at hand. *)
Inductive phase :=
  | READING
  | PARSING (dg : datagram).

Inductive result :=
  | Returns (v : Z) (s : rstate)
  | Aborts
  | OutOfFuel.

(** The two loops of [recvmsgs]; every datagram read and every frame
    uses one unit of [fuel]. *)
Fixpoint recvmsgs_loop (fuel : nat) (cb : nl_cb) (ph : phase) (s : rstate)
  : result :=
  match fuel with
  | O => OutOfFuel
  | S fuel' =>
      match ph with
      | READING =>
          let recv := match cb_recv_ow U arg cb with
                      | Some f => f
                      | None => nl_recv
                      end in
          let '(n, dg, u') := recv (r_sk s) (w_user (r_world s)) in
          let s := with_world s (mk_world u' (w_log (r_world s))) in
          if n <=? 0 then Returns n s
          else recvmsgs_loop fuel' cb (PARSING dg) (with_cursor s 0 n)
      | PARSING dg =>
          let f := dg_buf dg (r_hdr s) in
          if nlmsg_ok dm (rf_hdr f) (r_n s) then
            let next (s' : rstate) :=
              let '(pos, n) := nlmsg_next (r_hdr s') (rf_hdr f) (r_n s') in
              recvmsgs_loop fuel' cb (PARSING dg) (with_cursor s' pos n) in
            match process_frame cb dg f s with
            | Proceed _ s' => next s'
            | GotoSkip s' => next s'
            | GotoStop s' => let '(v, s'') := epilogue 0 s' in Returns v s''
            | GotoOut err s' => let '(v, s'') := epilogue err s' in Returns v s''
            | Crash => Aborts
            end
          else
            let s := with_msg s None in
            if r_multipart s then recvmsgs_loop fuel' cb READING s
            else let '(v, s') := epilogue 0 s in Returns v s'
      end
  end.

Definition init_rstate (sk : nl_sock) (w : world) : rstate :=
  mk_rstate sk w None false false 0 0 0.

Definition recvmsgs (fuel : nat) (sk : nl_sock) (cb : nl_cb) (w : world)
  : result :=
  recvmsgs_loop fuel cb READING (init_rstate sk w).

(** [cb_recvmsgs_ow] is called with [sk] and [cb] by pointer: the
    socket it leaves behind is the one the caller goes on with.  The
    callback set behind [cb] is out of its reach here, since a set cannot
    hold a function on the store of sets; what is proved of the store is
    proved for sets without this override. *)
Definition nl_recvmsgs_report (fuel : nat) (h : cb_store) (sk : nl_sock)
    (cb : positive) (w : world) : result :=
  match h !! cb with
  | None => Aborts
  | Some c =>
      match cb_recvmsgs_ow U arg c with
      | Some f =>
          let '(v, sk', u') := f sk cb (w_user w) in
          Returns v (init_rstate sk' (mk_world u' (w_log w)))
      | None => recvmsgs fuel sk c w
      end
  end.

Definition nl_recvmsgs (fuel : nat) (h : cb_store) (sk : nl_sock)
    (cb : positive) (w : world) : result :=
  match nl_recvmsgs_report fuel h sk cb w with
  | Returns err s => Returns (if 0 <? err then 0 else err) s
  | r => r
  end.

Definition nl_recvmsgs_default (fuel : nat) (h : cb_store) (sk : nl_sock)
    (w : world) : result :=
  nl_recvmsgs fuel h sk (s_cb sk) w.

(** *** Observations on steps *)

(** The state a step leaves behind, unless it crashed. *)
Definition flow_state {A} (fl : flow A) : option rstate :=
  match fl with
  | Proceed _ s | GotoSkip s | GotoStop s | GotoOut _ s => Some s
  | Crash => None
  end.

(** What a step may touch: the world and the message at hand; the socket,
    the cursor and the flags of the loop stay as they are. *)
Definition same_frame (s s' : rstate) : Prop :=
  r_sk s' = r_sk s /\ r_multipart s' = r_multipart s
  /\ r_interrupted s' = r_interrupted s /\ r_nrecv s' = r_nrecv s
  /\ r_n s' = r_n s /\ r_hdr s' = r_hdr s.

End Engine.

Arguments Proceed {U A} a s.
Arguments GotoSkip {U A} s.
Arguments GotoStop {U A} s.
Arguments GotoOut {U A} err s.
Arguments Crash {U A}.
Arguments Returns {U} v s.
Arguments Aborts {U}.
Arguments OutOfFuel {U}.
Arguments flow_state {U A} fl.
Arguments same_frame {U} s s'.

End Nl.

(** ** The default return values documented in lib/handlers.c *)

Module HandlerDoc.

Import Handlers.

(** The table "Callback ID | Default Return Value" in the comment at the
    head of lib/handlers.c; it has no row for [NL_CB_DUMP_INTR]. *)
Definition default_return (type : nl_cb_type) : option Z :=
  match type with
  | NL_CB_VALID => Some NL_OK
  | NL_CB_FINISH => Some NL_STOP
  | NL_CB_OVERRUN => Some NL_STOP
  | NL_CB_SKIPPED => Some NL_SKIP
  | NL_CB_ACK => Some NL_STOP
  | NL_CB_MSG_IN => Some NL_OK
  | NL_CB_MSG_OUT => Some NL_OK
  | NL_CB_INVALID => Some NL_STOP
  | NL_CB_SEQ_CHECK => Some NL_OK
  | NL_CB_SEND_ACK => Some NL_OK
  | NL_CB_DUMP_INTR => None
  end.

End HandlerDoc.

(** ** lib/nl.c: connection management *)

Module Connection.

Import Msg Handlers Nl.

(** Modelled from the spec: the error codes BadSocket, AddressFamily-
    NotSupported and NoAddress, [NLE_BAD_SOCK], [NLE_AF_NOSUPPORT] and
    [NLE_NOADDR] of netlink/errno.h, with the numbers they have there. *)
Definition NLE_BAD_SOCK : Z := 3.
Definition NLE_AF_NOSUPPORT : Z := 11.
Definition NLE_NOADDR : Z := 19.

(** [sizeof(struct sockaddr_nl)]. *)
Definition sizeof_sockaddr_nl : Z := 12.

(** The system calls of [nl_connect] and [nl_close], as they are issued;
    [SysSetsockopt] stands for the calls [nl_socket_set_buffer_size]
    makes on the descriptor. *)
Inductive syscall :=
  | SysSocket (protocol : Z)
  | SysSetsockopt (fd : Z) (optname : Z) (optval : Z)
  | SysBind (fd : Z) (addr : sockaddr_nl)
  | SysGetsockname (fd : Z)
  | SysClose (fd : Z).

Definition set_fd (sk : nl_sock) (fd : Z) : nl_sock :=
  mk_nl_sock (s_local sk) (s_peer sk) fd (s_proto sk) (s_seq_next sk)
             (s_seq_expect sk) (s_flags sk) (s_cb sk) (s_bufsize sk).

Definition set_proto (sk : nl_sock) (proto : Z) : nl_sock :=
  mk_nl_sock (s_local sk) (s_peer sk) (s_fd sk) proto (s_seq_next sk)
             (s_seq_expect sk) (s_flags sk) (s_cb sk) (s_bufsize sk).

Definition set_local (sk : nl_sock) (addr : sockaddr_nl) : nl_sock :=
  mk_nl_sock addr (s_peer sk) (s_fd sk) (s_proto sk) (s_seq_next sk)
             (s_seq_expect sk) (s_flags sk) (s_cb sk) (s_bufsize sk).

Definition set_flags (sk : nl_sock) (flags : Z) : nl_sock :=
  mk_nl_sock (s_local sk) (s_peer sk) (s_fd sk) (s_proto sk) (s_seq_next sk)
             (s_seq_expect sk) flags (s_cb sk) (s_bufsize sk).

Section Syscalls.

(** The state the system calls act on. *)
Variable U : Type.
Variable nl_syserr2nlerr : Z -> Z.

(** [socket] answers with the descriptor or -1 and [errno]; [bind] and
    [close] with a result and [errno]; [getsockname] also with the
    address and the length it stored. *)
Variable sys_socket : Z -> U -> Z * Z * U.
Variable sys_bind : Z -> sockaddr_nl -> U -> Z * Z * U.
Variable sys_getsockname : Z -> U -> Z * Z * sockaddr_nl * Z * U.
Variable sys_close : Z -> U -> U.

(** Modelled from the spec: [nl_socket_set_buffer_size] of lib/socket.c,
    which is not among the sources. It sets the two buffer sizes of the
    descriptor and, when that went well, the flag [NL_SOCK_BUFSIZE_SET];
    of the socket it changes [s_flags] only. The result is the code it
    returns, the flags it leaves, the system calls it made, in order,
    and the state. *)
Variable nl_socket_set_buffer_size :
  nl_sock -> Z -> Z -> U -> Z * Z * list syscall * U.

(** The user state with the trace of the system calls issued so far. *)
Record host := mk_host {
  h_user : U;
  h_trace : list syscall
}.

Definition issue (c : syscall) (u : U) (w : host) : host :=
  mk_host u (h_trace w ++ [c]).

(** The label [errout:] of [nl_connect]. *)
Definition errout (err : Z) (sk : nl_sock) (w : host) : Z * nl_sock * host :=
  if negb (s_fd sk =? -1)
  then (err, set_fd sk (-1),
        issue (SysClose (s_fd sk)) (sys_close (s_fd sk) (h_user w)) w)
  else (err, sk, w).

Definition nl_connect (sk : nl_sock) (protocol : Z) (w : host)
  : Z * nl_sock * host :=
  if negb (s_fd sk =? -1) then (- NLE_BAD_SOCK, sk, w)
  else
    let '(fd, errno, u) := sys_socket protocol (h_user w) in
    let sk := set_fd sk (s32 fd) in
    let w := issue (SysSocket protocol) u w in
    if s_fd sk <? 0 then errout (s32 (- nl_syserr2nlerr errno)) sk w
    else
      let '(err, sk, w) :=
        if Z.land (s_flags sk) NL_SOCK_BUFSIZE_SET =? 0 then
          let '(err, flags, calls, u) :=
            nl_socket_set_buffer_size sk 0 0 (h_user w) in
          (err, set_flags sk flags, mk_host u (h_trace w ++ calls))
        else (0, sk, w) in
      if err <? 0 then errout err sk w
      else
        let '(err, errno, u) := sys_bind (s_fd sk) (s_local sk) (h_user w) in
        let w := issue (SysBind (s_fd sk) (s_local sk)) u w in
        if s32 err <? 0 then errout (s32 (- nl_syserr2nlerr errno)) sk w
        else
          let '(err, errno, addr, addrlen, u) :=
            sys_getsockname (s_fd sk) (h_user w) in
          let w := issue (SysGetsockname (s_fd sk)) u w in
          let sk := set_local sk addr in
          if s32 err <? 0 then errout (s32 (- nl_syserr2nlerr errno)) sk w
          else if negb (addrlen =? sizeof_sockaddr_nl)
          then errout (- NLE_NOADDR) sk w
          else if negb (nl_family (s_local sk) =? AF_NETLINK)
          then errout (- NLE_AF_NOSUPPORT) sk w
          else (0, set_proto sk protocol, w).

Definition nl_close (sk : nl_sock) (w : host) : nl_sock * host :=
  let '(sk, w) :=
    if 0 <=? s_fd sk
    then (set_fd sk (-1),
          issue (SysClose (s_fd sk)) (sys_close (s_fd sk) (h_user w)) w)
    else (sk, w) in
  (set_proto sk 0, w).

End Syscalls.

Arguments h_user {U} h.
Arguments h_trace {U} h.

End Connection.

(** ** lib/nl.c: reading one datagram *)

Module Reader.

Import Msg Handlers Nl Connection.

(** Modelled from the spec: the flags of [recvmsg], the two [errno]
    values [nl_recv] tells apart and the level and type of a credentials
    control message, none of which the sources define; the numbers are
    those of the Linux headers. *)
Definition MSG_PEEK : Z := 2.
Definition MSG_CTRUNC : Z := 8.
Definition MSG_TRUNC : Z := 32.
Definition EINTR : Z := 4.
Definition EAGAIN : Z := 11.
Definition SOL_SOCKET : Z := 1.
Definition SCM_CREDENTIALS : Z := 2.

(** A control message, with the credentials record its data holds. *)
Record cmsghdr := mk_cmsghdr {
  cmsg_level : Z;
  cmsg_type : Z;
  cmsg_data : ucred
}.

(** What a call of [recvmsg] is given: the descriptor, the flags, and the
    sizes in [struct msghdr] of the buffer, the control buffer and the
    address. *)
Record recv_call := mk_recv_call {
  rc_fd : Z;
  rc_flags : Z;
  rc_iov_len : Z;
  rc_controllen : Z;
  rc_namelen : Z
}.

(** What it answers: the result and [errno], and what it leaves in
    [msg_flags], [msg_namelen], [msg_controllen], the address, the buffer
    and the control buffer. *)
Record recv_reply := mk_recv_reply {
  rr_n : Z;
  rr_errno : Z;
  rr_msg_flags : Z;
  rr_namelen : Z;
  rr_controllen : Z;
  rr_nla : sockaddr_nl;
  rr_buf : Z -> raw_frame;
  rr_control : list cmsghdr
}.

Section Recv.

Variable U : Type.
Variable dm : data_model.
Variable nl_syserr2nlerr : Z -> Z.
Variable getpagesize : Z.

(** [CMSG_SPACE(sizeof(struct ucred))], which depends on the platform. *)
Variable cmsg_space_ucred : Z.

Variable sys_recvmsg : recv_call -> U -> recv_reply * U.

(** The result of [nl_recv]: the value returned, the buffer with the
    address and the credentials when it is handed to the caller rather
    than freed, the state, and the calls of [recvmsg] made, in order. *)
Inductive recv_result :=
  | RecvReturns (n : Z) (dg : option datagram) (u : U)
                (trace : list (recv_call * recv_reply))
  | RecvOutOfFuel.

(** The loop over the control messages: the first one of level
    [SOL_SOCKET] and type [SCM_CREDENTIALS] ends it. *)
Definition find_creds (control : list cmsghdr) : option ucred :=
  match List.find (fun c => (cmsg_level c =? SOL_SOCKET)
                            && (cmsg_type c =? SCM_CREDENTIALS)) control with
  | Some c => Some (cmsg_data c)
  | None => None
  end.

(** The code from the label [retry:] on; every call of [recvmsg] uses
    one unit of [fuel]. [want_creds] tells whether [creds] is a pointer
    rather than NULL. [recvmsg] works on the [struct msghdr] in place, so
    a retry passes on the lengths the call before left in it. *)
Fixpoint recv_loop (fuel : nat) (sk : nl_sock) (want_creds : bool)
    (flags iov_len controllen namelen : Z) (u : U)
    (trace : list (recv_call * recv_reply)) : recv_result :=
  match fuel with
  | O => RecvOutOfFuel
  | S fuel' =>
      let call := mk_recv_call (s_fd sk) flags iov_len controllen namelen in
      let '(reply, u) := sys_recvmsg call u in
      let trace := trace ++ [(call, reply)] in
      let n := rr_n reply in
      if n =? 0 then RecvReturns 0 None u trace
      else if n <? 0 then
        if rr_errno reply =? EINTR
        then recv_loop fuel' sk want_creds flags iov_len
                       (rr_controllen reply) (rr_namelen reply) u trace
        else if rr_errno reply =? EAGAIN then RecvReturns 0 None u trace
        else RecvReturns (s32 (- nl_syserr2nlerr (rr_errno reply))) None u
                         trace
      else if has_flag (rr_msg_flags reply) MSG_CTRUNC
      then recv_loop fuel' sk want_creds flags iov_len
                     (usize dm (rr_controllen reply * 2)) (rr_namelen reply)
                     u trace
      else if (iov_len <? usize dm n) || has_flag (rr_msg_flags reply) MSG_TRUNC
      then recv_loop fuel' sk want_creds 0 (usize dm n) (rr_controllen reply)
                     (rr_namelen reply) u trace
      else if negb (flags =? 0)
      then recv_loop fuel' sk want_creds 0 iov_len (rr_controllen reply)
                     (rr_namelen reply) u trace
      else if negb (rr_namelen reply =? sizeof_sockaddr_nl)
      then RecvReturns (- NLE_NOADDR) None u trace
      else
        RecvReturns (s32 n)
          (Some (mk_datagram (rr_nla reply) (rr_buf reply)
                   (if want_creds then find_creds (rr_control reply)
                    else None)))
          u trace
  end.

Definition nl_recv (fuel : nat) (sk : nl_sock) (want_creds : bool) (u : U)
  : recv_result :=
  let flags := if has_flag (s_flags sk) NL_MSG_PEEK
               then Z.lor MSG_PEEK MSG_TRUNC else 0 in
  let iov_len := if negb (s_bufsize sk =? 0) then s_bufsize sk
                 else usize dm getpagesize in
  let controllen := if has_flag (s_flags sk) NL_SOCK_PASSCRED
                    then cmsg_space_ucred else 0 in
  recv_loop fuel sk want_creds flags iov_len controllen sizeof_sockaddr_nl
            u [].

End Recv.

Arguments RecvReturns {U} n dg u trace.
Arguments RecvOutOfFuel {U}.

End Reader.

(** ** lib/nl.c: requests built on the send and receive paths *)

Module Requests.

Import Msg Handlers Nl.

(** The number an enumerator of [enum nl_cb_type] stands for. *)
Definition type_to_Z (t : nl_cb_type) : Z :=
  match t with
  | NL_CB_VALID => 0 | NL_CB_FINISH => 1 | NL_CB_OVERRUN => 2
  | NL_CB_SKIPPED => 3 | NL_CB_ACK => 4 | NL_CB_MSG_IN => 5
  | NL_CB_MSG_OUT => 6 | NL_CB_INVALID => 7 | NL_CB_SEQ_CHECK => 8
  | NL_CB_SEND_ACK => 9 | NL_CB_DUMP_INTR => 10
  end.

Definition kind_to_Z (k : nl_cb_kind) : Z :=
  match k with
  | NL_CB_DEFAULT => 0 | NL_CB_VERBOSE => 1 | NL_CB_DEBUG => 2
  | NL_CB_CUSTOM => 3
  end.

Section Requests.

Variable U : Type.
Variable arg : Type.
Variable dm : data_model.
Variable mem : Z -> bool.
Variable junk : nat -> byte.
Variable nl_errno_ENOMEM : Z.
Variable fprintf : FILE arg -> string -> U -> U.
Variable print_header_content : FILE arg -> nlmsghdr -> U -> U.
Variable nl_msg_dump : nl_msg -> FILE arg -> U -> U.
Variable strerror : Z -> string.
Variable nl_syserr2nlerr : Z -> Z.
Variable sys_sendmsg : Z -> msghdr -> nl_msg -> U -> Z * Z * U.
Variable nl_recv : nl_sock -> U -> Z * datagram * U.

(** [nl_send_simple]: [buf] is [None] for a NULL pointer. The message is
    freed before the function returns, so what is left is the result
    code, the socket and the world. *)
Definition nl_send_simple (h : gmap positive (nl_cb U arg)) (sk : nl_sock)
    (type flags : Z) (buf : option (list byte)) (size : Z) (w : world U)
  : outcome (Z * nl_sock * world U) :=
  match nlmsg_alloc_simple dm mem type flags with
  | NoReturn => NoReturn
  | Ret None => Ret (- NLE_NOMEM, sk, w)
  | Ret (Some msg) =>
      let send (msg : nl_msg) :=
        match nl_send_auto U arg dm nl_syserr2nlerr sys_sendmsg h sk msg w with
        | NoReturn => NoReturn
        | Ret (err, sk', _, w') => Ret (err, sk', w')
        end in
      match buf with
      | Some data =>
          if negb (size =? 0) then
            match nlmsg_append dm mem junk nl_errno_ENOMEM msg data size
                               NLMSG_ALIGNTO with
            | NoReturn => NoReturn
            | Ret (msg', err) =>
                if err <? 0 then Ret (err, sk, w) else send msg'
            end
          else send msg
      | None => send msg
      end
  end.

(** [ack_wait_handler]. *)
Definition ack_wait_handler : nl_recvmsg_msg_cb_t U arg :=
  fun msg _ u => (NL_STOP, msg, u).

(** The result of [nl_wait_for_ack]: the value returned with the store of
    callback sets and the state the receive loop left. *)
Inductive wait_result :=
  | Waited (v : Z) (h : gmap positive (nl_cb U arg)) (sk : nl_sock)
           (w : world U)
  | WaitAborts
  | WaitOutOfFuel.

(** [nl_wait_for_ack]; [block] is the answer of [calloc] to the request
    of [nl_cb_clone]. *)
Definition nl_wait_for_ack (fuel : nat) (h : gmap positive (nl_cb U arg))
    (block : option positive) (sk : nl_sock) (w : world U) : wait_result :=
  match nl_cb_clone U arg fprintf print_header_content nl_msg_dump strerror
                    nl_syserr2nlerr h block (s_cb sk) with
  | NoReturn => WaitAborts
  | Ret (h1, None) => Waited (- NLE_NOMEM) h1 sk w
  | Ret (h1, Some p) =>
      match h1 !! p with
      | None => WaitAborts
      | Some c =>
          let c' := fst (nl_cb_set U arg fprintf print_header_content
                           nl_msg_dump c (type_to_Z NL_CB_ACK)
                           (kind_to_Z NL_CB_CUSTOM)
                           (Some ack_wait_handler) None) in
          let h2 := <[p := c']> h1 in
          match nl_recvmsgs U arg dm mem nl_syserr2nlerr nl_recv
                            fuel h2 sk p w with
          | Returns err s =>
              match nl_cb_put U arg h2 (Some p) with
              | NoReturn => WaitAborts
              | Ret h3 => Waited err h3 (r_sk U s) (r_world U s)
              end
          | Aborts => WaitAborts
          | OutOfFuel => WaitOutOfFuel
          end
      end
  end.

End Requests.

Arguments Waited {U arg} v h sk w.
Arguments WaitAborts {U arg}.
Arguments WaitOutOfFuel {U arg}.

End Requests.

(** ** lib/msg.c: payload and attribute access *)

Module Payload.

Import Msg.

(** Pointers into a frame are offsets from its header. *)
Definition nlmsg_data : Z := NLMSG_HDRLEN.

Definition nlmsg_tail (nlh : nlmsghdr) : Z := NLMSG_ALIGN (nlmsg_len nlh).

Definition nlmsg_attrdata (hdrlen : Z) : Z := nlmsg_data + NLMSG_ALIGN hdrlen.

Definition nlmsg_attrlen (nlh : nlmsghdr) (hdrlen : Z) : Z :=
  s32 (nlmsg_payload_len nlh - NLMSG_ALIGN hdrlen).

Section Attributes.

(** The attribute parser of lib/attr.c, which is not among the sources:
    it is given the highest type, the head of the attribute stream and
    its length in octets, and returns a code. [nl_errno(EINVAL)] is the
    code of lib/error.c for an invalid argument. *)
Variable nla_parse : Z -> Z -> Z -> Z.
Variable nla_validate : Z -> Z -> Z -> Z.
Variable nl_errno_EINVAL : Z.

(** In [nlh->nlmsg_len < nlmsg_msg_size(hdrlen)] the [int] is converted
    to [unsigned int]. *)
Definition nlmsg_parse (nlh : nlmsghdr) (hdrlen maxtype : Z) : Z :=
  if nlmsg_len nlh <? u32 (nlmsg_msg_size hdrlen) then nl_errno_EINVAL
  else nla_parse maxtype (nlmsg_attrdata hdrlen) (nlmsg_attrlen nlh hdrlen).

Definition nlmsg_validate (nlh : nlmsghdr) (hdrlen maxtype : Z) : Z :=
  if nlmsg_len nlh <? u32 (nlmsg_msg_size hdrlen) then nl_errno_EINVAL
  else nla_validate (nlmsg_attrdata hdrlen) (nlmsg_attrlen nlh hdrlen)
                    maxtype.

End Attributes.

End Payload.

(** ** lib/msg.c: message flags as text *)

Module Translations.

Import Msg Nl.

(** Modelled from the spec: the remaining [NLM_F_*] flags of
    linux/netlink.h, with the numbers they have there; the modifiers of
    GET requests and those of NEW requests share their bits. *)
Definition NLM_F_ECHO : Z := 8.
Definition NLM_F_ROOT : Z := 256.
Definition NLM_F_MATCH : Z := 512.
Definition NLM_F_ATOMIC : Z := 1024.
Definition NLM_F_REPLACE : Z := 256.
Definition NLM_F_EXCL : Z := 512.
Definition NLM_F_CREATE : Z := 1024.
Definition NLM_F_APPEND : Z := 2048.

(** A C string, without its terminator. *)
Definition cstring : Type := list ascii.

Definition strlen (s : cstring) : Z := Z.of_nat (length s).

(** [strncat(dest, src, n)]: at most [n] characters of [src] are
    appended. *)
Definition strncat (dest src : cstring) (n : Z) : cstring :=
  dest ++ take (Z.to_nat n) src.

Section Flags.

Variable dm : data_model.

(** [len - strlen(buf) - 1], in [size_t]. *)
Definition room (len : Z) (buf : cstring) : Z :=
  usize dm (len - strlen buf - 1).

(** The macro [PRINT_FLAG(f)], on the flags left to print and the
    buffer. The operands of [&] and [~] are [int]s, on which the two are
    those of two's complement. *)
Definition PRINT_FLAG (len f : Z) (name : string) (st : Z * cstring)
  : Z * cstring :=
  let '(flags, buf) := st in
  if negb (Z.land flags f =? 0) then
    let flags := Z.land flags (Z.lnot f) in
    let buf := strncat buf (list_ascii_of_string name) (room len buf) in
    let buf := if negb (flags =? 0)
               then strncat buf (list_ascii_of_string ",") (room len buf)
               else buf in
    (flags, buf)
  else st.

(** The flags in the order of the calls of [PRINT_FLAG]. *)
Definition flag_names : list (Z * string) :=
  [(NLM_F_REQUEST, "REQUEST"); (NLM_F_MULTI, "MULTI"); (NLM_F_ACK, "ACK");
   (NLM_F_ECHO, "ECHO"); (NLM_F_ROOT, "ROOT"); (NLM_F_MATCH, "MATCH");
   (NLM_F_ATOMIC, "ATOMIC"); (NLM_F_REPLACE, "REPLACE");
   (NLM_F_EXCL, "EXCL"); (NLM_F_CREATE, "CREATE");
   (NLM_F_APPEND, "APPEND")]%string.

Definition print_flags (len : Z) (table : list (Z * string))
    (st : Z * cstring) : Z * cstring :=
  fold_left (fun st e => PRINT_FLAG len (fst e) (snd e) st) table st.

(** The body of [nl_nlmsg_flags2str] for a given sequence of
    [PRINT_FLAG] calls. [old] is what the buffer holds on entry. With
    [len = 0] nothing is cleared and the first [strncat] is given a
    count that wrapped around: it writes behind the buffer. [snprintf]
    with the format 0x%x prints the flags left as an [unsigned int]. *)
Definition flags2str_with (table : list (Z * string)) (flags : Z)
    (old : cstring) (len : Z) : outcome cstring :=
  if len =? 0 then (if flags =? 0 then Ret old else NoReturn)
  else
    let '(flags, buf) := print_flags len table (flags, []) in
    Ret (if negb (flags =? 0)
         then strncat buf
                (list_ascii_of_string (HexString.of_Z (u32 flags)))
                (room len buf)
         else buf).

Definition nl_nlmsg_flags2str (flags : Z) (old : cstring) (len : Z)
  : outcome cstring :=
  flags2str_with flag_names flags old len.

End Flags.

End Translations.

(** ** src/utils.c and src/nl-route-add.c *)

Module Tools.

Import Translations.

(** Modelled from the spec: the dump types [NL_DUMP_BRIEF] to
    [NL_DUMP_ENV] of [enum nl_dump_type] in netlink/types.h, which is not
    among the sources. *)
Inductive nl_dump_type :=
  | NL_DUMP_BRIEF | NL_DUMP_FULL | NL_DUMP_STATS | NL_DUMP_XML | NL_DUMP_ENV.

(** [tolower] in the C locale. *)
Definition tolower (c : ascii) : ascii :=
  let n := nat_of_ascii c in
  if (65 <=? n)%nat && (n <=? 90)%nat then ascii_of_nat (n + 32) else c.

(** [strcasecmp]: the difference of the first two characters that differ
    after [tolower], the terminator counting as 0. *)
Fixpoint strcasecmp (a b : cstring) : Z :=
  match a, b with
  | [], [] => 0
  | [], d :: _ => 0 - Z.of_nat (nat_of_ascii (tolower d))
  | c :: _, [] => Z.of_nat (nat_of_ascii (tolower c))
  | c :: a', d :: b' =>
      if Ascii.eqb (tolower c) (tolower d) then strcasecmp a' b'
      else Z.of_nat (nat_of_ascii (tolower c))
           - Z.of_nat (nat_of_ascii (tolower d))
  end.

Definition is_word (str : cstring) (word : string) : bool :=
  strcasecmp str (list_ascii_of_string word) =? 0.

(** [nltool_parse_dumptype]: the dump type, or [None] for -1, and what
    was written to [stderr]. *)
Definition nltool_parse_dumptype (str : cstring)
  : option nl_dump_type * list cstring :=
  if is_word str "brief" then (Some NL_DUMP_BRIEF, [])
  else if is_word str "details" || is_word str "detailed"
  then (Some NL_DUMP_FULL, [])
  else if is_word str "stats" then (Some NL_DUMP_STATS, [])
  else if is_word str "xml" then (Some NL_DUMP_XML, [])
  else if is_word str "env" then (Some NL_DUMP_ENV, [])
  else
    (None,
     [list_ascii_of_string "Invalid dump type " ++ [ascii_of_nat 34]
      ++ str ++ [ascii_of_nat 34; "."%char; ascii_of_nat 10]]).

Section RouteAdd.

(** The route object and the two functions of the route library the
    loop over the positional arguments of nl-route-add calls, neither of
    which is among the sources: [rtnl_route_get_dst] tells whether the
    route has a destination, [parse_dst] sets it from the text or ends
    the program. *)
Variable route : Type.
Variable rtnl_route_get_dst : route -> bool.
Variable parse_dst : route -> cstring -> option route.

Inductive positional_result :=
  | Parsed (r : route) (optind : nat)
  | Exited
  | StillLooping.

(** The loop [while (optind < argc)] of [main]; every test of the
    condition uses one unit of [fuel]. *)
Fixpoint positional (fuel : nat) (argv : list cstring) (optind : nat)
    (r : route) : positional_result :=
  match fuel with
  | O => StillLooping
  | S fuel' =>
      if (optind <? length argv)%nat then
        if negb (rtnl_route_get_dst r) then
          match parse_dst r (nth optind argv []) with
          | Some r' => positional fuel' argv (S optind) r'
          | None => Exited
          end
        else positional fuel' argv optind r
      else Parsed r optind
  end.

End RouteAdd.

Arguments Parsed {route} r optind.
Arguments Exited {route}.
Arguments StillLooping {route}.

End Tools.

(** ** The properties of section 8 of the specification, as stated there *)

Module Stated.

Import Msg.

(** Property 1: the header length field is the size of the buffer, and
    that size is a multiple of 4. *)
Definition len_matches (m : nl_msg) : Prop :=
  nlmsg_len (nm_nlh m) = buffer_len m.

Definition aligned4 (m : nl_msg) : Prop := buffer_len m mod 4 = 0.

Definition msg_invariant (m : nl_msg) : Prop := len_matches m /\ aligned4 m.

(** Property 2, for a reservation of [n] octets with padding unit [p] that
    turned [m] into [m'] and returned the offset [off]: the region behind
    [off] has at least [n] octets, the octets of the aligned region beyond
    offset [n] are zero, and the header length grew by the aligned size. *)
Definition reserve_post (dm : data_model) (m : nl_msg) (n p : Z)
    (m' : nl_msg) (off : Z) : Prop :=
  n <= buffer_len m' - off
  /\ (forall i, n <= i < reserve_tlen dm n p ->
                byte_at m' (off + i) = Some x00)
  /\ nlmsg_len (nm_nlh m') = nlmsg_len (nm_nlh m) + reserve_tlen dm n p.

End Stated.

(** ** Sample data for the concrete instances below *)

Module Sample.

Import Msg Handlers Nl.

(** An allocator that grants every request and hands out memory filled
    with [0xff]. *)
Definition grant : Z -> bool := fun _ => true.
Definition dirty : nat -> byte := fun _ => xff.

(** The message [nlmsg_alloc] returns: a cleared header of length 16 and
    no payload. *)
Definition blank : nl_msg :=
  mk_nl_msg (-1) 0 zero_addr zero_addr zero_ucred
            (mk_nlmsghdr 16 0 0 0 0) [].

(** A world without user state, in which printing does nothing; a kernel
    error translator that maps [ENOENT] (2) to object-not-found (12) and
    everything else to the generic failure (1). *)
Definition no_fprintf : FILE unit -> string -> unit -> unit := fun _ _ u => u.
Definition no_header : FILE unit -> nlmsghdr -> unit -> unit := fun _ _ u => u.
Definition no_dump : nl_msg -> FILE unit -> unit -> unit := fun _ _ u => u.
Definition no_strerror : Z -> string := fun _ => EmptyString.
Definition errno_table : Z -> Z := fun e => if Z.abs e =? 2 then 12 else 1.

(** Hooks that do nothing but return a fixed code. *)
Definition hook (r : Z) : nl_recvmsg_msg_cb_t unit unit :=
  fun msg _ u => (r, msg, u).
Definition err_hook (r : Z) : nl_recvmsg_err_cb_t unit unit :=
  fun _ _ _ u => (r, u).

(** A callback set with every slot empty, as [nl_cb_alloc(NL_CB_DEFAULT)]
    leaves it, and the same with one hook bound. *)
Definition empty_cb : nl_cb unit unit := set_refcnt unit unit (zero_cb unit unit) 1.
Definition with_hook (cb : nl_cb unit unit) (type : nl_cb_type) (r : Z)
  : nl_cb unit unit :=
  set_slot unit unit cb type (Some (hook r)) None.
Definition with_err_hook (cb : nl_cb unit unit) (r : Z) : nl_cb unit unit :=
  set_err unit unit cb (Some (err_hook r)) None.

(** An endpoint bound to port 1234 whose two sequence counters stand at 7,
    with automatic ACKs on; its callback set lives at address 1. *)
Definition sock : nl_sock :=
  mk_nl_sock (mk_sockaddr_nl 16 0 1234 0) zero_addr 3 0 7 7 0 1%positive 0.

(** Frames: a data frame of type 16 without payload, and an ERROR frame
    carrying an error record with the given code. *)
Definition data_frame (seq flags : Z) : raw_frame :=
  mk_raw_frame (mk_nlmsghdr 16 16 flags seq 0) [] (mk_nlmsgerr 0 zero_hdr).
Definition error_frame (seq code : Z) : raw_frame :=
  mk_raw_frame (mk_nlmsghdr 36 2 0 seq 0) (replicate 20 x00)
               (mk_nlmsgerr code (mk_nlmsghdr 16 16 5 seq 1234)).
Definition no_frame : raw_frame :=
  mk_raw_frame zero_hdr [] (mk_nlmsgerr 0 zero_hdr).

(** A receive buffer holding the given frames at the given offsets. *)
Fixpoint frame_at (fs : list (Z * raw_frame)) (off : Z) : raw_frame :=
  match fs with
  | [] => no_frame
  | (o, f) :: rest => if off =? o then f else frame_at rest off
  end.

Definition datagram_of (fs : list (Z * raw_frame)) : datagram :=
  mk_datagram zero_addr (frame_at fs) None.

(** A transport that delivers one datagram of [n] octets, and one that
    accepts every datagram and reports 16 octets written. *)
Definition recv_of (n : Z) (dg : datagram) : nl_sock -> unit -> Z * datagram * unit :=
  fun _ u => (n, dg, u).
Definition sendmsg_16 : Z -> msghdr -> nl_msg -> unit -> Z * Z * unit :=
  fun _ _ _ u => (16, 0, u).

Definition w0 : world unit := mk_world unit tt [].

(** A whole call of [recvmsgs] on [sock] with the datagram [dg] of [n]
    octets pending. *)
Definition run (cb : nl_cb unit unit) (n : Z) (dg : datagram) : result unit :=
  recvmsgs unit unit LP64 grant errno_table (recv_of n dg) 8 sock cb w0.

(** The state of the loop when it takes up the first frame of a datagram
    of [n] octets. *)
Definition at_first_frame (n : Z) : rstate unit :=
  with_cursor unit (init_rstate unit sock w0) 0 n.

(** The message [nlmsg_convert] makes of a frame without padding, stamped
    with the protocol of [sock] and the source address of the datagram. *)
Definition converted (f : raw_frame) : nl_msg :=
  mk_nl_msg 0 0 zero_addr zero_addr zero_ucred (rf_hdr f)
            (take (Z.to_nat (nlmsg_len (rf_hdr f) - 16)) (rf_data f)).

End Sample.

(** ** Further sample data *)

Module Cases.

Import Msg Handlers Nl Sample Reader Connection.

(** Control frames without payload: the end of a multipart batch and an
    overrun notice. *)
Definition done_frame (seq flags : Z) : raw_frame :=
  mk_raw_frame (mk_nlmsghdr 16 NLMSG_DONE flags seq 0) []
               (mk_nlmsgerr 0 zero_hdr).
Definition overrun_frame (seq : Z) : raw_frame :=
  mk_raw_frame (mk_nlmsghdr 16 NLMSG_OVERRUN 0 seq 0) []
               (mk_nlmsgerr 0 zero_hdr).

(** The state of the loop when a control frame without payload, first of
    its datagram, reaches the dispatch on [sock]: it was converted and
    counted, and the expected sequence number moved on. *)
Definition at_dispatch (n : Z) (f : raw_frame) : rstate unit :=
  with_sk unit
    (with_nrecv unit (with_msg unit (at_first_frame n) (Some (converted f))) 1)
    (set_seq_expect sock 8).

(** An ERROR frame that itself carries the flag [NLM_F_DUMP_INTR]. *)
Definition interrupted_error_frame (seq code : Z) : raw_frame :=
  mk_raw_frame (mk_nlmsghdr 36 NLMSG_ERROR NLM_F_DUMP_INTR seq 0)
               (replicate 20 x00)
               (mk_nlmsgerr code (mk_nlmsghdr 16 16 5 seq 1234)).

(** A data frame whose payload of 3 octets leaves one octet of padding. *)
Definition short_frame : raw_frame :=
  mk_raw_frame (mk_nlmsghdr 19 16 0 7 0) [x01; x02; x03]
               (mk_nlmsgerr 0 zero_hdr).

(** A store holding the callback set of [sock] only. *)
Definition store : gmap positive (nl_cb unit unit) :=
  {[1%positive := empty_cb]}.

(** A [recvmsg] that delivers one data frame of 16 octets, whatever it is
    asked. *)
Definition recvmsg_16 : recv_call -> unit -> recv_reply * unit :=
  fun _ u =>
    (mk_recv_reply 16 0 0 12 0 zero_addr (frame_at [(0, data_frame 7 0)]) [],
     u).

(** An endpoint that was never connected, and a host on which every
    system call goes well: [socket] gives the descriptor 3, the two
    buffer sizes are set with one call each, and [getsockname] stores a
    netlink address with the port 1234. [bind_in_use] is a [bind] that
    fails with [EADDRINUSE] (98). *)
Definition unconnected : nl_sock :=
  mk_nl_sock (mk_sockaddr_nl 16 0 0 0) zero_addr (-1) 0 7 7 0 1%positive 0.
Definition socket_3 : Z -> unit -> Z * Z * unit := fun _ u => (3, 0, u).
Definition bind_ok : Z -> sockaddr_nl -> unit -> Z * Z * unit :=
  fun _ _ u => (0, 0, u).
Definition bind_in_use : Z -> sockaddr_nl -> unit -> Z * Z * unit :=
  fun _ _ u => (-1, 98, u).
Definition getsockname_1234 : Z -> unit -> Z * Z * sockaddr_nl * Z * unit :=
  fun _ u => (0, 0, mk_sockaddr_nl 16 0 1234 0, 12, u).
Definition close_ok : Z -> unit -> unit := fun _ u => u.
Definition set_buffer_size_ok
  : nl_sock -> Z -> Z -> unit -> Z * Z * list syscall * unit :=
  fun sk _ _ u =>
    (0, Z.lor (s_flags sk) NL_SOCK_BUFSIZE_SET,
     [SysSetsockopt (s_fd sk) 7 32768; SysSetsockopt (s_fd sk) 8 32768], u).

(** [nl_connect] of [unconnected] on that host, with the given [bind]. *)
Definition connect (bind : Z -> sockaddr_nl -> unit -> Z * Z * unit)
  : Z * nl_sock * host unit :=
  nl_connect unit errno_table socket_3 bind getsockname_1234 close_ok
    set_buffer_size_ok unconnected 0 (mk_host unit tt []).

End Cases.

(** * Properties *)

Import Msg Handlers Nl Stated Sample.

(** ** Integer conversions and alignment *)

Section Arithmetic.

Lemma size_bits_ge dm : 32 <= size_bits dm.
Proof. destruct dm; simpl; lia. Qed.

Lemma pow2_size_ge dm : 2 ^ 32 <= 2 ^ size_bits dm.
Proof. apply Z.pow_le_mono_r; [lia | apply size_bits_ge]. Qed.

Lemma u32_id z : is_u32 z -> u32 z = z.
Proof. intros H. apply Z.mod_small. exact H. Qed.

Lemma s32_id z : is_int z -> s32 z = z.
Proof.
  unfold is_int, INT_MIN, INT_MAX, s32. intros H.
  rewrite Z.mod_small; lia.
Qed.

Lemma usize_id dm z : is_size dm z -> usize dm z = z.
Proof. intros H. apply Z.mod_small. exact H. Qed.

Lemma u32_range z : is_u32 (u32 z).
Proof. apply Z.mod_pos_bound. lia. Qed.

Lemma usize_range dm z : is_size dm (usize dm z).
Proof.
  apply Z.mod_pos_bound. pose proof (pow2_size_ge dm). lia.
Qed.

Lemma u32_is_size dm z : is_u32 z -> is_size dm z.
Proof.
  unfold is_u32, is_size. pose proof (pow2_size_ge dm). lia.
Qed.

(** Masking with a truncated mask is masking with the mask, for a value
    that fits. *)
Lemma land_mod_pow2 x y n :
  0 <= n -> 0 <= x < 2 ^ n -> Z.land x (y mod 2 ^ n) = Z.land x y.
Proof.
  intros Hn Hx.
  rewrite <- (Z.land_ones y n) by exact Hn.
  rewrite (Z.land_comm y), Z.land_assoc, Z.land_ones by exact Hn.
  rewrite Z.mod_small by exact Hx. reflexivity.
Qed.

(** Clearing the bits of [m] removes at most [m]. *)
Lemma land_lnot_bounds x m :
  0 <= x -> 0 <= m -> x - m <= Z.land x (Z.lnot m) <= x.
Proof.
  intros Hx Hm.
  rewrite <- Z.sub_land_same_l.
  assert (0 <= Z.land x m) by (apply Z.land_nonneg; lia).
  assert (0 <= Z.land m (Z.lnot x)) by (apply Z.land_nonneg; lia).
  rewrite <- Z.sub_land_same_l in *.
  rewrite (Z.land_comm m x) in *. lia.
Qed.

(** Clearing the low [k] bits rounds down to a multiple of [2 ^ k]. *)
Lemma land_lnot_ones x k :
  0 <= k -> Z.land x (Z.lnot (2 ^ k - 1)) = 2 ^ k * (x / 2 ^ k).
Proof.
  intros Hk.
  rewrite <- Z.ldiff_land.
  replace (2 ^ k - 1) with (Z.ones k) by (rewrite Z.ones_equiv; lia).
  rewrite Z.ldiff_ones_r by exact Hk.
  rewrite Z.shiftl_mul_pow2, Z.shiftr_div_pow2 by exact Hk. lia.
Qed.

Lemma NLMSG_ALIGN_eq len : NLMSG_ALIGN len = 4 * (u32 (len + 3) / 4).
Proof.
  unfold NLMSG_ALIGN, NLMSG_ALIGNTO.
  pose proof (u32_range (len + 3)) as Hr. unfold is_u32 in Hr.
  replace (4 - 1) with 3 by lia.
  unfold u32 at 3. rewrite land_mod_pow2 by (fold (u32 (len + 3)); lia).
  change 3 with (2 ^ 2 - 1) at 2.
  rewrite land_lnot_ones by lia.
  apply u32_id. unfold is_u32.
  change (2 ^ 2) with 4. change (2 ^ 32) with 4294967296 in *.
  Z.div_mod_to_equations. lia.
Qed.

Lemma NLMSG_ALIGN_mod4 len : NLMSG_ALIGN len mod 4 = 0.
Proof.
  rewrite NLMSG_ALIGN_eq, Z.mul_comm. apply Z.mod_mul. lia.
Qed.

Lemma NLMSG_ALIGN_ge len :
  0 <= len -> len + 3 < 2 ^ 32 -> len <= NLMSG_ALIGN len <= len + 3.
Proof.
  intros H0 H1. rewrite NLMSG_ALIGN_eq.
  rewrite u32_id by (unfold is_u32; lia).
  Z.div_mod_to_equations. lia.
Qed.

Lemma NLMSG_HDRLEN_16 : NLMSG_HDRLEN = 16.
Proof. reflexivity. Qed.

(** The aligned size of [nlmsg_reserve] for a padding unit that is not
    negative, when [len + (pad - 1)] does not wrap around [size_t]. *)
Lemma reserve_tlen_bounds dm len pad :
  is_size dm len -> 0 <= pad <= INT_MAX ->
  len + pad <= 2 ^ size_bits dm ->
  len <= reserve_tlen dm len pad <= len + pad /\
  is_size dm (reserve_tlen dm len pad).
Proof.
  intros Hlen Hpad Hfit. unfold reserve_tlen. unfold is_size in Hlen.
  destruct (Z.eqb_spec pad 0) as [-> | Hne].
  { unfold is_size. lia. }
  pose proof (pow2_size_ge dm) as Hsz.
  pose proof (size_bits_ge dm) as Hbits.
  pose proof (land_lnot_bounds (len + (pad - 1)) (pad - 1)) as Hb.
  assert (Ht : usize dm (Z.land (usize dm (len + usize dm (s32 (pad - 1))))
                                (usize dm (Z.lnot (s32 (pad - 1)))))
               = Z.land (len + (pad - 1)) (Z.lnot (pad - 1))).
  { rewrite (s32_id (pad - 1))
      by (unfold is_int, INT_MIN, INT_MAX in *; lia).
    rewrite (usize_id dm (pad - 1)) by (unfold is_size, INT_MAX in *; lia).
    rewrite (usize_id dm (len + (pad - 1))) by (unfold is_size; lia).
    unfold usize at 2. rewrite land_mod_pow2 by lia.
    apply usize_id. unfold is_size. lia. }
  rewrite Ht. unfold is_size. lia.
Qed.

(** For a padding unit that is a power of two the aligned size is [len]
    rounded up to a multiple of it. *)
Lemma reserve_tlen_pow2 dm len k :
  0 <= len -> 0 <= k < 31 ->
  len + 2 ^ k <= 2 ^ size_bits dm ->
  reserve_tlen dm len (2 ^ k) = 2 ^ k * ((len + (2 ^ k - 1)) / 2 ^ k).
Proof.
  intros Hlen Hk Hfit. unfold reserve_tlen.
  assert (Hp : 0 < 2 ^ k) by (apply Z.pow_pos_nonneg; lia).
  assert (Hp31 : 2 ^ k < 2 ^ 31) by (apply Z.pow_lt_mono_r; lia).
  destruct (Z.eqb_spec (2 ^ k) 0) as [E | _]; [lia |].
  pose proof (pow2_size_ge dm) as Hsz.
  rewrite (s32_id (2 ^ k - 1))
    by (unfold is_int, INT_MIN, INT_MAX; lia).
  rewrite (usize_id dm (2 ^ k - 1)) by (unfold is_size; lia).
  rewrite (usize_id dm (len + (2 ^ k - 1))) by (unfold is_size; lia).
  unfold usize at 2.
  rewrite land_mod_pow2 by (pose proof (size_bits_ge dm); lia).
  rewrite land_lnot_ones by lia.
  apply usize_id. unfold is_size.
  pose proof (Z.mul_div_le (len + (2 ^ k - 1)) (2 ^ k)).
  assert (0 <= (len + (2 ^ k - 1)) / 2 ^ k) by (apply Z.div_pos; lia).
  nia.
Qed.

End Arithmetic.

(** ** Framing (lib/msg.c) *)

Section Framing.

Variable dm : data_model.

(** On a count of remaining octets that is not negative the predicate of
    the code is the predicate of the specification. *)
Lemma nlmsg_ok_nonneg nlh remaining :
  is_u32 (nlmsg_len nlh) -> 0 <= remaining <= INT_MAX ->
  nlmsg_ok dm nlh remaining = nlmsg_ok_spec nlh remaining.
Proof.
  unfold is_u32, INT_MAX, nlmsg_ok, nlmsg_ok_spec, sizeof_nlmsghdr.
  intros Hl Hr. pose proof (pow2_size_ge dm).
  rewrite !usize_id by (unfold is_size; lia).
  rewrite u32_id by (unfold is_u32; lia). reflexivity.
Qed.

(** On a negative count the two conversions to unsigned make every
    comparison with [remaining] a comparison with a huge number. *)
Lemma nlmsg_ok_negative nlh remaining :
  is_u32 (nlmsg_len nlh) -> INT_MIN <= remaining < 0 ->
  nlmsg_ok dm nlh remaining
  = (16 <=? nlmsg_len nlh) && (nlmsg_len nlh <=? 2 ^ 32 + remaining).
Proof.
  unfold is_u32, INT_MIN, nlmsg_ok, sizeof_nlmsghdr.
  intros Hl Hr. pose proof (pow2_size_ge dm) as Hsz.
  rewrite (usize_id dm (nlmsg_len nlh)) by (unfold is_size; lia).
  assert (Hu : usize dm remaining = 2 ^ size_bits dm + remaining).
  { unfold usize. symmetry.
    apply (Z.mod_unique_pos _ _ (-1)); lia. }
  assert (Hv : u32 remaining = 2 ^ 32 + remaining).
  { unfold u32. symmetry. apply (Z.mod_unique_pos _ _ (-1)); lia. }
  rewrite Hu, Hv.
  destruct (Z.leb_spec 16 (2 ^ size_bits dm + remaining)); [| lia].
  reflexivity.
Qed.

(** How the frame loop gets there: a last frame whose length is not a
    multiple of 4 drives [remaining] below zero. *)
Lemma nlmsg_next_overshoots :
  nlmsg_next 0 (mk_nlmsghdr 17 0 0 0 0) 17 = (20, -3).
Proof. reflexivity. Qed.

End Framing.

(** C3 (the code departs from the claim): with a negative [remaining] the
    predicate of the code accepts a header that the specification rejects.
    With a header of length 16 and [remaining = -1], [nlmsg_ok] is true and
    the stated predicate is false, in both data models. *)
Theorem nlmsg_ok_accepts_negative_remaining :
  forall dm,
    nlmsg_ok dm (mk_nlmsghdr 16 0 0 0 0) (-1) = true
    /\ nlmsg_ok_spec (mk_nlmsghdr 16 0 0 0 0) (-1) = false.
Proof. intros []; split; reflexivity. Qed.

(** ** Reservation and the length invariant (lib/msg.c) *)

Section Buffers.

Variable dm : data_model.
Variable mem : Z -> bool.
Variable junk : nat -> byte.

Lemma length_realloc_data size d : length (realloc_data junk size d) = size.
Proof.
  unfold realloc_data.
  rewrite length_app, length_take, length_map, length_seq. lia.
Qed.

Lemma length_memset0 d start count :
  (start + count <= length d)%nat ->
  length (memset0 d start count) = length d.
Proof.
  intros H. unfold memset0.
  rewrite !length_app, length_take, length_replicate, length_drop. lia.
Qed.

Lemma lookup_memset0 d start count j :
  (start + count <= length d)%nat -> (start <= j < start + count)%nat ->
  memset0 d start count !! j = Some x00.
Proof.
  intros Hd Hj. unfold memset0.
  rewrite lookup_app_r by (rewrite length_take; lia).
  rewrite length_take.
  rewrite lookup_app_l by (rewrite length_replicate; lia).
  apply lookup_replicate_2. lia.
Qed.

Lemma length_memcpy_at d start src :
  (start + length src <= length d)%nat ->
  length (memcpy_at d start src) = length d.
Proof.
  intros H. unfold memcpy_at.
  rewrite !length_app, length_take, length_drop. lia.
Qed.

(** What a successful reservation returns, spelled out. *)
Lemma nlmsg_reserve_inv m n p m' off :
  nlmsg_reserve dm mem junk m n p = Ret (m', Some off) ->
  let tlen := reserve_tlen dm n p in
  let old := nlmsg_len (nm_nlh m) in
  let size := usize dm (old + tlen) in
  16 <= old /\ old <= size /\ off = old
  /\ nm_nlh m' = set_nlmsg_len (nm_nlh m) (u32 (old + tlen))
  /\ nm_data m' =
       (if n <? tlen
        then memset0 (realloc_data junk (Z.to_nat (size - 16)) (nm_data m))
                     (Z.to_nat (old + n - 16)) (Z.to_nat (tlen - n))
        else realloc_data junk (Z.to_nat (size - 16)) (nm_data m))
  /\ nm_protocol m' = nm_protocol m /\ nm_flags m' = nm_flags m
  /\ nm_src m' = nm_src m /\ nm_dst m' = nm_dst m
  /\ nm_creds m' = nm_creds m.
Proof.
  unfold nlmsg_reserve, sizeof_nlmsghdr. cbv zeta.
  destruct (mem _); simpl; [| discriminate].
  destruct (Z.ltb_spec (nlmsg_len (nm_nlh m)) 16); simpl; [discriminate |].
  destruct (Z.ltb_spec (usize dm (nlmsg_len (nm_nlh m) + reserve_tlen dm n p))
                       (nlmsg_len (nm_nlh m))); [discriminate |].
  intros [= <- <-]. simpl. repeat split; assumption || reflexivity.
Qed.

Lemma reserve_tlen_is_size n p : is_size dm n -> is_size dm (reserve_tlen dm n p).
Proof.
  intros Hn. unfold reserve_tlen.
  destruct (p =? 0); [exact Hn | apply usize_range].
Qed.

(** A reservation that succeeds did not wrap around [size_t]: the block
    has the old length plus the aligned size. *)
Lemma nlmsg_reserve_size m n p m' off :
  is_size dm n -> is_u32 (nlmsg_len (nm_nlh m)) ->
  nlmsg_reserve dm mem junk m n p = Ret (m', Some off) ->
  usize dm (nlmsg_len (nm_nlh m) + reserve_tlen dm n p)
  = nlmsg_len (nm_nlh m) + reserve_tlen dm n p.
Proof.
  intros Hn Hold H. apply nlmsg_reserve_inv in H. cbv zeta in H.
  destruct H as (H16 & Hsize & _).
  pose proof (reserve_tlen_is_size n p Hn) as Ht.
  pose proof (pow2_size_ge dm) as Hsz.
  unfold is_size, is_u32 in *.
  set (old := nlmsg_len (nm_nlh m)) in *.
  set (tlen := reserve_tlen dm n p) in *.
  destruct (Z.lt_ge_cases (old + tlen) (2 ^ size_bits dm)) as [Hlt | Hge].
  - apply usize_id. unfold is_size. lia.
  - exfalso.
    assert (usize dm (old + tlen) = old + tlen - 2 ^ size_bits dm).
    { unfold usize. symmetry. apply (Z.mod_unique_pos _ _ 1); lia. }
    lia.
Qed.

Lemma nlmsg_reserve_buffer_len m n p m' off :
  is_size dm n -> is_u32 (nlmsg_len (nm_nlh m)) ->
  nlmsg_reserve dm mem junk m n p = Ret (m', Some off) ->
  buffer_len m' = nlmsg_len (nm_nlh m) + reserve_tlen dm n p.
Proof.
  intros Hn Hold H.
  pose proof (reserve_tlen_is_size n p Hn) as Htl. unfold is_size in Htl.
  pose proof (nlmsg_reserve_size _ _ _ _ _ Hn Hold H) as Hsz.
  apply nlmsg_reserve_inv in H. cbv zeta in H.
  destruct H as (H16 & _ & _ & _ & Hd & _).
  rewrite Hsz in Hd. unfold buffer_len. rewrite Hd. unfold is_size in Hn.
  destruct (Z.ltb_spec n (reserve_tlen dm n p)).
  - rewrite length_memset0; rewrite length_realloc_data; lia.
  - rewrite length_realloc_data. lia.
Qed.

Lemma nlmsg_reserve_padding m n p m' off i :
  is_size dm n -> is_u32 (nlmsg_len (nm_nlh m)) ->
  nlmsg_reserve dm mem junk m n p = Ret (m', Some off) ->
  n <= i < reserve_tlen dm n p ->
  byte_at m' (off + i) = Some x00.
Proof.
  intros Hn Hold H Hi.
  pose proof (nlmsg_reserve_size _ _ _ _ _ Hn Hold H) as Hsz.
  apply nlmsg_reserve_inv in H. cbv zeta in H.
  destruct H as (H16 & _ & -> & _ & Hd & _).
  rewrite Hsz in Hd. unfold byte_at. unfold is_size in Hn.
  destruct (Z.ltb_spec (nlmsg_len (nm_nlh m) + i) 16); [lia |].
  rewrite Hd.
  destruct (Z.ltb_spec n (reserve_tlen dm n p)); [| lia].
  apply lookup_memset0; [rewrite length_realloc_data |]; lia.
Qed.

End Buffers.

(** C5 (amended): for a successful reservation of [n] octets with a padding
    unit [p] that is not negative, such that [n + p] stays within [size_t]
    and the header length plus the aligned size fits in 32 bits, the region
    behind the returned offset has exactly the aligned size, which is at
    least [n]; the octets of the region beyond offset [n] are zero; and the
    header length grew by the aligned size. The region starts at the old
    header length. *)
Theorem nlmsg_reserve_region :
  forall dm mem junk m n p m' off,
    is_size dm n -> is_u32 (nlmsg_len (nm_nlh m)) ->
    0 <= p <= INT_MAX ->
    n + p <= 2 ^ size_bits dm ->
    nlmsg_len (nm_nlh m) + reserve_tlen dm n p < 2 ^ 32 ->
    nlmsg_reserve dm mem junk m n p = Ret (m', Some off) ->
    reserve_post dm m n p m' off
    /\ off = nlmsg_len (nm_nlh m)
    /\ buffer_len m' - off = reserve_tlen dm n p.
Proof.
  intros dm mem junk m n p m' off Hn Hold Hp Hfit H32 H.
  destruct (reserve_tlen_bounds dm n p Hn Hp Hfit) as [Hb _].
  pose proof (nlmsg_reserve_buffer_len dm mem junk _ _ _ _ _ Hn Hold H)
    as Hlen.
  pose proof (nlmsg_reserve_inv dm mem junk _ _ _ _ _ H) as Hinv.
  cbv zeta in Hinv. destruct Hinv as (H16 & _ & Hoff & Hh & _).
  unfold reserve_post. repeat split.
  - lia.
  - intros i Hi.
    exact (nlmsg_reserve_padding dm mem junk _ _ _ _ _ i Hn Hold H Hi).
  - rewrite Hh. simpl. apply u32_id. unfold is_u32, is_size in *. lia.
  - exact Hoff.
  - lia.
Qed.

Lemma nlmsg_reserve_region_witness :
  reserve_post LP64 blank 5 4
    (mk_nl_msg (-1) 0 zero_addr zero_addr zero_ucred
       (mk_nlmsghdr 24 0 0 0 0) [xff; xff; xff; xff; xff; x00; x00; x00]) 16
  /\ 16 = nlmsg_len (nm_nlh blank)
  /\ buffer_len
       (mk_nl_msg (-1) 0 zero_addr zero_addr zero_ucred
          (mk_nlmsghdr 24 0 0 0 0) [xff; xff; xff; xff; xff; x00; x00; x00])
     - 16 = reserve_tlen LP64 5 4.
Proof.
  apply (nlmsg_reserve_region LP64 grant dirty blank 5 4).
  - unfold is_size; simpl; lia.
  - unfold is_u32; simpl; lia.
  - unfold INT_MAX; lia.
  - simpl; lia.
  - vm_compute; reflexivity.
  - vm_compute; reflexivity.
Defined.

(** A reservation that the allocator grants, for a message whose length
    field covers the header and a request that does not wrap around. *)
Lemma nlmsg_reserve_granted dm mem junk m n p :
  let tlen := reserve_tlen dm n p in
  let old := nlmsg_len (nm_nlh m) in
  let size := usize dm (old + tlen) in
  mem size = true -> 16 <= old -> old <= size ->
  exists d,
    nlmsg_reserve dm mem junk m n p
    = Ret (set_nlh m (set_nlmsg_len (nm_nlh m) (u32 (old + tlen))) d, Some old).
Proof.
  cbv zeta. intros Hmem H16 Hsize.
  unfold nlmsg_reserve, sizeof_nlmsghdr. rewrite Hmem. simpl.
  destruct (Z.ltb_spec (nlmsg_len (nm_nlh m)) 16); [lia |]. simpl.
  destruct (Z.ltb_spec (usize dm (nlmsg_len (nm_nlh m) + reserve_tlen dm n p))
                       (nlmsg_len (nm_nlh m))); [lia |].
  eexists. reflexivity.
Qed.

(** C5 (as stated, refuted): three successful reservations on a freshly
    allocated message for which the stated property fails. With [p = -1]
    and [n = 5] the region has 1 octet; with [n = 2^32 - 1] and [p = 4] on
    a 32-bit [size_t] the aligned size wraps to 0 and the region is empty;
    with [n = 2^32] and [p = 0] on a 64-bit [size_t] the 32-bit header
    length wraps and does not grow at all. *)
Lemma nlmsg_reserve_region_fails :
  (exists m' off,
     nlmsg_reserve LP64 grant dirty blank 5 (-1) = Ret (m', Some off)
     /\ ~ reserve_post LP64 blank 5 (-1) m' off)
  /\ (exists m' off,
        nlmsg_reserve ILP32 grant dirty blank (2 ^ 32 - 1) 4 = Ret (m', Some off)
        /\ ~ reserve_post ILP32 blank (2 ^ 32 - 1) 4 m' off)
  /\ (exists m' off,
        nlmsg_reserve LP64 grant dirty blank (2 ^ 32) 0 = Ret (m', Some off)
        /\ nlmsg_len (nm_nlh m') = 16
        /\ ~ reserve_post LP64 blank (2 ^ 32) 0 m' off).
Proof.
  split; [| split].
  - eexists _, _. split; [vm_compute; reflexivity |].
    intros (Hsize & _). vm_compute in Hsize. apply Hsize. reflexivity.
  - eexists _, _. split; [vm_compute; reflexivity |].
    intros (Hsize & _). vm_compute in Hsize. apply Hsize. reflexivity.
  - assert (Hd : exists d,
              nlmsg_reserve LP64 grant dirty blank (2 ^ 32) 0
              = Ret (set_nlh blank (mk_nlmsghdr 16 0 0 0 0) d, Some 16)).
    { apply (nlmsg_reserve_granted LP64 grant dirty blank (2 ^ 32) 0).
      - reflexivity.
      - vm_compute; discriminate.
      - vm_compute; discriminate. }
    destruct Hd as [d Hd].
    eexists _, _. split; [exact Hd |]. split; [reflexivity |].
    intros (_ & _ & Hlen). vm_compute in Hlen. discriminate Hlen.
Qed.

Section LengthInvariant.

Variable dm : data_model.
Variable mem : Z -> bool.
Variable junk : nat -> byte.

Lemma __nlmsg_alloc_inv len m :
  __nlmsg_alloc mem len = Ret (Some m) ->
  16 <= len
  /\ m = mk_nl_msg (-1) 0 zero_addr zero_addr zero_ucred
           (set_nlmsg_len zero_hdr (u32 len))
           (replicate (Z.to_nat (len - 16)) x00).
Proof.
  unfold __nlmsg_alloc, sizeof_nlmsghdr.
  destruct (mem len); simpl; [| discriminate].
  destruct (Z.ltb_spec len 16); [discriminate |].
  intros [= <-]. split; [assumption | reflexivity].
Qed.

(** Allocation succeeds whenever the allocator grants 16 octets, and gives
    the blank message. *)
Lemma nlmsg_alloc_granted :
  mem 16 = true -> nlmsg_alloc dm mem = Ret (Some blank).
Proof.
  intros Hm. unfold nlmsg_alloc.
  assert (E : usize dm (nlmsg_total_size 0) = 16) by (destruct dm; reflexivity).
  rewrite E. unfold __nlmsg_alloc. rewrite Hm. reflexivity.
Qed.

Lemma nlmsg_alloc_invariant m :
  nlmsg_alloc dm mem = Ret (Some m) -> msg_invariant m /\ buffer_len m = 16.
Proof.
  unfold nlmsg_alloc. intros H. apply __nlmsg_alloc_inv in H.
  destruct H as [_ ->].
  assert (E : usize dm (nlmsg_total_size 0) = 16) by (destruct dm; reflexivity).
  rewrite E. repeat split.
Qed.

Lemma nlmsg_inherit_invariant hdr m :
  nlmsg_inherit dm mem hdr = Ret (Some m) ->
  msg_invariant m /\ buffer_len m = 16.
Proof.
  unfold nlmsg_inherit.
  destruct (nlmsg_alloc dm mem) as [[nm |] |] eqn:E; try discriminate.
  apply nlmsg_alloc_invariant in E.
  destruct hdr as [h |]; intros [= <-]; exact E.
Qed.

Lemma nlmsg_alloc_simple_invariant type flags m :
  nlmsg_alloc_simple dm mem type flags = Ret (Some m) ->
  msg_invariant m /\ buffer_len m = 16.
Proof. apply nlmsg_inherit_invariant. Qed.

(** Conversion of a received frame: the block is aligned, the header is
    the header of the frame. *)
Lemma nlmsg_convert_lengths f m :
  nlmsg_convert dm mem f = Ret (Some m) ->
  buffer_len m = NLMSG_ALIGN (nlmsg_len (rf_hdr f))
  /\ aligned4 m
  /\ nm_nlh m = rf_hdr f
  /\ nlmsg_len (rf_hdr f) <= NLMSG_ALIGN (nlmsg_len (rf_hdr f)).
Proof.
  unfold nlmsg_convert. cbv zeta.
  set (len := nlmsg_len (rf_hdr f)).
  assert (Hu : usize dm (NLMSG_ALIGN len) = NLMSG_ALIGN len).
  { apply usize_id, u32_is_size. unfold NLMSG_ALIGN. apply u32_range. }
  rewrite Hu.
  destruct (__nlmsg_alloc mem (NLMSG_ALIGN len)) as [[nm |] |] eqn:E;
    try discriminate.
  apply __nlmsg_alloc_inv in E. destruct E as [H16 ->].
  destruct (Z.ltb_spec (NLMSG_ALIGN len) len); simpl; [discriminate |].
  destruct (Z.ltb_spec (Z.of_nat (length (rf_data f))) (len - 16));
    [discriminate |].
  intros [= <-].
  assert (Hb : buffer_len
             (set_nlh
                (mk_nl_msg (-1) 0 zero_addr zero_addr zero_ucred
                   (set_nlmsg_len zero_hdr (u32 (NLMSG_ALIGN len)))
                   (replicate (Z.to_nat (NLMSG_ALIGN len - 16)) x00))
                (rf_hdr f)
                (take (Z.to_nat (len - 16)) (rf_data f)
                 ++ drop (Z.to_nat (len - 16))
                      (replicate (Z.to_nat (NLMSG_ALIGN len - 16)) x00)))
           = NLMSG_ALIGN len).
  { unfold buffer_len. simpl.
    rewrite length_app, length_take, length_drop, length_replicate. lia. }
  repeat split.
  - exact Hb.
  - unfold aligned4. rewrite Hb. apply NLMSG_ALIGN_mod4.
  - assumption.
Qed.

(** The header length of a converted frame is the size of the block
    exactly when the frame length is a multiple of 4. *)
Lemma nlmsg_convert_len_matches f m :
  is_u32 (nlmsg_len (rf_hdr f)) ->
  nlmsg_convert dm mem f = Ret (Some m) ->
  (len_matches m <-> nlmsg_len (rf_hdr f) mod 4 = 0).
Proof.
  intros Hu H. apply nlmsg_convert_lengths in H.
  destruct H as (Hb & Ha & Hh & Hle).
  unfold len_matches. rewrite Hb, Hh.
  pose proof (NLMSG_ALIGN_mod4 (nlmsg_len (rf_hdr f))) as Hm.
  split; intros E.
  - rewrite E. exact Hm.
  - rewrite NLMSG_ALIGN_eq in *. unfold is_u32, u32 in *.
    change (2 ^ 32) with 4294967296 in *.
    Z.div_mod_to_equations. lia.
Qed.

(** Reservation: the header length is the size of the block afterwards,
    whatever it was before. *)
Lemma nlmsg_reserve_len_matches m n p m' off :
  is_size dm n -> is_u32 (nlmsg_len (nm_nlh m)) ->
  nlmsg_len (nm_nlh m) + reserve_tlen dm n p < 2 ^ 32 ->
  nlmsg_reserve dm mem junk m n p = Ret (m', Some off) ->
  len_matches m'
  /\ buffer_len m' = nlmsg_len (nm_nlh m) + reserve_tlen dm n p.
Proof.
  intros Hn Hold H32 H.
  pose proof (nlmsg_reserve_buffer_len dm mem junk _ _ _ _ _ Hn Hold H) as Hb.
  pose proof (reserve_tlen_is_size dm n p Hn) as Ht.
  apply nlmsg_reserve_inv in H. cbv zeta in H.
  destruct H as (H16 & _ & _ & Hh & _).
  split; [| exact Hb].
  unfold len_matches. rewrite Hb, Hh. simpl.
  apply u32_id. unfold is_u32, is_size in *. lia.
Qed.

Lemma nlmsg_reserve_null m n p m' :
  nlmsg_reserve dm mem junk m n p = Ret (m', None) -> m' = m.
Proof.
  unfold nlmsg_reserve. cbv zeta.
  destruct (mem _); simpl; [| intros [= <-]; reflexivity].
  destruct (_ || _); discriminate.
Qed.

Lemma nlmsg_reserve_invariant m n p m' r :
  is_size dm n -> msg_invariant m ->
  nlmsg_len (nm_nlh m) + reserve_tlen dm n p < 2 ^ 32 ->
  reserve_tlen dm n p mod 4 = 0 ->
  nlmsg_reserve dm mem junk m n p = Ret (m', r) ->
  msg_invariant m'.
Proof.
  intros Hn [Hm Ha] H32 H4 H.
  destruct r as [off |].
  - assert (Hold : is_u32 (nlmsg_len (nm_nlh m))).
    { pose proof (reserve_tlen_is_size dm n p Hn) as Ht.
      unfold len_matches, buffer_len in Hm.
      unfold is_u32, is_size in *. lia. }
    destruct (nlmsg_reserve_len_matches _ _ _ _ _ Hn Hold H32 H) as [Hl Hb].
    split; [exact Hl |].
    unfold aligned4 in *. rewrite Hb, Hm.
    rewrite Z.add_mod, Ha, H4 by lia. reflexivity.
  - apply nlmsg_reserve_null in H. subst m'. split; assumption.
Qed.

(** A padding unit that is a power of two, 4 or more, keeps sizes
    multiples of 4. *)
Lemma reserve_tlen_pow2_mod4 n k :
  0 <= n -> 2 <= k < 31 -> n + 2 ^ k <= 2 ^ size_bits dm ->
  reserve_tlen dm n (2 ^ k) mod 4 = 0.
Proof.
  intros Hn Hk Hfit.
  rewrite reserve_tlen_pow2 by lia.
  replace (2 ^ k) with (4 * 2 ^ (k - 2)) at 1
    by (change 4 with (2 ^ 2); rewrite <- Z.pow_add_r by lia; f_equal; lia).
  rewrite <- Z.mul_assoc, Z.mul_comm. apply Z.mod_mul. lia.
Qed.

Variable nl_errno_ENOMEM : Z.

Lemma nlmsg_append_invariant m data n p m' r :
  is_size dm n -> msg_invariant m ->
  nlmsg_len (nm_nlh m) + reserve_tlen dm n p < 2 ^ 32 ->
  reserve_tlen dm n p mod 4 = 0 ->
  nlmsg_append dm mem junk nl_errno_ENOMEM m data n p = Ret (m', r) ->
  msg_invariant m'.
Proof.
  intros Hn Hinv H32 H4. unfold nlmsg_append.
  destruct (nlmsg_reserve dm mem junk m n p) as [[n' [tmp |]] |] eqn:E;
    try discriminate.
  - pose proof (nlmsg_reserve_invariant _ _ _ _ _ Hn Hinv H32 H4 E) as Hi.
    destruct (Z.ltb_spec (Z.of_nat (length data)) n); simpl; [discriminate |].
    destruct (Z.ltb_spec (buffer_len n') (tmp + n)); [discriminate |].
    intros [= <- _].
    apply nlmsg_reserve_inv in E. cbv zeta in E.
    destruct E as (H16 & _ & -> & _).
    assert (Hb : buffer_len
               (set_nlh n' (nm_nlh n')
                  (memcpy_at (nm_data n')
                     (Z.to_nat (nlmsg_len (nm_nlh m) - 16))
                     (take (Z.to_nat n) data))) = buffer_len n').
    { unfold buffer_len in *. simpl.
      rewrite length_memcpy_at; [reflexivity |].
      rewrite length_take. unfold is_size in Hn. lia. }
    destruct Hi as [Hl Ha]. unfold msg_invariant, len_matches, aligned4 in *.
    rewrite Hb. simpl. split; assumption.
  - intros [= <- _].
    exact (nlmsg_reserve_invariant _ _ _ _ _ Hn Hinv H32 H4 E).
Qed.

Lemma nlmsg_put_invariant m pid seq type payload flags m' r :
  is_int payload -> msg_invariant m ->
  nlmsg_len (nm_nlh m) + reserve_tlen dm payload 4 < 2 ^ 32 ->
  nlmsg_put dm mem junk m pid seq type payload flags = Ret (m', r) ->
  msg_invariant m'.
Proof.
  intros Hp Hinv H32. unfold nlmsg_put.
  destruct (_ <? u32 NLMSG_HDRLEN); [discriminate |].
  set (n1 := set_nlh m _ (nm_data m)).
  assert (Hinv1 : msg_invariant n1) by exact Hinv.
  destruct (Z.ltb_spec 0 payload).
  - assert (Hps : is_size dm payload).
    { pose proof (pow2_size_ge dm).
      unfold is_int, INT_MIN, INT_MAX, is_size in *. lia. }
    rewrite (usize_id dm payload Hps).
    destruct (nlmsg_reserve dm mem junk n1 payload NLMSG_ALIGNTO)
      as [[n2 o] |] eqn:E; [| discriminate].
    assert (Hi : msg_invariant n2).
    { apply (nlmsg_reserve_invariant _ _ _ _ _ Hps Hinv1) in E;
        [exact E | exact H32 |].
      change NLMSG_ALIGNTO with (2 ^ 2).
      apply reserve_tlen_pow2_mod4; [lia | lia |].
      pose proof (pow2_size_ge dm).
      unfold is_int, INT_MIN, INT_MAX in *. simpl. lia. }
    destruct o; intros [= <- _]; exact Hi.
  - intros [= <- _]. exact Hinv1.
Qed.

End LengthInvariant.

(** C2 (amended): allocation yields a message whose header length is the
    size of its buffer, 16, a multiple of 4. Converting a received frame of
    header length [L] yields a buffer of [NLMSG_ALIGN(L)] octets, a multiple
    of 4, whose header length field is [L]: the two agree exactly when [L]
    is a multiple of 4. A reservation, an append or a [nlmsg_put] on a
    message that has both properties keeps them when the new length fits in
    32 bits and the aligned size is a multiple of 4 ([nlmsg_put] always
    aligns to 4). *)
Theorem msg_length_invariant :
  forall dm mem junk enomem,
    (forall m, nlmsg_alloc dm mem = Ret (Some m) ->
               msg_invariant m /\ buffer_len m = 16)
    /\ (forall hdr m, nlmsg_inherit dm mem hdr = Ret (Some m) ->
                      msg_invariant m /\ buffer_len m = 16)
    /\ (forall f m,
          is_u32 (nlmsg_len (rf_hdr f)) ->
          nlmsg_convert dm mem f = Ret (Some m) ->
          buffer_len m = NLMSG_ALIGN (nlmsg_len (rf_hdr f))
          /\ aligned4 m
          /\ nlmsg_len (nm_nlh m) = nlmsg_len (rf_hdr f)
          /\ (len_matches m <-> nlmsg_len (rf_hdr f) mod 4 = 0))
    /\ (forall m n p m' r,
          is_size dm n -> msg_invariant m ->
          nlmsg_len (nm_nlh m) + reserve_tlen dm n p < 2 ^ 32 ->
          reserve_tlen dm n p mod 4 = 0 ->
          nlmsg_reserve dm mem junk m n p = Ret (m', r) ->
          msg_invariant m')
    /\ (forall m data n p m' r,
          is_size dm n -> msg_invariant m ->
          nlmsg_len (nm_nlh m) + reserve_tlen dm n p < 2 ^ 32 ->
          reserve_tlen dm n p mod 4 = 0 ->
          nlmsg_append dm mem junk enomem m data n p = Ret (m', r) ->
          msg_invariant m')
    /\ (forall m pid seq type payload flags m' r,
          is_int payload -> msg_invariant m ->
          nlmsg_len (nm_nlh m) + reserve_tlen dm payload 4 < 2 ^ 32 ->
          nlmsg_put dm mem junk m pid seq type payload flags = Ret (m', r) ->
          msg_invariant m').
Proof.
  intros dm mem junk enomem. repeat apply conj.
  - apply nlmsg_alloc_invariant.
  - apply nlmsg_inherit_invariant.
  - intros f m Hu H.
    pose proof (nlmsg_convert_len_matches dm mem f m Hu H) as Hiff.
    apply nlmsg_convert_lengths in H. destruct H as (Hb & Ha & Hh & _).
    rewrite Hh. auto.
  - apply nlmsg_reserve_invariant.
  - apply nlmsg_append_invariant.
  - apply nlmsg_put_invariant.
Qed.

Lemma msg_length_invariant_witness :
  msg_invariant
    (mk_nl_msg (-1) 0 zero_addr zero_addr zero_ucred
       (mk_nlmsghdr 24 0 0 0 0) [xff; xff; xff; xff; xff; x00; x00; x00]).
Proof.
  destruct (msg_length_invariant LP64 grant dirty (-12))
    as (_ & _ & _ & Hreserve & _).
  apply (Hreserve blank 5 4 _ (Some 16)).
  - unfold is_size; simpl; lia.
  - repeat split.
  - vm_compute; reflexivity.
  - reflexivity.
  - vm_compute; reflexivity.
Defined.

(** C2 (as stated, refuted): reserving one octet without padding on a
    freshly allocated message leaves a buffer of 17 octets; converting a
    frame of header length 17 leaves a buffer of 20 octets whose header
    length field is 17. *)
Lemma msg_length_invariant_fails :
  (exists m',
     nlmsg_reserve LP64 grant dirty blank 1 0 = Ret (m', Some 16)
     /\ buffer_len m' = 17 /\ ~ msg_invariant m')
  /\ (exists m,
        nlmsg_convert LP64 grant
          (mk_raw_frame (mk_nlmsghdr 17 16 0 7 0) [x01]
                        (mk_nlmsgerr 0 zero_hdr)) = Ret (Some m)
        /\ buffer_len m = 20 /\ nlmsg_len (nm_nlh m) = 17
        /\ ~ msg_invariant m).
Proof.
  split.
  - eexists. split; [vm_compute; reflexivity |]. split; [reflexivity |].
    intros [_ Ha]. vm_compute in Ha. discriminate Ha.
  - eexists. split; [vm_compute; reflexivity |].
    split; [reflexivity |]. split; [reflexivity |].
    intros [Hl _]. vm_compute in Hl. discriminate Hl.
Qed.

(** ** Auto-completion (lib/nl.c) *)

Section AutoComplete.

Lemma u16_lor a f : u16 (Z.lor a f) = Z.lor (u16 a) (u16 f).
Proof.
  unfold u16. rewrite <- !Z.land_ones by lia.
  apply Z.land_lor_distr_l.
Qed.

Lemma u16_u16 a : u16 (u16 a) = u16 a.
Proof. unfold u16. apply Z.mod_mod. lia. Qed.

(** ORing a flag in twice is ORing it in once. *)
Lemma or_flags_twice h f g :
  or_flags (or_flags (or_flags (or_flags h f) g) f) g
  = or_flags (or_flags h f) g.
Proof.
  unfold or_flags. simpl. f_equal.
  rewrite !u16_lor, !u16_u16.
  apply Z.bits_inj'. intros i _. rewrite !Z.lor_spec.
  destruct (Z.testbit (u16 (nlmsg_flags h)) i),
           (Z.testbit (u16 f) i), (Z.testbit (u16 g) i); reflexivity.
Qed.

Lemma or_flags_once h f :
  or_flags (or_flags h f) f = or_flags h f.
Proof.
  unfold or_flags. simpl. f_equal.
  rewrite !u16_lor, !u16_u16.
  apply Z.bits_inj'. intros i _. rewrite !Z.lor_spec.
  destruct (Z.testbit (u16 (nlmsg_flags h)) i),
           (Z.testbit (u16 f) i); reflexivity.
Qed.

Lemma stamped_twice sk h : stamped sk (stamped sk h) = stamped sk h.
Proof.
  unfold stamped. destruct (_ =? 0).
  - apply or_flags_twice.
  - apply or_flags_once.
Qed.

Lemma nl_complete_msg_resolved sk msg :
  nlmsg_pid (nm_nlh msg) <> NL_AUTO_PORT ->
  nlmsg_seq (nm_nlh msg) <> NL_AUTO_SEQ ->
  nm_protocol msg <> -1 ->
  nl_complete_msg sk msg
  = (sk, set_nlh msg (stamped sk (nm_nlh msg)) (nm_data msg)).
Proof.
  intros Hpid Hseq Hproto. apply Z.eqb_neq in Hpid, Hseq, Hproto.
  unfold nl_complete_msg, nlmsg_hdr, stamped.
  rewrite Hpid, Hseq, Hproto. reflexivity.
Qed.

Lemma nl_complete_msg_header sk msg :
  exists h,
    nm_nlh (snd (nl_complete_msg sk msg))
    = stamped (fst (nl_complete_msg sk msg)) h.
Proof.
  unfold nl_complete_msg, nlmsg_hdr, stamped.
  destruct (nlmsg_pid (nm_nlh msg) =? NL_AUTO_PORT);
    destruct (nlmsg_seq _ =? NL_AUTO_SEQ); simpl;
    eexists; reflexivity.
Qed.

End AutoComplete.

(** C4: auto-completion changes the port id, the sequence number, the
    protocol and the flags of the message and the next sequence number of
    the endpoint as the five steps say (the flags being a 16-bit field, the
    counter a 32-bit one), and nothing else. *)
Theorem nl_complete_msg_updates :
  forall sk msg,
    let sk' := fst (nl_complete_msg sk msg) in
    let msg' := snd (nl_complete_msg sk msg) in
    let nlh := nm_nlh msg in
    let nlh' := nm_nlh msg' in
    let auto_ack := Z.land (s_flags sk) NL_NO_AUTO_ACK =? 0 in
    nlmsg_pid nlh' =
      (if nlmsg_pid nlh =? NL_AUTO_PORT then nl_pid (s_local sk)
       else nlmsg_pid nlh)
    /\ nlmsg_seq nlh' =
         (if nlmsg_seq nlh =? NL_AUTO_SEQ then s_seq_next sk
          else nlmsg_seq nlh)
    /\ s_seq_next sk' =
         (if nlmsg_seq nlh =? NL_AUTO_SEQ then u32 (s_seq_next sk + 1)
          else s_seq_next sk)
    /\ nm_protocol msg' =
         (if nm_protocol msg =? -1 then s_proto sk else nm_protocol msg)
    /\ nlmsg_flags nlh' =
         u16 (Z.lor (Z.lor (nlmsg_flags nlh) NLM_F_REQUEST)
                    (if auto_ack then NLM_F_ACK else 0))
    /\ nlmsg_len nlh' = nlmsg_len nlh
    /\ nlmsg_type nlh' = nlmsg_type nlh
    /\ nm_flags msg' = nm_flags msg
    /\ nm_src msg' = nm_src msg
    /\ nm_dst msg' = nm_dst msg
    /\ nm_creds msg' = nm_creds msg
    /\ nm_data msg' = nm_data msg
    /\ s_local sk' = s_local sk
    /\ s_peer sk' = s_peer sk
    /\ s_fd sk' = s_fd sk
    /\ s_proto sk' = s_proto sk
    /\ s_seq_expect sk' = s_seq_expect sk
    /\ s_flags sk' = s_flags sk
    /\ s_cb sk' = s_cb sk
    /\ s_bufsize sk' = s_bufsize sk.
Proof.
  intros sk msg. cbv zeta. unfold nl_complete_msg, nlmsg_hdr.
  destruct (nlmsg_pid (nm_nlh msg) =? NL_AUTO_PORT) eqn:Epid;
    destruct (nlmsg_seq (nm_nlh msg) =? NL_AUTO_SEQ) eqn:Eseq;
    simpl; rewrite ?Eseq; simpl;
    destruct (nm_protocol msg =? -1) eqn:Eproto;
    destruct (Z.land (s_flags sk) NL_NO_AUTO_ACK =? 0) eqn:Eack;
    simpl;
    repeat split;
    rewrite ?u16_lor, ?u16_u16, ?Z.lor_0_r; reflexivity.
Qed.

(** C8: once a run of auto-completion has left a port id and a sequence
    number that are not the sentinels and a protocol that is set, a second
    run changes neither the message nor the endpoint. *)
Theorem nl_complete_msg_idempotent :
  forall sk msg,
    let sk' := fst (nl_complete_msg sk msg) in
    let msg' := snd (nl_complete_msg sk msg) in
    nlmsg_pid (nm_nlh msg') <> NL_AUTO_PORT ->
    nlmsg_seq (nm_nlh msg') <> NL_AUTO_SEQ ->
    nm_protocol msg' <> -1 ->
    nl_complete_msg sk' msg' = (sk', msg').
Proof.
  intros sk msg sk' msg' Hpid Hseq Hproto.
  rewrite (nl_complete_msg_resolved sk' msg' Hpid Hseq Hproto).
  destruct (nl_complete_msg_header sk msg) as [h Hh].
  fold sk' msg' in Hh. rewrite Hh, stamped_twice, <- Hh.
  destruct msg'; reflexivity.
Qed.

(** ** Reference counting of callback sets (lib/handlers.c) *)

Section RefCount.

Variable U : Type.
Variable arg : Type.
Variable fprintf : FILE arg -> string -> U -> U.
Variable print_header_content : FILE arg -> nlmsghdr -> U -> U.
Variable nl_msg_dump : nl_msg -> FILE arg -> U -> U.
Variable strerror : Z -> string.
Variable nl_syserr2nlerr : Z -> Z.

Abbreviation cb_store := (gmap positive (nl_cb U arg)).
Local Abbreviation cb_refcnt := (Handlers.cb_refcnt U arg).
Local Abbreviation set_refcnt := (Handlers.set_refcnt U arg).
Local Abbreviation nl_cb_set :=
  (Handlers.nl_cb_set U arg fprintf print_header_content nl_msg_dump).
Local Abbreviation nl_cb_alloc_from :=
  (Handlers.nl_cb_alloc_from U arg fprintf print_header_content nl_msg_dump).
Local Abbreviation nl_cb_err :=
  (Handlers.nl_cb_err U arg fprintf print_header_content strerror
     nl_syserr2nlerr).
Local Abbreviation nl_cb_alloc :=
  (Handlers.nl_cb_alloc U arg fprintf print_header_content nl_msg_dump
     strerror nl_syserr2nlerr).
Local Abbreviation nl_cb_get := (Handlers.nl_cb_get U arg).
Local Abbreviation nl_cb_put := (Handlers.nl_cb_put U arg).

Lemma nl_cb_set_refcnt cb type kind func a :
  cb_refcnt (fst (nl_cb_set cb type kind func a)) = cb_refcnt cb.
Proof.
  unfold Handlers.nl_cb_set.
  destruct (type_of_Z type); [| reflexivity].
  destruct (kind_of_Z kind) as [[] |]; reflexivity.
Qed.

Lemma nl_cb_alloc_from_refcnt todo :
  forall i cb kind,
    cb_refcnt (nl_cb_alloc_from todo i cb kind) = cb_refcnt cb.
Proof.
  induction todo as [| todo IH]; intros i cb kind; simpl.
  - reflexivity.
  - rewrite IH. apply nl_cb_set_refcnt.
Qed.

Lemma nl_cb_err_refcnt cb kind func a :
  cb_refcnt (fst (nl_cb_err cb kind func a)) = cb_refcnt cb.
Proof.
  unfold Handlers.nl_cb_err. destruct (kind_of_Z kind) as [[] |]; reflexivity.
Qed.

(** A set obtained from [nl_cb_alloc] lives at the address [calloc]
    returned, which was free, and carries a count of 1. *)
Lemma nl_cb_alloc_inv (h h' : cb_store) block kind q :
  nl_cb_alloc h block kind = Ret (h', Some q) ->
  h !! q = None
  /\ exists c, h' = <[q := c]> h /\ cb_refcnt c = 1.
Proof.
  unfold Handlers.nl_cb_alloc.
  destruct (_ || _); [discriminate |].
  destruct block as [p |]; [| discriminate].
  destruct (h !! p) eqn:E; [discriminate |].
  intros [= <- <-]. split; [exact E |].
  eexists. split; [reflexivity |].
  rewrite nl_cb_err_refcnt, ?nl_cb_alloc_from_refcnt, ?nl_cb_set_refcnt.
  reflexivity.
Qed.

(** C9: [nl_cb_get] adds one to the count (in [int] arithmetic) and returns
    the set it was given; [nl_cb_put] of NULL changes nothing; [nl_cb_put]
    of a set takes one off the count and releases the set exactly when the
    count it leaves is zero, a negative count being an assertion failure;
    the first [nl_cb_put] of a set fresh from [nl_cb_alloc] releases it and
    gives back the store as it was. *)
Theorem nl_cb_refcount :
  forall h : cb_store,
    (forall p c,
        h !! p = Some c ->
        nl_cb_get h p
        = Ret (<[p := set_refcnt c (s32 (cb_refcnt c + 1))]> h, p)
        /\ (INT_MIN <= cb_refcnt c < INT_MAX ->
            s32 (cb_refcnt c + 1) = cb_refcnt c + 1))
    /\ nl_cb_put h None = Ret h
    /\ (forall p c,
          h !! p = Some c ->
          let left := s32 (cb_refcnt c - 1) in
          (INT_MIN < cb_refcnt c <= INT_MAX -> left = cb_refcnt c - 1)
          /\ (left = 0 -> nl_cb_put h (Some p) = Ret (delete p h))
          /\ (0 < left ->
              nl_cb_put h (Some p) = Ret (<[p := set_refcnt c left]> h))
          /\ (left < 0 -> nl_cb_put h (Some p) = NoReturn)
          /\ (forall h', nl_cb_put h (Some p) = Ret h' ->
                         (h' !! p = None <-> left = 0)))
    /\ (forall block kind h' q,
          nl_cb_alloc h block kind = Ret (h', Some q) ->
          (exists c, h' !! q = Some c /\ cb_refcnt c = 1)
          /\ nl_cb_put h' (Some q) = Ret h).
Proof.
  intros h. repeat apply conj.
  - intros p c Hc. split.
    + unfold Handlers.nl_cb_get. rewrite Hc. reflexivity.
    + intros Hr. apply s32_id. unfold is_int, INT_MIN, INT_MAX in *. lia.
  - reflexivity.
  - intros p c Hc left.
    assert (Hput : nl_cb_put h (Some p)
                   = if left <? 0 then NoReturn
                     else if left <=? 0 then Ret (delete p h)
                     else Ret (<[p := set_refcnt c left]> h)).
    { unfold Handlers.nl_cb_put. rewrite Hc. reflexivity. }
    repeat apply conj.
    + intros Hr. apply s32_id. unfold is_int, INT_MIN, INT_MAX in *. lia.
    + intros E. rewrite Hput, E. reflexivity.
    + intros Hpos. rewrite Hput.
      destruct (Z.ltb_spec left 0); [lia |].
      destruct (Z.leb_spec left 0); [lia | reflexivity].
    + intros Hneg. rewrite Hput.
      destruct (Z.ltb_spec left 0); [reflexivity | lia].
    + intros h'. rewrite Hput.
      destruct (Z.ltb_spec left 0); [discriminate |].
      destruct (Z.leb_spec left 0); intros [= <-].
      * rewrite lookup_delete_eq. split; [lia | reflexivity].
      * rewrite lookup_insert_eq. split; [discriminate | lia].
  - intros block kind h' q H.
    apply nl_cb_alloc_inv in H. destruct H as (Hfree & c & -> & Hone).
    split.
    + exists c. rewrite lookup_insert_eq. split; [reflexivity | exact Hone].
    + unfold Handlers.nl_cb_put. rewrite lookup_insert_eq. simpl.
      rewrite Hone. simpl. f_equal. apply delete_insert_id. exact Hfree.
Qed.

End RefCount.

(** ** The send path (lib/nl.c) *)

Section Send.

Variable U : Type.
Variable arg : Type.
Variable dm : data_model.
Variable nl_syserr2nlerr : Z -> Z.
Variable sys_sendmsg : Z -> msghdr -> nl_msg -> U -> Z * Z * U.

Local Abbreviation nl_cb := (Handlers.nl_cb U arg).
Local Abbreviation cb_set := (Handlers.cb_set U arg).
Local Abbreviation cb_args := (Handlers.cb_args U arg).
Local Abbreviation world := (Nl.world U).
Local Abbreviation nl_sendmsg :=
  (Nl.nl_sendmsg U arg nl_syserr2nlerr sys_sendmsg).
Local Abbreviation nl_send :=
  (Nl.nl_send U arg dm nl_syserr2nlerr sys_sendmsg).

(** C10: when the [MSG_OUT] hook is bound and returns a value other than
    OK, [nl_sendmsg] (and [nl_send] through it) returns that value and the
    transport is not called: the log gains the hook event only. SKIP and
    STOP are 1 and 2, so the value returned is the value a send without hook
    returns when the transport reports 1 or 2 octets written. *)
Theorem nl_sendmsg_suppressed :
  forall (h : gmap positive nl_cb) sk msg hdr (w : world) cb f r msg' u',
    h !! s_cb sk = Some cb ->
    cb_set cb NL_CB_MSG_OUT = Some f ->
    f (nlmsg_set_src msg (s_local sk)) (cb_args cb NL_CB_MSG_OUT) (w_user U w)
    = (r, msg', u') ->
    r <> NL_OK ->
    let w' := mk_world U u'
                (w_log U w
                 ++ [EvHook NL_CB_MSG_OUT (nlmsg_set_src msg (s_local sk))]) in
    nl_sendmsg h sk msg hdr w = Ret (r, msg', w')
    /\ nl_send h sk msg w = Ret (r, msg', w')
    /\ (forall fd hd m, EvSendmsg fd hd m ∈ w_log U w' ->
                        EvSendmsg fd hd m ∈ w_log U w)
    /\ NL_SKIP = 1 /\ NL_STOP = 2
    /\ (r = NL_SKIP \/ r = NL_STOP ->
        0 < r
        /\ forall (h0 : gmap positive nl_cb) cb0 errno u'',
             h0 !! s_cb sk = Some cb0 ->
             cb_set cb0 NL_CB_MSG_OUT = None ->
             sys_sendmsg (s_fd sk) hdr (nlmsg_set_src msg (s_local sk))
                         (w_user U w) = (r, errno, u'') ->
             exists m'' w'', nl_sendmsg h0 sk msg hdr w = Ret (r, m'', w'')).
Proof.
  intros h sk msg hdr w cb f r msg' u' Hcb Hf Hcall Hr w'.
  assert (Hsend : forall hdr0, nl_sendmsg h sk msg hdr0 w = Ret (r, msg', w')).
  { intros hdr0. unfold Nl.nl_sendmsg, nl_cb_call.
    rewrite Hcb, Hf, Hcall.
    destruct (Z.eqb_spec r NL_OK); [contradiction | reflexivity]. }
  repeat apply conj.
  - apply Hsend.
  - unfold Nl.nl_send, nl_send_iovec. apply Hsend.
  - intros fd hd m Hin. subst w'. simpl in Hin.
    apply elem_of_app in Hin. destruct Hin as [Hin | Hin]; [exact Hin |].
    apply list_elem_of_singleton in Hin. discriminate Hin.
  - reflexivity.
  - reflexivity.
  - intros Hv. split.
    + destruct Hv as [-> | ->]; reflexivity.
    + intros h0 cb0 errno u'' Hcb0 Hnone Hsys.
      unfold Nl.nl_sendmsg, do_sendmsg. rewrite Hcb0, Hnone, Hsys.
      destruct Hv as [-> | ->]; eexists _, _; reflexivity.
Qed.

End Send.

(** ** The receive state machine (lib/nl.c) *)

Section Receive.

Variable U : Type.
Variable arg : Type.
Variable dm : data_model.
Variable mem : Z -> bool.
Variable nl_syserr2nlerr : Z -> Z.
Variable nl_recv : nl_sock -> U -> Z * datagram * U.

Local Abbreviation nl_cb := (Handlers.nl_cb U arg).
Local Abbreviation cb_err := (Handlers.cb_err U arg).
Local Abbreviation cb_err_arg := (Handlers.cb_err_arg U arg).
Local Abbreviation rstate := (Nl.rstate U).
Local Abbreviation w_log := (Nl.w_log U).
Local Abbreviation w_user := (Nl.w_user U).
Local Abbreviation r_sk := (Nl.r_sk U).
Local Abbreviation r_world := (Nl.r_world U).
Local Abbreviation r_msg := (Nl.r_msg U).
Local Abbreviation r_interrupted := (Nl.r_interrupted U).
Local Abbreviation r_multipart := (Nl.r_multipart U).
Local Abbreviation r_nrecv := (Nl.r_nrecv U).
Local Abbreviation r_n := (Nl.r_n U).
Local Abbreviation r_hdr := (Nl.r_hdr U).
Local Abbreviation bound := (Nl.bound U arg).
Local Abbreviation NL_CB_CALL := (Nl.NL_CB_CALL U arg).
Local Abbreviation frame_prologue := (Nl.frame_prologue U arg dm mem).
Local Abbreviation seq_check := (Nl.seq_check U arg).
Local Abbreviation seq_advance := (Nl.seq_advance U).
Local Abbreviation mark_multipart := (Nl.mark_multipart U).
Local Abbreviation dump_intr := (Nl.dump_intr U arg).
Local Abbreviation send_ack := (Nl.send_ack U arg).
Local Abbreviation frame_checks := (Nl.frame_checks U arg).
Local Abbreviation dispatch := (Nl.dispatch U arg nl_syserr2nlerr).
Local Abbreviation call_err := (Nl.call_err U arg nl_syserr2nlerr).
Local Abbreviation process_frame :=
  (Nl.process_frame U arg dm mem nl_syserr2nlerr).
Local Abbreviation reaches_seq_check := (Nl.reaches_seq_check U arg dm mem).
Local Abbreviation reaches_dispatch := (Nl.reaches_dispatch U arg dm mem).
Local Abbreviation epilogue := (Nl.epilogue U).
Local Abbreviation recvmsgs_loop :=
  (Nl.recvmsgs_loop U arg dm mem nl_syserr2nlerr nl_recv).

(** A hook call logs one event, the hook type with the message it was
    given, and leaves the rest of the loop state alone. *)
Lemma NL_CB_CALL_log cb type s s' :
  flow_state (NL_CB_CALL cb type s) = Some s' ->
  same_frame s s'
  /\ exists m, r_msg s = Some m
               /\ w_log (r_world s') = w_log (r_world s) ++ [EvHook type m]
               /\ is_Some (r_msg s').
Proof.
  unfold Nl.NL_CB_CALL, nl_cb_call.
  destruct (Nl.r_msg U s) as [m |]; [| discriminate].
  destruct (cb_set U arg cb type) as [f |]; [| discriminate].
  destruct (f m _ _) as [[err m'] u'].
  intros H.
  assert (E : s' = with_msg U
                     (with_world U s
                        (mk_world U u'
                           (Nl.w_log U (Nl.r_world U s) ++ [EvHook type m])))
                     (Some m')).
  { destruct (err =? NL_OK); [injection H as <-; reflexivity |].
    destruct (err =? NL_SKIP); [injection H as <-; reflexivity |].
    destruct (err =? NL_STOP); injection H as <-; reflexivity. }
  subst s'. split.
  - repeat split.
  - exists m. repeat split. simpl. eauto.
Qed.

(** A call through a bound slot, with a message at hand, does not crash. *)
Lemma NL_CB_CALL_runs cb type s :
  is_Some (r_msg s) -> bound cb type = true ->
  exists s', flow_state (NL_CB_CALL cb type s) = Some s'.
Proof.
  intros [m Hm] Hb. unfold Nl.bound in Hb.
  unfold Nl.NL_CB_CALL, nl_cb_call. rewrite Hm.
  destruct (cb_set U arg cb type) as [f |]; [| discriminate].
  destruct (f m _ _) as [[err m'] u'].
  destruct (err =? NL_OK); [eexists; reflexivity |].
  destruct (err =? NL_SKIP); [eexists; reflexivity |].
  destruct (err =? NL_STOP); eexists; reflexivity.
Qed.

(** The prologue counts the frame, touches nothing else of the loop state,
    and logs at most the [MSG_IN] event. *)
Lemma frame_prologue_inv cb dg f s0 s1 :
  frame_prologue cb dg f s0 = Proceed tt s1 ->
  r_sk s1 = r_sk s0 /\ r_multipart s1 = r_multipart s0
  /\ r_interrupted s1 = r_interrupted s0
  /\ r_nrecv s1 = s32 (r_nrecv s0 + 1)
  /\ r_n s1 = r_n s0 /\ r_hdr s1 = r_hdr s0
  /\ is_Some (r_msg s1)
  /\ exists evs,
       w_log (r_world s1) = w_log (r_world s0) ++ evs
       /\ forall e, e ∈ evs -> exists m, e = EvHook NL_CB_MSG_IN m.
Proof.
  unfold Nl.frame_prologue, seqm, bind, modify, when.
  destruct (nlmsg_convert dm mem f) as [[msg |] |]; try discriminate.
  set (sa := with_nrecv U _ _).
  destruct (Nl.bound U arg cb NL_CB_MSG_IN).
  - intros H.
    assert (Hs : flow_state (NL_CB_CALL cb NL_CB_MSG_IN sa) = Some s1)
      by (rewrite H; reflexivity).
    apply NL_CB_CALL_log in Hs.
    destruct Hs as ((Hsk & Hmp & Hin & Hnr & Hn & Hh) & m & _ & Hlog & Hmsg).
    rewrite Hsk, Hmp, Hin, Hnr, Hn, Hh, Hlog.
    repeat (split; [reflexivity || exact Hmsg |]).
    exists [EvHook NL_CB_MSG_IN m]. split; [reflexivity |].
    intros e He. apply list_elem_of_singleton in He. eauto.
  - intros [= <-].
    repeat (split; [reflexivity || (simpl; eauto) |]).
    exists []. split; [symmetry; apply app_nil_r |].
    intros e He. apply elem_of_nil in He. contradiction.
Qed.

(** The loop takes up the frame at the cursor when [nlmsg_ok] accepts it,
    and leaves through [out:] when the body says so. *)
Lemma recvmsgs_loop_out fuel cb dg s0 err s' :
  nlmsg_ok dm (rf_hdr (dg_buf dg (r_hdr s0))) (r_n s0) = true ->
  process_frame cb dg (dg_buf dg (r_hdr s0)) s0 = GotoOut err s' ->
  recvmsgs_loop (S fuel) cb (PARSING dg) s0
  = Returns (fst (epilogue err s')) (snd (epilogue err s')).
Proof.
  intros Hok Hp. simpl. rewrite Hok, Hp.
  destruct (Nl.epilogue U err s'). reflexivity.
Qed.

Lemma recvmsgs_loop_next fuel cb dg s0 fl s' :
  nlmsg_ok dm (rf_hdr (dg_buf dg (r_hdr s0))) (r_n s0) = true ->
  process_frame cb dg (dg_buf dg (r_hdr s0)) s0 = fl ->
  fl = Proceed tt s' \/ fl = GotoSkip s' ->
  recvmsgs_loop (S fuel) cb (PARSING dg) s0
  = recvmsgs_loop fuel cb (PARSING dg)
      (with_cursor U s'
         (fst (nlmsg_next (r_hdr s') (rf_hdr (dg_buf dg (r_hdr s0))) (r_n s')))
         (snd (nlmsg_next (r_hdr s') (rf_hdr (dg_buf dg (r_hdr s0))) (r_n s')))).
Proof.
  intros Hok Hp Hfl. simpl. rewrite Hok, Hp.
  destruct Hfl as [-> | ->]; reflexivity.
Qed.

(** The value the loop returns when it leaves through [out:] with a code
    that is not zero. *)
Lemma epilogue_error err s :
  err <> 0 ->
  epilogue err s
  = (if r_interrupted s then - NLE_DUMP_INTR else err, with_msg U s None).
Proof.
  intros He. unfold Nl.epilogue. simpl.
  destruct (Nl.r_interrupted U s).
  - reflexivity.
  - destruct (Z.eqb_spec err 0); [contradiction | reflexivity].
Qed.

(** C1 (amended): take a frame that reaches the sequence check (it was
    converted, and [MSG_IN] is unbound or returned OK), on an endpoint with
    [NO_AUTO_ACK] clear and a callback set with [SEQ_CHECK] unbound, whose
    sequence number differs from [seq_expect]. If [INVALID] is bound, the
    loop calls that hook on the message of the frame, and what the hook
    returns governs the loop: with OK the frame goes through the
    remaining steps as if the number had matched; with SKIP the loop
    drops the frame and takes up the next one; with STOP it ends and
    returns the count of frames; with any other value it ends and
    returns that value. Otherwise the loop ends at this frame and returns
    [-NLE_SEQ_MISMATCH]; the only hook that ran on the frame is [MSG_IN],
    so [VALID] did not. Wherever the loop ends here, it returns
    [-NLE_DUMP_INTR] instead when an earlier frame of the call recorded
    a dump interruption for which no hook was bound. *)
Theorem recvmsgs_seq_mismatch :
  forall fuel cb dg s0 s1,
    let f := dg_buf dg (r_hdr s0) in
    nlmsg_ok dm (rf_hdr f) (r_n s0) = true ->
    reaches_seq_check cb dg f s0 s1 ->
    bound cb NL_CB_SEQ_CHECK = false ->
    has_flag (s_flags (r_sk s0)) NL_NO_AUTO_ACK = false ->
    nlmsg_seq (rf_hdr f) <> s_seq_expect (r_sk s0) ->
    (bound cb NL_CB_INVALID = true ->
       exists h m,
         Handlers.cb_set U arg cb NL_CB_INVALID = Some h
         /\ r_msg s1 = Some m
         /\ forall r m' u',
              h m (Handlers.cb_args U arg cb NL_CB_INVALID)
                (w_user (r_world s1))
              = (r, m', u') ->
              let s2 :=
                with_msg U
                  (with_world U s1
                     (mk_world U u'
                        (w_log (r_world s1) ++ [EvHook NL_CB_INVALID m])))
                  (Some m') in
              (r = NL_OK ->
               process_frame cb dg f s0
               = seqm U (seqm U (seq_advance f)
                           (seqm U (mark_multipart f)
                              (seqm U (dump_intr cb f) (send_ack cb f))))
                        (dispatch cb dg f) s2)
              /\ (r = NL_SKIP ->
                  recvmsgs_loop (S fuel) cb (PARSING dg) s0
                  = recvmsgs_loop fuel cb (PARSING dg)
                      (with_cursor U s2
                         (fst (nlmsg_next (r_hdr s2) (rf_hdr f) (r_n s2)))
                         (snd (nlmsg_next (r_hdr s2) (rf_hdr f) (r_n s2)))))
              /\ (r = NL_STOP ->
                  recvmsgs_loop (S fuel) cb (PARSING dg) s0
                  = Returns (if r_interrupted s0 then - NLE_DUMP_INTR
                             else r_nrecv s1)
                      (with_msg U s2 None))
              /\ (r <> NL_OK -> r <> NL_SKIP -> r <> NL_STOP ->
                  recvmsgs_loop (S fuel) cb (PARSING dg) s0
                  = Returns (if r_interrupted s0 then - NLE_DUMP_INTR
                             else r)
                      (with_msg U s2 None)))
    /\ (bound cb NL_CB_INVALID = false ->
          let sf := with_msg U s1 None in
          recvmsgs_loop (S fuel) cb (PARSING dg) s0
          = Returns (if r_interrupted s0 then - NLE_DUMP_INTR
                     else - NLE_SEQ_MISMATCH) sf
          /\ exists evs,
               w_log (r_world sf) = w_log (r_world s0) ++ evs
               /\ (forall e, e ∈ evs -> exists m, e = EvHook NL_CB_MSG_IN m)
               /\ (forall m, EvHook NL_CB_VALID m ∉ evs)).
Proof.
  intros fuel cb dg s0 s1 f Hok Hreach Hseq Hauto Hne.
  unfold Nl.reaches_seq_check in Hreach.
  destruct (frame_prologue_inv _ _ _ _ _ Hreach)
    as (Hsk & _ & Hin & _ & _ & _ & Hmsg & Hlog).
  assert (Hcheck : seq_check cb f s1
                   = if bound cb NL_CB_INVALID
                     then NL_CB_CALL cb NL_CB_INVALID s1
                     else GotoOut (- NLE_SEQ_MISMATCH) s1).
  { unfold Nl.seq_check. rewrite Hseq. unfold bind, get.
    rewrite Hsk, Hauto. simpl.
    destruct (Z.eqb_spec (nlmsg_seq (rf_hdr f)) (s_seq_expect (Nl.r_sk U s0)));
      [contradiction |].
    simpl. destruct (Nl.bound U arg cb NL_CB_INVALID); reflexivity. }
  split.
  - intros Hb. rewrite Hb in Hcheck. clear Hlog.
    unfold Nl.bound in Hb.
    destruct (Handlers.cb_set U arg cb NL_CB_INVALID) as [h |] eqn:Hh;
      [| discriminate].
    destruct Hmsg as [m Hm].
    exists h, m. split; [reflexivity |]. split; [exact Hm |].
    intros r m' u' Hcall s2.
    assert (Hflow : process_frame cb dg f s0
                    = if r =? NL_OK
                      then seqm U (seqm U (seq_advance f)
                                     (seqm U (mark_multipart f)
                                        (seqm U (dump_intr cb f)
                                           (send_ack cb f))))
                                  (dispatch cb dg f) s2
                      else if r =? NL_SKIP then GotoSkip s2
                      else if r =? NL_STOP then GotoStop s2
                      else GotoOut r s2).
    { unfold Nl.process_frame, Nl.frame_checks.
      unfold seqm at 1 2 3. unfold bind at 1 2 3.
      fold f. rewrite Hreach, Hcheck.
      unfold Nl.NL_CB_CALL, nl_cb_call. rewrite Hm, Hh, Hcall.
      fold s2.
      destruct (r =? NL_OK); [reflexivity |].
      destruct (r =? NL_SKIP); [reflexivity |].
      destruct (r =? NL_STOP); reflexivity. }
    assert (Hi2 : r_interrupted s2 = r_interrupted s0) by exact Hin.
    repeat apply conj.
    + intros ->. exact Hflow.
    + intros ->. change (process_frame cb dg f s0 = GotoSkip s2) in Hflow.
      apply (recvmsgs_loop_next fuel cb dg s0 _ s2 Hok Hflow). auto.
    + intros ->. change (process_frame cb dg f s0 = GotoStop s2) in Hflow.
      simpl. fold f. rewrite Hok, Hflow, Hi2.
      destruct (Nl.r_interrupted U s0); reflexivity.
    + intros H0 H1 H2.
      destruct (Z.eqb_spec r NL_OK); [contradiction |].
      destruct (Z.eqb_spec r NL_SKIP); [contradiction |].
      destruct (Z.eqb_spec r NL_STOP); [contradiction |].
      rewrite (recvmsgs_loop_out fuel cb dg s0 r s2 Hok Hflow).
      rewrite epilogue_error by (unfold NL_OK in *; lia).
      cbn [fst snd]. rewrite Hi2. reflexivity.
  - intros Hb sf. rewrite Hb in Hcheck. split.
    + rewrite (recvmsgs_loop_out fuel cb dg s0 (- NLE_SEQ_MISMATCH) s1 Hok).
      * rewrite epilogue_error by discriminate. simpl. rewrite Hin. reflexivity.
      * unfold Nl.process_frame, Nl.frame_checks, seqm, bind.
        fold f. rewrite Hreach, Hcheck. reflexivity.
    + destruct Hlog as (evs & Hl & Hall). exists evs.
      split; [exact Hl |]. split; [exact Hall |].
      intros m Hm. destruct (Hall _ Hm) as [m' Hm']. discriminate Hm'.
Qed.

(** The dispatch of an ERROR frame that carries a whole error record with a
    code that is not zero is the call of the error hook. *)
Lemma dispatch_error cb dg f :
  nlmsg_type (rf_hdr f) = NLMSG_ERROR ->
  u32 (nlmsg_size sizeof_nlmsgerr) <= nlmsg_len (rf_hdr f) ->
  e_error (rf_err f) <> 0 ->
  dispatch cb dg f = call_err cb dg (rf_err f).
Proof.
  intros Ht Hl He. unfold Nl.dispatch. rewrite Ht. simpl.
  destruct (Z.ltb_spec (nlmsg_len (rf_hdr f)) (u32 (nlmsg_size sizeof_nlmsgerr)));
    [lia |].
  destruct (Z.eqb_spec (e_error (rf_err f)) 0); [contradiction | reflexivity].
Qed.

(** The dispatch of a kernel ACK: the [ACK] hook when one is bound, nothing
    at all otherwise. *)
Lemma dispatch_ack cb dg f :
  nlmsg_type (rf_hdr f) = NLMSG_ERROR ->
  u32 (nlmsg_size sizeof_nlmsgerr) <= nlmsg_len (rf_hdr f) ->
  e_error (rf_err f) = 0 ->
  dispatch cb dg f
  = if bound cb NL_CB_ACK then NL_CB_CALL cb NL_CB_ACK else ret U tt.
Proof.
  intros Ht Hl He. unfold Nl.dispatch. rewrite Ht, He. simpl.
  destruct (Z.ltb_spec (nlmsg_len (rf_hdr f)) (u32 (nlmsg_size sizeof_nlmsgerr)));
    [lia | reflexivity].
Qed.

Lemma process_frame_dispatch cb dg f s0 s2 :
  reaches_dispatch cb dg f s0 s2 ->
  process_frame cb dg f s0 = dispatch cb dg f s2.
Proof.
  intros (s1 & H1 & H2). unfold Nl.process_frame, seqm, bind.
  rewrite H1, H2. reflexivity.
Qed.

(** A hook that returns OK leaves the record of interruptions alone. *)
Lemma NL_CB_CALL_interrupted cb type s s' :
  NL_CB_CALL cb type s = Proceed tt s' ->
  r_interrupted s' = r_interrupted s.
Proof.
  intros H.
  assert (Hs : flow_state (NL_CB_CALL cb type s) = Some s')
    by (rewrite H; reflexivity).
  apply NL_CB_CALL_log in Hs. destruct Hs as ((_ & _ & Hi & _) & _).
  exact Hi.
Qed.

(** Between the raw hook and the dispatch, lines 629-640 are the only ones
    that record an interruption: they do when the frame carries
    [NLM_F_DUMP_INTR] and no [DUMP_INTR] hook is bound. *)
Lemma frame_checks_interrupted cb f s1 s2 :
  frame_checks cb f s1 = Proceed tt s2 ->
  r_interrupted s2
  = r_interrupted s1
    || (has_flag (nlmsg_flags (rf_hdr f)) NLM_F_DUMP_INTR
        && negb (bound cb NL_CB_DUMP_INTR)).
Proof.
  unfold Nl.frame_checks, seqm, bind.
  destruct (seq_check cb f s1) as [[] sa | | | |] eqn:E1; try discriminate.
  destruct (Nl.seq_advance U f sa) as [[] sb | | | |] eqn:E2;
    try discriminate.
  destruct (Nl.mark_multipart U f sb) as [[] sc | | | |] eqn:E3;
    try discriminate.
  destruct (Nl.dump_intr U arg cb f sc) as [[] sd | | | |] eqn:E4;
    try discriminate.
  intros E5.
  assert (Ha : r_interrupted sa = r_interrupted s1).
  { unfold Nl.seq_check in E1.
    destruct (Nl.bound U arg cb NL_CB_SEQ_CHECK);
      [exact (NL_CB_CALL_interrupted _ _ _ _ E1) |].
    unfold bind, get in E1.
    destruct (negb (has_flag _ _)); [| injection E1 as <-; reflexivity].
    destruct (negb (_ =? _)); [| injection E1 as <-; reflexivity].
    destruct (Nl.bound U arg cb NL_CB_INVALID); [| discriminate].
    exact (NL_CB_CALL_interrupted _ _ _ _ E1). }
  assert (Hb : r_interrupted sb = r_interrupted sa).
  { unfold Nl.seq_advance, when, modify, ret in E2.
    destruct (_ || _); injection E2 as <-; reflexivity. }
  assert (Hc : r_interrupted sc = r_interrupted sb).
  { unfold Nl.mark_multipart, when, modify, ret in E3.
    destruct (has_flag _ _); injection E3 as <-; reflexivity. }
  assert (He : r_interrupted s2 = r_interrupted sd).
  { unfold Nl.send_ack, when, ret in E5.
    destruct (has_flag _ _); [| injection E5 as <-; reflexivity].
    destruct (Nl.bound U arg cb NL_CB_SEND_ACK);
      [| injection E5 as <-; reflexivity].
    exact (NL_CB_CALL_interrupted _ _ _ _ E5). }
  rewrite He, <- Ha, <- Hb, <- Hc.
  unfold Nl.dump_intr, when, modify, ret in E4.
  destruct (has_flag (nlmsg_flags (rf_hdr f)) NLM_F_DUMP_INTR).
  - destruct (Nl.bound U arg cb NL_CB_DUMP_INTR).
    + rewrite (NL_CB_CALL_interrupted _ _ _ _ E4).
      symmetry. apply orb_false_r.
    + injection E4 as <-. symmetry. apply orb_true_r.
  - injection E4 as <-. symmetry. apply orb_false_r.
Qed.

(** C6 (amended): for an ERROR frame with a code that is not zero that
    reaches the dispatch, with an error hook bound, the value [err] the
    hook returns is used as follows. A negative value ends the loop, which
    returns it. SKIP drops the frame and goes on with the next one. STOP
    ends the loop through [out:] with the translated kernel error, as
    when no error hook is bound; it is not a successful end. Any other
    value goes on with the next frame. Where the loop ends here, it
    returns [-NLE_DUMP_INTR] instead when a dump interruption is on
    record at the dispatch; one is on record when an earlier frame of
    the call left one, or when this frame itself carries
    [NLM_F_DUMP_INTR] and no [DUMP_INTR] hook is bound, the flag being
    looked at before the dispatch. *)
Theorem recvmsgs_error_hook :
  forall fuel cb dg s0 s2 h err u',
    let f := dg_buf dg (r_hdr s0) in
    let e := rf_err f in
    nlmsg_ok dm (rf_hdr f) (r_n s0) = true ->
    reaches_dispatch cb dg f s0 s2 ->
    nlmsg_type (rf_hdr f) = NLMSG_ERROR ->
    u32 (nlmsg_size sizeof_nlmsgerr) <= nlmsg_len (rf_hdr f) ->
    e_error e <> 0 ->
    cb_err cb = Some h ->
    h (dg_nla dg) e (cb_err_arg cb) (w_user (r_world s2)) = (err, u') ->
    let s3 := with_world U s2
                (mk_world U u' (w_log (r_world s2) ++ [EvErr (dg_nla dg) e])) in
    let kernel := s32 (- nl_syserr2nlerr (e_error e)) in
    let next :=
      recvmsgs_loop fuel cb (PARSING dg)
        (with_cursor U s3
           (fst (nlmsg_next (r_hdr s3) (rf_hdr f) (r_n s3)))
           (snd (nlmsg_next (r_hdr s3) (rf_hdr f) (r_n s3)))) in
    (err < 0 ->
       recvmsgs_loop (S fuel) cb (PARSING dg) s0
       = Returns (if r_interrupted s2 then - NLE_DUMP_INTR else err)
                 (with_msg U s3 None))
    /\ (err = NL_SKIP -> recvmsgs_loop (S fuel) cb (PARSING dg) s0 = next)
    /\ (err = NL_STOP ->
          recvmsgs_loop (S fuel) cb (PARSING dg) s0
          = Returns (fst (epilogue kernel s3)) (with_msg U s3 None)
          /\ (kernel <> 0 ->
              fst (epilogue kernel s3)
              = if r_interrupted s2 then - NLE_DUMP_INTR else kernel)
          /\ (r_interrupted s2 = true ->
              fst (epilogue kernel s3) = - NLE_DUMP_INTR))
    /\ (0 <= err -> err <> NL_SKIP -> err <> NL_STOP ->
          recvmsgs_loop (S fuel) cb (PARSING dg) s0 = next)
    /\ r_interrupted s2
       = r_interrupted s0
         || (has_flag (nlmsg_flags (rf_hdr f)) NLM_F_DUMP_INTR
             && negb (bound cb NL_CB_DUMP_INTR)).
Proof.
  intros fuel cb dg s0 s2 h err u' f e Hok Hreach Ht Hl He Hcb Hh s3 kernel next.
  assert (Hintr : r_interrupted s2
                  = r_interrupted s0
                    || (has_flag (nlmsg_flags (rf_hdr f)) NLM_F_DUMP_INTR
                        && negb (bound cb NL_CB_DUMP_INTR))).
  { destruct Hreach as (s1 & H1 & H2).
    rewrite (frame_checks_interrupted _ _ _ _ H2).
    destruct (frame_prologue_inv _ _ _ _ _ H1) as (_ & _ & Hin & _).
    rewrite Hin. reflexivity. }
  assert (Hflow : process_frame cb dg f s0
                  = if err <? 0 then GotoOut err s3
                    else if err =? NL_SKIP then GotoSkip s3
                    else if err =? NL_STOP then GotoOut kernel s3
                    else Proceed tt s3).
  { rewrite (process_frame_dispatch _ _ _ _ _ Hreach).
    rewrite (dispatch_error cb dg f Ht Hl He).
    unfold Nl.call_err. rewrite Hcb. fold e. rewrite Hh. reflexivity. }
  repeat apply conj.
  - intros Hneg.
    destruct (Z.ltb_spec err 0) as [_ | ?]; [| lia].
    rewrite (recvmsgs_loop_out fuel cb dg s0 err s3 Hok Hflow).
    rewrite epilogue_error by lia. reflexivity.
  - intros ->. simpl in Hflow.
    apply (recvmsgs_loop_next fuel cb dg s0 _ s3 Hok Hflow). auto.
  - intros ->. simpl in Hflow. split.
    + rewrite (recvmsgs_loop_out fuel cb dg s0 kernel s3 Hok Hflow).
      reflexivity.
    + split.
      * intros Hk. rewrite epilogue_error by exact Hk. reflexivity.
      * intros Hi. unfold Nl.epilogue. subst s3.
        cbn [Nl.r_interrupted Nl.with_msg Nl.with_world fst].
        rewrite Hi. reflexivity.
  - intros Hpos Hskip Hstop.
    destruct (Z.ltb_spec err 0) as [? | _]; [lia |].
    destruct (Z.eqb_spec err NL_SKIP); [contradiction |].
    destruct (Z.eqb_spec err NL_STOP); [contradiction |].
    apply (recvmsgs_loop_next fuel cb dg s0 _ s3 Hok Hflow). auto.
  - exact Hintr.
Qed.

(** What the code does with a kernel ACK when the [ACK] slot is empty: it
    goes on with the next frame. *)
Lemma recvmsgs_ack_unbound fuel cb dg s0 s2 :
  let f := dg_buf dg (r_hdr s0) in
  nlmsg_ok dm (rf_hdr f) (r_n s0) = true ->
  reaches_dispatch cb dg f s0 s2 ->
  nlmsg_type (rf_hdr f) = NLMSG_ERROR ->
  u32 (nlmsg_size sizeof_nlmsgerr) <= nlmsg_len (rf_hdr f) ->
  e_error (rf_err f) = 0 ->
  bound cb NL_CB_ACK = false ->
  recvmsgs_loop (S fuel) cb (PARSING dg) s0
  = recvmsgs_loop fuel cb (PARSING dg)
      (with_cursor U s2
         (fst (nlmsg_next (r_hdr s2) (rf_hdr f) (r_n s2)))
         (snd (nlmsg_next (r_hdr s2) (rf_hdr f) (r_n s2)))).
Proof.
  intros f Hok Hreach Ht Hl He Hb.
  assert (Hflow : process_frame cb dg f s0 = Proceed tt s2).
  { rewrite (process_frame_dispatch _ _ _ _ _ Hreach).
    rewrite (dispatch_ack cb dg f Ht Hl He), Hb. reflexivity. }
  apply (recvmsgs_loop_next fuel cb dg s0 _ s2 Hok Hflow). auto.
Qed.

End Receive.

(** ** Concrete runs *)

Lemma nl_complete_msg_idempotent_witness :
  nl_complete_msg (fst (nl_complete_msg sock blank))
                  (snd (nl_complete_msg sock blank))
  = (fst (nl_complete_msg sock blank), snd (nl_complete_msg sock blank))
  /\ nlmsg_pid (nm_nlh (snd (nl_complete_msg sock blank))) = 1234
  /\ nlmsg_seq (nm_nlh (snd (nl_complete_msg sock blank))) = 7
  /\ s_seq_next (fst (nl_complete_msg sock blank)) = 8.
Proof.
  split; [| repeat split].
  apply (nl_complete_msg_idempotent sock blank); vm_compute; discriminate.
Defined.

Lemma nl_cb_refcount_witness :
  nl_cb_put unit unit {[1%positive := empty_cb]} (Some 1%positive)
  = Ret (delete 1%positive {[1%positive := empty_cb]}).
Proof.
  destruct (nl_cb_refcount unit unit no_fprintf no_header no_dump no_strerror
              errno_table {[1%positive := empty_cb]})
    as (_ & _ & Hput & _).
  destruct (Hput 1%positive empty_cb) as (_ & Hzero & _).
  - reflexivity.
  - apply Hzero. reflexivity.
Defined.

Lemma nl_sendmsg_suppressed_witness :
  nl_sendmsg unit unit errno_table sendmsg_16
    {[1%positive := with_hook empty_cb NL_CB_MSG_OUT NL_SKIP]}
    sock blank (mk_msghdr zero_addr [] None) w0
  = Ret (1, nlmsg_set_src blank (s_local sock),
         mk_world unit tt
           [EvHook NL_CB_MSG_OUT (nlmsg_set_src blank (s_local sock))]).
Proof.
  apply (nl_sendmsg_suppressed unit unit LP64 errno_table sendmsg_16
           {[1%positive := with_hook empty_cb NL_CB_MSG_OUT NL_SKIP]}
           sock blank (mk_msghdr zero_addr [] None) w0
           (with_hook empty_cb NL_CB_MSG_OUT NL_SKIP) (hook NL_SKIP)
           1 (nlmsg_set_src blank (s_local sock)) tt).
  - reflexivity.
  - reflexivity.
  - reflexivity.
  - vm_compute; discriminate.
Defined.

(** C1 (as stated, refuted), on the endpoint [sock], which expects sequence
    number 7 and has automatic ACKs on, with [SEQ_CHECK] unbound. First run:
    no hook bound; a data frame with sequence 7 and the [DUMP_INTR] flag is
    followed by one with sequence 9; the loop returns [-NLE_DUMP_INTR], not
    [-NLE_SEQ_MISMATCH]. Second run: [MSG_IN] returns SKIP and [INVALID] is
    bound; the frame with sequence 9 is dropped by [MSG_IN], the loop
    returns 1 and [INVALID] is never invoked. *)
Lemma recvmsgs_seq_mismatch_fails :
  (exists s,
     run empty_cb 32
         (datagram_of [(0, data_frame 7 NLM_F_DUMP_INTR); (16, data_frame 9 0)])
     = Returns (- NLE_DUMP_INTR) s
     /\ - NLE_DUMP_INTR <> - NLE_SEQ_MISMATCH)
  /\ (exists s,
        run (with_hook (with_hook empty_cb NL_CB_INVALID NL_STOP)
                       NL_CB_MSG_IN NL_SKIP)
            16 (datagram_of [(0, data_frame 9 0)])
        = Returns 1 s
        /\ w_log unit (r_world unit s)
           = [EvHook NL_CB_MSG_IN (converted (data_frame 9 0))]).
Proof.
  split; eexists; (split; [vm_compute; reflexivity |]).
  - discriminate.
  - reflexivity.
Qed.

Lemma recvmsgs_seq_mismatch_witness :
  recvmsgs_loop unit unit LP64 grant errno_table
    (recv_of 16 (datagram_of [(0, data_frame 9 0)])) 1 empty_cb
    (PARSING (datagram_of [(0, data_frame 9 0)])) (at_first_frame 16)
  = Returns (- NLE_SEQ_MISMATCH)
      (with_msg unit
         (with_nrecv unit
            (with_msg unit (at_first_frame 16)
               (Some (converted (data_frame 9 0)))) 1)
         None)
  /\ recvmsgs_loop unit unit LP64 grant errno_table
       (recv_of 16 (datagram_of [(0, data_frame 9 0)])) 1
       (with_hook empty_cb NL_CB_INVALID NL_STOP)
       (PARSING (datagram_of [(0, data_frame 9 0)])) (at_first_frame 16)
     = Returns 1
         (with_msg unit
            (with_world unit
               (with_nrecv unit
                  (with_msg unit (at_first_frame 16)
                     (Some (converted (data_frame 9 0)))) 1)
               (mk_world unit tt
                  [EvHook NL_CB_INVALID (converted (data_frame 9 0))]))
            None).
Proof.
  split.
  - destruct (recvmsgs_seq_mismatch unit unit LP64 grant errno_table
                (recv_of 16 (datagram_of [(0, data_frame 9 0)])) 0 empty_cb
                (datagram_of [(0, data_frame 9 0)]) (at_first_frame 16)
                (with_nrecv unit
                   (with_msg unit (at_first_frame 16)
                      (Some (converted (data_frame 9 0)))) 1))
      as [_ Hunbound].
    + reflexivity.
    + reflexivity.
    + reflexivity.
    + reflexivity.
    + vm_compute; discriminate.
    + exact (proj1 (Hunbound eq_refl)).
  - destruct (recvmsgs_seq_mismatch unit unit LP64 grant errno_table
                (recv_of 16 (datagram_of [(0, data_frame 9 0)])) 0
                (with_hook empty_cb NL_CB_INVALID NL_STOP)
                (datagram_of [(0, data_frame 9 0)]) (at_first_frame 16)
                (with_nrecv unit
                   (with_msg unit (at_first_frame 16)
                      (Some (converted (data_frame 9 0)))) 1))
      as [Hbound _].
    + reflexivity.
    + reflexivity.
    + reflexivity.
    + reflexivity.
    + vm_compute; discriminate.
    + destruct (Hbound eq_refl) as (h & m & Hh & Hm & Hrun).
      injection Hh as <-. injection Hm as <-.
      destruct (Hrun NL_STOP (converted (data_frame 9 0)) tt eq_refl)
        as (_ & _ & Hstop & _).
      exact (Hstop eq_refl).
Defined.

(** C6 (as stated, refuted), on the endpoint [sock]. First run: the error
    hook returns STOP on an ERROR frame with code -2; the loop returns the
    translated kernel error -12, not a count of frames. Second run: a data
    frame with the [DUMP_INTR] flag comes first and the error hook returns
    -7; the loop returns [-NLE_DUMP_INTR], not -7. *)
Lemma recvmsgs_error_hook_fails :
  (exists s,
     run (with_err_hook empty_cb NL_STOP) 36
         (datagram_of [(0, error_frame 7 (-2))])
     = Returns (-12) s)
  /\ (exists s,
        run (with_err_hook empty_cb (-7)) 52
            (datagram_of [(0, data_frame 7 NLM_F_DUMP_INTR);
                          (16, error_frame 7 (-2))])
        = Returns (- NLE_DUMP_INTR) s
        /\ - NLE_DUMP_INTR <> -7).
Proof.
  split.
  - eexists. vm_compute. reflexivity.
  - eexists. split; [vm_compute; reflexivity | discriminate].
Qed.

Lemma recvmsgs_error_hook_witness :
  recvmsgs_loop unit unit LP64 grant errno_table
    (recv_of 36 (datagram_of [(0, error_frame 7 (-2))])) 1
    (with_err_hook empty_cb (-7))
    (PARSING (datagram_of [(0, error_frame 7 (-2))])) (at_first_frame 36)
  = Returns (-7)
      (with_msg unit
         (with_world unit
            (with_sk unit
               (with_nrecv unit
                  (with_msg unit (at_first_frame 36)
                     (Some (converted (error_frame 7 (-2))))) 1)
               (set_seq_expect sock 8))
            (mk_world unit tt
               [EvErr zero_addr (rf_err (error_frame 7 (-2)))]))
         None)
  /\ exists s,
       recvmsgs_loop unit unit LP64 grant errno_table
         (recv_of 36 (datagram_of [(0, Cases.interrupted_error_frame 7 (-2))]))
         1 (with_err_hook empty_cb (-7))
         (PARSING (datagram_of [(0, Cases.interrupted_error_frame 7 (-2))]))
         (at_first_frame 36)
       = Returns (- NLE_DUMP_INTR) s.
Proof.
  split.
  - destruct (recvmsgs_error_hook unit unit LP64 grant errno_table
                (recv_of 36 (datagram_of [(0, error_frame 7 (-2))])) 0
                (with_err_hook empty_cb (-7))
                (datagram_of [(0, error_frame 7 (-2))]) (at_first_frame 36)
                (with_sk unit
                   (with_nrecv unit
                      (with_msg unit (at_first_frame 36)
                         (Some (converted (error_frame 7 (-2))))) 1)
                   (set_seq_expect sock 8))
                (err_hook (-7)) (-7) tt)
      as [Hneg _].
    + reflexivity.
    + exists (with_nrecv unit
                (with_msg unit (at_first_frame 36)
                   (Some (converted (error_frame 7 (-2))))) 1).
      split; vm_compute; reflexivity.
    + reflexivity.
    + vm_compute; discriminate.
    + vm_compute; discriminate.
    + reflexivity.
    + reflexivity.
    + apply Hneg. reflexivity.
  - destruct (recvmsgs_error_hook unit unit LP64 grant errno_table
                (recv_of 36
                   (datagram_of [(0, Cases.interrupted_error_frame 7 (-2))]))
                0 (with_err_hook empty_cb (-7))
                (datagram_of [(0, Cases.interrupted_error_frame 7 (-2))])
                (at_first_frame 36)
                (with_interrupted unit
                   (with_sk unit
                      (with_nrecv unit
                         (with_msg unit (at_first_frame 36)
                            (Some (converted
                                     (Cases.interrupted_error_frame 7 (-2)))))
                         1)
                      (set_seq_expect sock 8))
                   true)
                (err_hook (-7)) (-7) tt)
      as [Hneg _].
    + reflexivity.
    + exists (with_nrecv unit
                (with_msg unit (at_first_frame 36)
                   (Some (converted (Cases.interrupted_error_frame 7 (-2)))))
                1).
      split; vm_compute; reflexivity.
    + reflexivity.
    + vm_compute; discriminate.
    + vm_compute; discriminate.
    + reflexivity.
    + reflexivity.
    + eexists. apply Hneg. reflexivity.
Defined.

(** C7 (the code departs from the claim), on the endpoint [sock]: a kernel
    ACK with sequence 7 is followed in the same datagram by a data frame
    with sequence 8. With the [ACK] slot empty and [VALID] bound, the loop
    does not end at the ACK: it goes on, invokes [VALID] on the data frame
    and returns 2. With [ACK] bound to a hook that returns STOP, the loop
    ends at the ACK, returns 1 and never invokes [VALID]. *)
Theorem recvmsgs_ack_slot_empty :
  (exists s,
     run (with_hook empty_cb NL_CB_VALID NL_OK) 52
         (datagram_of [(0, error_frame 7 0); (36, data_frame 8 0)])
     = Returns 2 s
     /\ w_log unit (r_world unit s)
        = [EvHook NL_CB_VALID (converted (data_frame 8 0))])
  /\ (exists s,
        run (with_hook (with_hook empty_cb NL_CB_VALID NL_OK) NL_CB_ACK NL_STOP)
            52 (datagram_of [(0, error_frame 7 0); (36, data_frame 8 0)])
        = Returns 1 s
        /\ w_log unit (r_world unit s)
           = [EvHook NL_CB_ACK (converted (error_frame 7 0))]).
Proof.
  split; eexists; (split; [vm_compute; reflexivity | reflexivity]).
Qed.

(** The negative count is within reach of the frame loop: a datagram of 17
    octets holds one frame of length 17; [nlmsg_next] leaves -3 octets, and
    the loop takes what lies behind the datagram for a second frame. *)
Lemma recvmsgs_reads_past_datagram :
  exists s,
    run (with_hook empty_cb NL_CB_VALID NL_OK) 17
        (datagram_of
           [(0, mk_raw_frame (mk_nlmsghdr 17 16 0 7 0) [x01]
                             (mk_nlmsgerr 0 zero_hdr));
            (20, data_frame 7 0)])
    = Returns 2 s
    /\ r_n unit s = -19
    /\ length (w_log unit (r_world unit s)) = 2%nat.
Proof.
  eexists. split; [vm_compute; reflexivity |]. split; reflexivity.
Qed.

(** * Further properties of the code *)

(** ** Size calculations and frame iteration (lib/msg.c) *)

(** X1: for a payload length that leaves room for the header within [int],
    the message size is the header plus the payload, the total size is the
    message size rounded up to the next multiple of 4, and the padding is
    what lies between: 0 to 3 octets, none exactly when the payload length
    is a multiple of 4. *)
Theorem nlmsg_size_padding :
  forall payload,
    0 <= payload <= INT_MAX - 19 ->
    nlmsg_msg_size payload = 16 + payload
    /\ nlmsg_total_size payload mod 4 = 0
    /\ nlmsg_msg_size payload <= nlmsg_total_size payload
    /\ nlmsg_padlen payload
       = nlmsg_total_size payload - nlmsg_msg_size payload
    /\ 0 <= nlmsg_padlen payload < 4
    /\ (nlmsg_padlen payload = 0 <-> payload mod 4 = 0).
Proof.
  intros payload Hp. unfold INT_MAX in Hp.
  assert (Hm : nlmsg_msg_size payload = 16 + payload).
  { unfold nlmsg_msg_size. rewrite NLMSG_HDRLEN_16.
    apply s32_id. unfold is_int, INT_MIN, INT_MAX. lia. }
  assert (Ht : nlmsg_total_size payload = 4 * ((16 + payload + 3) / 4)).
  { unfold nlmsg_total_size. rewrite Hm, NLMSG_ALIGN_eq.
    rewrite u32_id by (unfold is_u32; lia).
    apply s32_id. unfold is_int, INT_MIN, INT_MAX.
    Z.div_mod_to_equations. lia. }
  assert (Hpad : nlmsg_padlen payload
                 = nlmsg_total_size payload - nlmsg_msg_size payload).
  { unfold nlmsg_padlen. apply s32_id. rewrite Ht, Hm.
    unfold is_int, INT_MIN, INT_MAX. Z.div_mod_to_equations. lia. }
  rewrite Hpad, Ht, Hm.
  repeat apply conj; Z.div_mod_to_equations; lia.
Qed.

Lemma nlmsg_size_padding_witness :
  nlmsg_msg_size 5 = 16 + 5 /\ nlmsg_total_size 5 = 24 /\ nlmsg_padlen 5 = 3.
Proof.
  destruct (nlmsg_size_padding 5) as (Hm & _ & _ & Hp & _).
  - unfold INT_MAX; lia.
  - split; [exact Hm |]. split; reflexivity.
Defined.

(** X2: on a frame that [nlmsg_ok] accepts within a count of remaining
    octets that is not negative, and that is shorter than 2 GiB,
    [nlmsg_next] moves forward by the aligned frame length, at least 16
    octets, and takes that much off the count. The count left is smaller
    than before and never below -3; it is not negative when the frame
    length is a multiple of 4. *)
Theorem nlmsg_next_advances :
  forall dm pos nlh remaining,
    is_u32 (nlmsg_len nlh) ->
    0 <= remaining <= INT_MAX ->
    nlmsg_len nlh <= INT_MAX - 3 ->
    nlmsg_ok dm nlh remaining = true ->
    let pos' := fst (nlmsg_next pos nlh remaining) in
    let remaining' := snd (nlmsg_next pos nlh remaining) in
    pos' = pos + NLMSG_ALIGN (nlmsg_len nlh)
    /\ pos + 16 <= pos'
    /\ remaining' = remaining - NLMSG_ALIGN (nlmsg_len nlh)
    /\ -3 <= remaining' <= remaining - 16
    /\ (nlmsg_len nlh mod 4 = 0 -> 0 <= remaining').
Proof.
  intros dm pos nlh remaining Hu Hr Hl Hok pos' remaining'.
  rewrite nlmsg_ok_nonneg in Hok by assumption.
  unfold nlmsg_ok_spec in Hok.
  apply andb_prop in Hok. destruct Hok as [Hok H3].
  apply andb_prop in Hok. destruct Hok as [H1 H2].
  apply Z.leb_le in H1, H2, H3.
  unfold INT_MAX in *.
  assert (Ha : NLMSG_ALIGN (nlmsg_len nlh) = 4 * ((nlmsg_len nlh + 3) / 4)).
  { rewrite NLMSG_ALIGN_eq. rewrite u32_id by (unfold is_u32; lia).
    reflexivity. }
  assert (Hb : nlmsg_len nlh <= NLMSG_ALIGN (nlmsg_len nlh)
               <= nlmsg_len nlh + 3).
  { rewrite Ha. Z.div_mod_to_equations. lia. }
  assert (Ht : s32 (NLMSG_ALIGN (nlmsg_len nlh)) = NLMSG_ALIGN (nlmsg_len nlh)).
  { apply s32_id. unfold is_int, INT_MIN, INT_MAX. lia. }
  subst pos' remaining'. unfold nlmsg_next. simpl. rewrite Ht.
  rewrite s32_id by (unfold is_int, INT_MIN, INT_MAX; lia).
  repeat apply conj; try lia.
  intros Hmod. rewrite Ha. Z.div_mod_to_equations. lia.
Qed.

Lemma nlmsg_next_advances_witness :
  fst (nlmsg_next 0 (mk_nlmsghdr 17 16 0 7 0) 40) = 0 + NLMSG_ALIGN 17
  /\ snd (nlmsg_next 0 (mk_nlmsghdr 17 16 0 7 0) 40) = 20.
Proof.
  destruct (nlmsg_next_advances LP64 0 (mk_nlmsghdr 17 16 0 7 0) 40)
    as (Hp & _ & Hr & _).
  - unfold is_u32; simpl; lia.
  - unfold INT_MAX; lia.
  - unfold INT_MAX; simpl; lia.
  - reflexivity.
  - split; [exact Hp | reflexivity].
Defined.

(** ** Credentials and message contents (lib/msg.c) *)

Lemma land_1_s32_lor_1 x : Z.land (s32 (Z.lor x 1)) 1 = 1.
Proof.
  change 1 with (Z.ones 1) at 2. rewrite Z.land_ones by lia.
  change (2 ^ 1) with 2.
  assert (E : s32 (Z.lor x 1) mod 2 = Z.lor x 1 mod 2).
  { unfold s32. Z.div_mod_to_equations. lia. }
  rewrite E, <- Z.bit0_mod, Z.lor_spec. simpl.
  rewrite orb_true_r. reflexivity.
Qed.

Section Contents.

Variable dm : data_model.
Variable mem : Z -> bool.
Variable junk : nat -> byte.

Lemma lookup_realloc_data_old size d (j : nat) :
  (j < size)%nat -> (j < length d)%nat ->
  realloc_data junk size d !! j = d !! j.
Proof.
  intros Hs Hd. unfold realloc_data.
  rewrite lookup_app_l by (rewrite length_take; lia).
  apply lookup_take_lt. lia.
Qed.

Lemma lookup_memset0_before d start count (j : nat) :
  (j < start)%nat -> (start <= length d)%nat ->
  memset0 d start count !! j = d !! j.
Proof.
  intros Hj Hd. unfold memset0.
  rewrite lookup_app_l by (rewrite length_take; lia).
  apply lookup_take_lt. lia.
Qed.

Lemma lookup_memcpy_at_before d start src (j : nat) :
  (j < start)%nat -> (start <= length d)%nat ->
  memcpy_at d start src !! j = d !! j.
Proof.
  intros Hj Hd. unfold memcpy_at.
  rewrite lookup_app_l by (rewrite length_take; lia).
  apply lookup_take_lt. lia.
Qed.

Lemma lookup_memcpy_at_in d start src (j : nat) :
  (start <= length d)%nat -> (j < length src)%nat ->
  memcpy_at d start src !! (start + j)%nat = src !! j.
Proof.
  intros Hd Hj. unfold memcpy_at.
  rewrite lookup_app_r by (rewrite length_take; lia).
  rewrite length_take.
  rewrite lookup_app_l by lia. f_equal. lia.
Qed.

Lemma lookup_memcpy_at_after d start src (j : nat) :
  (start + length src <= j)%nat -> (start + length src <= length d)%nat ->
  memcpy_at d start src !! j = d !! j.
Proof.
  intros Hj Hd. unfold memcpy_at.
  rewrite lookup_app_r by (rewrite length_take; lia).
  rewrite length_take.
  rewrite lookup_app_r by lia.
  rewrite lookup_drop. f_equal. lia.
Qed.

(** X3: credentials stored with [nlmsg_set_creds] are what
    [nlmsg_get_creds] returns, whatever the flags of the message were
    before, and storing them changes nothing else of the message; a
    message fresh from the allocator has none. *)
Theorem nlmsg_creds_round_trip :
  forall msg creds,
    nlmsg_get_creds (nlmsg_set_creds msg creds) = Some creds
    /\ nm_nlh (nlmsg_set_creds msg creds) = nm_nlh msg
    /\ nm_data (nlmsg_set_creds msg creds) = nm_data msg
    /\ nm_protocol (nlmsg_set_creds msg creds) = nm_protocol msg
    /\ nm_src (nlmsg_set_creds msg creds) = nm_src msg
    /\ nm_dst (nlmsg_set_creds msg creds) = nm_dst msg
    /\ (forall len m,
          __nlmsg_alloc mem len = Ret (Some m) -> nlmsg_get_creds m = None).
Proof.
  intros msg creds. repeat apply conj; try reflexivity.
  - unfold nlmsg_get_creds, nlmsg_set_creds, NL_MSG_CRED_PRESENT. simpl.
    rewrite land_1_s32_lor_1. reflexivity.
  - intros len m H. apply __nlmsg_alloc_inv in H. destruct H as [_ ->].
    reflexivity.
Qed.

(** What a successful [nlmsg_append] returns and holds. *)
Lemma nlmsg_append_contents enomem m data n p m1 off :
  is_size dm n -> 0 <= p <= INT_MAX -> n + p <= 2 ^ size_bits dm ->
  is_u32 (nlmsg_len (nm_nlh m)) ->
  n <= Z.of_nat (length data) ->
  nlmsg_len (nm_nlh m) <= buffer_len m ->
  nlmsg_reserve dm mem junk m n p = Ret (m1, Some off) ->
  exists d',
    nlmsg_append dm mem junk enomem m data n p
    = Ret (set_nlh m1 (nm_nlh m1) d', 0)
    /\ off = nlmsg_len (nm_nlh m)
    /\ (forall j, 0 <= j < n ->
          byte_at (set_nlh m1 (nm_nlh m1) d') (off + j) = data !! Z.to_nat j)
    /\ (forall j, n <= j < reserve_tlen dm n p ->
          byte_at (set_nlh m1 (nm_nlh m1) d') (off + j) = Some x00)
    /\ (forall i, 16 <= i < off ->
          byte_at (set_nlh m1 (nm_nlh m1) d') i = byte_at m i)
    /\ length d' = length (nm_data m1).
Proof.
  intros Hn Hp Hfit Hold Hdata Hbuf H.
  destruct (reserve_tlen_bounds dm n p Hn Hp Hfit) as [Htl _].
  pose proof (nlmsg_reserve_buffer_len dm mem junk _ _ _ _ _ Hn Hold H) as Hlen.
  pose proof (nlmsg_reserve_size dm mem junk _ _ _ _ _ Hn Hold H) as Hsz.
  pose proof (fun i => nlmsg_reserve_padding dm mem junk _ _ _ _ _ i Hn Hold H)
    as Hpad.
  pose proof (nlmsg_reserve_inv dm mem junk _ _ _ _ _ H) as Hinv.
  cbv zeta in Hinv. destruct Hinv as (H16 & _ & Hoff & _ & Hd & _).
  rewrite Hsz in Hd. subst off.
  set (old := nlmsg_len (nm_nlh m)) in *.
  set (tlen := reserve_tlen dm n p) in *.
  unfold is_size in Hn. unfold buffer_len in Hlen, Hbuf.
  assert (Hlt : length (take (Z.to_nat n) data) = Z.to_nat n).
  { rewrite length_take. lia. }
  eexists. unfold nlmsg_append. rewrite H.
  destruct (Z.ltb_spec (Z.of_nat (length data)) n); [lia |].
  destruct (Z.ltb_spec (buffer_len m1) (old + n));
    [unfold buffer_len in *; lia |]. simpl.
  split; [reflexivity |]. split; [reflexivity |].
  unfold byte_at. simpl. repeat apply conj.
  - intros j Hj. destruct (Z.ltb_spec (old + j) 16); [lia |].
    replace (Z.to_nat (old + j - 16))
      with (Z.to_nat (old - 16) + Z.to_nat j)%nat by lia.
    rewrite lookup_memcpy_at_in by lia.
    apply lookup_take_lt. lia.
  - intros j Hj. destruct (Z.ltb_spec (old + j) 16); [lia |].
    rewrite lookup_memcpy_at_after by lia.
    specialize (Hpad j Hj). unfold byte_at in Hpad.
    destruct (Z.ltb_spec (old + j) 16); [lia | exact Hpad].
  - intros i Hi. destruct (Z.ltb_spec i 16); [lia |].
    rewrite lookup_memcpy_at_before by lia.
    rewrite Hd.
    destruct (Z.ltb_spec n tlen).
    + rewrite lookup_memset0_before
        by (rewrite ?length_realloc_data; lia).
      apply lookup_realloc_data_old; lia.
    + apply lookup_realloc_data_old; lia.
  - apply length_memcpy_at. lia.
Qed.


(** X4: when the reservation inside [nlmsg_append] succeeds for a padding
    that is not negative and a size that does not wrap around, and the
    caller's buffer holds the [n] octets, the append returns 0 and the
    message then holds the caller's octets at the old end of the message,
    zeros in the padding behind them, and below the old end every octet
    the block held before. *)
Theorem nlmsg_append_stores :
  forall enomem m data n p m1 off,
    is_size dm n -> 0 <= p <= INT_MAX -> n + p <= 2 ^ size_bits dm ->
    is_u32 (nlmsg_len (nm_nlh m)) ->
    n <= Z.of_nat (length data) ->
    nlmsg_len (nm_nlh m) <= buffer_len m ->
    nlmsg_reserve dm mem junk m n p = Ret (m1, Some off) ->
    exists m',
      nlmsg_append dm mem junk enomem m data n p = Ret (m', 0)
      /\ nm_nlh m' = nm_nlh m1
      /\ off = nlmsg_len (nm_nlh m)
      /\ (forall j, 0 <= j < n ->
            byte_at m' (off + j) = data !! Z.to_nat j)
      /\ (forall j, n <= j < reserve_tlen dm n p ->
            byte_at m' (off + j) = Some x00)
      /\ (forall i, 16 <= i < off -> byte_at m' i = byte_at m i).
Proof.
  intros enomem m data n p m1 off Hn Hp Hfit Hold Hdata Hbuf H.
  destruct (nlmsg_append_contents enomem m data n p m1 off
              Hn Hp Hfit Hold Hdata Hbuf H)
    as (d' & Ha & Hoff & Hd & Hz & Hk & _).
  eexists. split; [exact Ha |].
  split; [reflexivity |]. split; [exact Hoff |].
  split; [exact Hd |]. split; [exact Hz | exact Hk].
Qed.

End Contents.

(** ** Callback sets (lib/handlers.c) *)

Section CallbackSets.

Variable U : Type.
Variable arg : Type.
Variable fprintf : FILE arg -> string -> U -> U.
Variable print_header_content : FILE arg -> nlmsghdr -> U -> U.
Variable nl_msg_dump : nl_msg -> FILE arg -> U -> U.
Variable strerror : Z -> string.
Variable nl_syserr2nlerr : Z -> Z.

Local Abbreviation nl_cb := (Handlers.nl_cb U arg).
Local Abbreviation cb_set := (Handlers.cb_set U arg).
Local Abbreviation cb_args := (Handlers.cb_args U arg).
Local Abbreviation cb_err := (Handlers.cb_err U arg).
Local Abbreviation cb_err_arg := (Handlers.cb_err_arg U arg).
Local Abbreviation cb_recvmsgs_ow := (Handlers.cb_recvmsgs_ow U arg).
Local Abbreviation cb_recv_ow := (Handlers.cb_recv_ow U arg).
Local Abbreviation cb_send_ow := (Handlers.cb_send_ow U arg).
Local Abbreviation cb_refcnt := (Handlers.cb_refcnt U arg).
Local Abbreviation set_refcnt := (Handlers.set_refcnt U arg).
Local Abbreviation cb_def :=
  (Handlers.cb_def U arg fprintf print_header_content nl_msg_dump).
Local Abbreviation cb_err_def :=
  (Handlers.cb_err_def U arg fprintf print_header_content strerror
     nl_syserr2nlerr).
Local Abbreviation nl_cb_set :=
  (Handlers.nl_cb_set U arg fprintf print_header_content nl_msg_dump).
Local Abbreviation nl_cb_set_all :=
  (Handlers.nl_cb_set_all U arg fprintf print_header_content nl_msg_dump).
Local Abbreviation nl_cb_err :=
  (Handlers.nl_cb_err U arg fprintf print_header_content strerror
     nl_syserr2nlerr).
Local Abbreviation nl_cb_alloc :=
  (Handlers.nl_cb_alloc U arg fprintf print_header_content nl_msg_dump
     strerror nl_syserr2nlerr).
Local Abbreviation nl_cb_clone :=
  (Handlers.nl_cb_clone U arg fprintf print_header_content nl_msg_dump
     strerror nl_syserr2nlerr).
Local Abbreviation nl_cb_get := (Handlers.nl_cb_get U arg).
Local Abbreviation nl_cb_put := (Handlers.nl_cb_put U arg).

(** The hook a call of [nl_cb_set] or [nl_cb_set_all] of the given kind
    installs in a slot. *)
Local Abbreviation installed k t func :=
  (match k with NL_CB_CUSTOM => func | _ => cb_def t k end).

Lemma type_of_Z_None type :
  type_of_Z type = None <-> type < 0 \/ NL_CB_TYPE_MAX < type.
Proof.
  unfold type_of_Z, NL_CB_TYPE_MAX.
  destruct (Z.ltb_spec type 0); simpl; [split; [lia | reflexivity] |].
  destruct (Z.ltb_spec 10 type); simpl; [split; [lia | reflexivity] |].
  split; [| lia]. intros E. apply lookup_ge_None_1 in E.
  unfold all_types in E. simpl in E. lia.
Qed.

Lemma kind_of_Z_None kind :
  kind_of_Z kind = None <-> kind < 0 \/ NL_CB_KIND_MAX < kind.
Proof.
  unfold kind_of_Z, NL_CB_KIND_MAX.
  destruct (Z.ltb_spec kind 0); simpl; [split; [lia | reflexivity] |].
  destruct (Z.ltb_spec 3 kind); simpl; [split; [lia | reflexivity] |].
  split; [| lia]. intros E. apply lookup_ge_None_1 in E.
  simpl in E. lia.
Qed.

Lemma nl_cb_set_in_range cb type kind func a t k :
  type_of_Z type = Some t -> kind_of_Z kind = Some k ->
  nl_cb_set cb type kind func a
  = (Handlers.set_slot U arg cb t (installed k t func) a, 0).
Proof.
  intros Ht Hk. unfold Handlers.nl_cb_set. rewrite Ht, Hk.
  destruct k; reflexivity.
Qed.

(** X5: [nl_cb_set] returns the negative Range code exactly when the type
    or the kind is out of range, and then leaves the set as it was.
    Otherwise it returns 0 and binds the one slot named: the argument is
    stored there, the hook is the caller's for the kind CUSTOM and the
    preset of the table [cb_def] for the other kinds (possibly none);
    every other slot, the error slot, the overrides and the reference
    count are untouched. *)
Theorem nl_cb_set_slot :
  forall (cb : nl_cb) type kind func a,
    let cb' := fst (nl_cb_set cb type kind func a) in
    let err := snd (nl_cb_set cb type kind func a) in
    (err = - NLE_RANGE <->
       type < 0 \/ NL_CB_TYPE_MAX < type \/ kind < 0 \/ NL_CB_KIND_MAX < kind)
    /\ (err = - NLE_RANGE -> cb' = cb)
    /\ (forall t k,
          type_of_Z type = Some t -> kind_of_Z kind = Some k ->
          err = 0
          /\ cb_set cb' t = installed k t func
          /\ cb_args cb' t = a
          /\ (forall t', t' <> t ->
                cb_set cb' t' = cb_set cb t' /\ cb_args cb' t' = cb_args cb t'))
    /\ cb_err cb' = cb_err cb /\ cb_err_arg cb' = cb_err_arg cb
    /\ cb_recvmsgs_ow cb' = cb_recvmsgs_ow cb
    /\ cb_recv_ow cb' = cb_recv_ow cb
    /\ cb_send_ow cb' = cb_send_ow cb
    /\ cb_refcnt cb' = cb_refcnt cb.
Proof.
  intros cb type kind func a cb' err.
  pose proof (type_of_Z_None type) as HT.
  pose proof (kind_of_Z_None kind) as HK.
  destruct (type_of_Z type) as [t |] eqn:Et.
  - destruct (kind_of_Z kind) as [k |] eqn:Ek.
    + assert (E : nl_cb_set cb type kind func a
                  = (Handlers.set_slot U arg cb t (installed k t func) a, 0))
        by (apply nl_cb_set_in_range; assumption).
      subst cb' err. rewrite E. simpl.
      assert (Hin : ~ (type < 0 \/ NL_CB_TYPE_MAX < type)).
      { intros H. apply HT in H. discriminate. }
      assert (Hik : ~ (kind < 0 \/ NL_CB_KIND_MAX < kind)).
      { intros H. apply HK in H. discriminate. }
      repeat apply conj; try reflexivity.
      * unfold NLE_RANGE. lia.
      * unfold NLE_RANGE. lia.
      * unfold NLE_RANGE. lia.
      * intros t0 k0 [= <-] [= <-]. repeat apply conj; try reflexivity.
        -- destruct (decide (t = t)); [reflexivity | contradiction].
        -- destruct (decide (t = t)); [reflexivity | contradiction].
        -- intros t' Hne. destruct (decide (t' = t)); [contradiction |].
           split; reflexivity.
    + assert (E : nl_cb_set cb type kind func a = (cb, - NLE_RANGE)).
      { unfold Handlers.nl_cb_set. rewrite Et, Ek. reflexivity. }
      subst cb' err. rewrite E. simpl.
      repeat apply conj; try reflexivity.
      * intros _. right. right. apply HK. reflexivity.
      * intros t0 k0 _ [=].
  - assert (E : nl_cb_set cb type kind func a = (cb, - NLE_RANGE)).
    { unfold Handlers.nl_cb_set. rewrite Et. reflexivity. }
    subst cb' err. rewrite E. simpl.
    repeat apply conj; try reflexivity.
    + intros _. assert (type < 0 \/ NL_CB_TYPE_MAX < type)
        by (apply HT; reflexivity). tauto.
    + intros t0 k0 [=].
Qed.

(** X6: [nl_cb_set_all] with a kind in range returns 0 and leaves every
    slot bound as [nl_cb_set] would bind it, all with the same argument:
    to the caller's hook for CUSTOM, to the preset of the kind otherwise.
    With a kind out of range it fails on the first slot with the negative
    Range code and changes nothing. The error slot and the reference
    count are never touched. *)
Theorem nl_cb_set_all_binds :
  forall (cb : nl_cb) kind func a,
    let cb' := fst (nl_cb_set_all cb kind func a) in
    (forall k,
        kind_of_Z kind = Some k ->
        snd (nl_cb_set_all cb kind func a) = 0
        /\ forall t, cb_set cb' t = installed k t func /\ cb_args cb' t = a)
    /\ (kind < 0 \/ NL_CB_KIND_MAX < kind ->
        nl_cb_set_all cb kind func a = (cb, - NLE_RANGE))
    /\ cb_err cb' = cb_err cb /\ cb_err_arg cb' = cb_err_arg cb
    /\ cb_refcnt cb' = cb_refcnt cb.
Proof.
  intros cb kind func a cb'. subst cb'.
  unfold Handlers.nl_cb_set_all.
  change (Z.to_nat (NL_CB_TYPE_MAX + 1)) with 11%nat.
  destruct (kind_of_Z kind) as [k |] eqn:Ek.
  - assert (Hin : ~ (kind < 0 \/ NL_CB_KIND_MAX < kind)).
    { intros H. apply kind_of_Z_None in H. congruence. }
    cbn [Handlers.nl_cb_set_all_from]. unfold Handlers.nl_cb_set.
    rewrite Ek. destruct k; simpl.
    all: repeat apply conj; try reflexivity; try tauto.
    all: intros k [= <-]; split; [reflexivity |].
    all: intros t; destruct t; split; reflexivity.
  - assert (Hout : kind < 0 \/ NL_CB_KIND_MAX < kind)
      by (apply kind_of_Z_None; exact Ek).
    cbn [Handlers.nl_cb_set_all_from]. unfold Handlers.nl_cb_set.
    rewrite Ek. simpl.
    repeat apply conj; try reflexivity. intros k [=].
Qed.

Lemma nl_cb_alloc_value kind k :
  kind_of_Z kind = Some k ->
  let c := fst (nl_cb_err
                  (Handlers.nl_cb_alloc_from U arg fprintf print_header_content
                     nl_msg_dump 11 0 (set_refcnt (Handlers.zero_cb U arg) 1)
                     kind)
                  kind None None) in
  (forall t, cb_set c t = installed k t None /\ cb_args c t = None)
  /\ cb_err c = match k with
                | NL_CB_CUSTOM => None
                | _ => cb_err_def k
                end
  /\ cb_err_arg c = None
  /\ cb_recvmsgs_ow c = None /\ cb_recv_ow c = None
  /\ cb_send_ow c = None
  /\ cb_refcnt c = 1.
Proof.
  intros Ek. cbn [Handlers.nl_cb_alloc_from].
  repeat (erewrite nl_cb_set_in_range; [| reflexivity | exact Ek]).
  unfold Handlers.nl_cb_err. rewrite Ek.
  destruct k; simpl.
  all: split; [intros t; destruct t; split; reflexivity |].
  all: repeat split.
Qed.

(** X7: [nl_cb_alloc] returns NULL and leaves the store alone when the
    kind is out of range or [calloc] fails. With a kind in range and a
    block from [calloc] it does make a set and returns its address, the
    one [calloc] gave. The new set holds a count of 1, no override and
    no argument, and in every slot the preset of the kind: nothing at
    all for DEFAULT and CUSTOM. No other set of the store is touched. *)
Theorem nl_cb_alloc_contents :
  forall (h : gmap positive nl_cb) block kind,
    (kind < 0 \/ NL_CB_KIND_MAX < kind \/ block = None ->
     nl_cb_alloc h block kind = Ret (h, None))
    /\ (forall h' q,
          nl_cb_alloc h block kind = Ret (h', Some q) ->
          exists k c,
            kind_of_Z kind = Some k /\ block = Some q /\ h !! q = None
            /\ h' !! q = Some c
            /\ (forall t, cb_set c t = installed k t None
                          /\ cb_args c t = None)
            /\ cb_err c = match k with
                          | NL_CB_CUSTOM => None
                          | _ => cb_err_def k
                          end
            /\ cb_err_arg c = None
            /\ cb_recvmsgs_ow c = None /\ cb_recv_ow c = None
            /\ cb_send_ow c = None
            /\ cb_refcnt c = 1
            /\ (forall p, p <> q -> h' !! p = h !! p))
    /\ (forall q,
          0 <= kind <= NL_CB_KIND_MAX -> block = Some q -> h !! q = None ->
          exists c, nl_cb_alloc h block kind = Ret (<[q := c]> h, Some q)).
Proof.
  intros h block kind. unfold Handlers.nl_cb_alloc, NL_CB_KIND_MAX.
  change (Z.to_nat (Handlers.NL_CB_TYPE_MAX + 1)) with 11%nat.
  split; [| split].
  3:{ intros q Hk -> Hq.
      destruct (Z.ltb_spec kind 0); [lia |].
      destruct (Z.ltb_spec 3 kind); [lia |].
      cbn [orb]. rewrite Hq. eexists. reflexivity. }
  - intros [H | [H | ->]].
    + destruct (Z.ltb_spec kind 0); [reflexivity | lia].
    + destruct (Z.ltb_spec kind 0); [reflexivity |].
      destruct (Z.ltb_spec 3 kind); [reflexivity | lia].
    + destruct (_ || _); reflexivity.
  - intros h' q.
    destruct (Z.ltb_spec kind 0); simpl; [discriminate |].
    destruct (Z.ltb_spec 3 kind); simpl; [discriminate |].
    destruct block as [p |]; [| discriminate].
    destruct (h !! p) eqn:Ep; [discriminate |].
    intros [= <- <-].
    destruct (kind_of_Z kind) as [k |] eqn:Ek.
    2:{ apply kind_of_Z_None in Ek. unfold NL_CB_KIND_MAX in Ek. lia. }
    pose proof (nl_cb_alloc_value kind k Ek) as Hv. cbv zeta in Hv.
    destruct Hv as (Hs & He & Hea & Ho1 & Ho2 & Ho3 & Hr).
    exists k. eexists.
    split; [reflexivity |]. split; [reflexivity |]. split; [exact Ep |].
    split; [apply lookup_insert_eq |].
    split; [exact Hs |]. split; [exact He |]. split; [exact Hea |].
    split; [exact Ho1 |]. split; [exact Ho2 |]. split; [exact Ho3 |].
    split; [exact Hr |].
    intros p' Hne. apply lookup_insert_ne. congruence.
Qed.

(** X8: every preset handler of the table [cb_def] returns the value the
    table of default return values at the head of lib/handlers.c gives
    for its slot, and hands the message on as it received it. *)
Theorem preset_handlers_follow_table :
  forall t k f,
    cb_def t k = Some f ->
    forall msg a u,
      HandlerDoc.default_return t = Some (fst (fst (f msg a u)))
      /\ snd (fst (f msg a u)) = msg.
Proof.
  intros t k f H msg a u.
  destruct t, k; simpl in H; try discriminate;
    injection H as <-; split; reflexivity.
Qed.

(** What a successful [nl_cb_clone] of a live set leaves in the store. *)
Lemma nl_cb_clone_inv (h h' : gmap positive nl_cb) block orig o q :
  h !! orig = Some o ->
  nl_cb_clone h block orig = Ret (h', Some q) ->
  block = Some q /\ h !! q = None /\ q <> orig
  /\ h' = <[q := set_refcnt o 1]> h.
Proof.
  intros Ho. unfold Handlers.nl_cb_clone.
  destruct (nl_cb_alloc h block 0) as [[h1 [p |]] |] eqn:Ea;
    try discriminate.
  assert (Hb : block = Some p).
  { unfold Handlers.nl_cb_alloc in Ea. destruct (_ || _); [discriminate |].
    destruct block as [p0 |]; [| discriminate].
    destruct (h !! p0); [discriminate |]. congruence. }
  apply nl_cb_alloc_inv in Ea. destruct Ea as (Hfree & c & -> & _).
  assert (Hne : p <> orig) by congruence.
  rewrite lookup_insert_ne by exact Hne. rewrite Ho.
  intros [= <- <-]. repeat split; try assumption.
  apply insert_insert_eq.
Qed.

(** X9: [nl_cb_clone] of a live set returns NULL and changes nothing when
    [calloc] fails; otherwise the clone lives at a fresh address, is the
    original in every slot with a count of 1, the original and every
    other set are as before, and one [nl_cb_put] of the clone gives back
    the store as it was. *)
Theorem nl_cb_clone_copy :
  forall (h : gmap positive nl_cb) block orig o,
    h !! orig = Some o ->
    (block = None -> nl_cb_clone h block orig = Ret (h, None))
    /\ (forall h' q,
          nl_cb_clone h block orig = Ret (h', Some q) ->
          q <> orig /\ h !! q = None
          /\ h' !! q = Some (set_refcnt o 1)
          /\ (forall p, p <> q -> h' !! p = h !! p)
          /\ nl_cb_put h' (Some q) = Ret h).
Proof.
  intros h block orig o Ho. split.
  - intros ->. reflexivity.
  - intros h' q. unfold Handlers.nl_cb_clone.
    destruct (nl_cb_alloc h block 0) as [[h1 [p |]] |] eqn:Ea;
      try discriminate.
    apply nl_cb_alloc_inv in Ea. destruct Ea as (Hfree & c & -> & _).
    assert (Hne : p <> orig) by congruence.
    rewrite lookup_insert_ne by exact Hne. rewrite Ho.
    intros [= <- <-]. repeat apply conj.
    + exact Hne.
    + exact Hfree.
    + apply lookup_insert_eq.
    + intros p' Hp'. rewrite !lookup_insert_ne by congruence. reflexivity.
    + unfold Handlers.nl_cb_put. rewrite lookup_insert_eq. simpl. f_equal.
      rewrite delete_insert_eq, delete_insert_id by exact Hfree.
      reflexivity.
Qed.

(** X10: taking a reference with [nl_cb_get] and giving it back with
    [nl_cb_put] restores the store, for a set whose count is positive and
    below [INT_MAX]. *)
Theorem nl_cb_get_put :
  forall (h : gmap positive nl_cb) p c,
    h !! p = Some c ->
    0 < cb_refcnt c < INT_MAX ->
    exists h1,
      nl_cb_get h p = Ret (h1, p) /\ nl_cb_put h1 (Some p) = Ret h.
Proof.
  intros h p c Hc Hr. unfold INT_MAX in Hr.
  eexists. split.
  - unfold Handlers.nl_cb_get. rewrite Hc. reflexivity.
  - unfold Handlers.nl_cb_put. rewrite lookup_insert_eq. simpl.
    rewrite (s32_id (cb_refcnt c + 1))
      by (unfold is_int, INT_MIN, INT_MAX; lia).
    replace (cb_refcnt c + 1 - 1) with (cb_refcnt c) by lia.
    rewrite (s32_id (cb_refcnt c))
      by (unfold is_int, INT_MIN, INT_MAX; lia).
    destruct (Z.ltb_spec (cb_refcnt c) 0); [lia |].
    destruct (Z.leb_spec (cb_refcnt c) 0); [lia |].
    f_equal. rewrite insert_insert_eq.
    apply insert_id. rewrite Hc. f_equal. destruct c; reflexivity.
Qed.

End CallbackSets.

(** ** Invariants of the receive loop (lib/nl.c) *)

Section LoopInvariants.

Variable U : Type.
Variable arg : Type.
Variable dm : data_model.
Variable mem : Z -> bool.
Variable nl_syserr2nlerr : Z -> Z.
Variable nl_recv : nl_sock -> U -> Z * datagram * U.

Local Abbreviation nl_cb := (Handlers.nl_cb U arg).
Local Abbreviation rstate := (Nl.rstate U).
Local Abbreviation M := (Nl.M U).
Local Abbreviation r_sk := (Nl.r_sk U).
Local Abbreviation r_world := (Nl.r_world U).
Local Abbreviation r_interrupted := (Nl.r_interrupted U).
Local Abbreviation r_multipart := (Nl.r_multipart U).
Local Abbreviation r_nrecv := (Nl.r_nrecv U).
Local Abbreviation r_n := (Nl.r_n U).
Local Abbreviation r_hdr := (Nl.r_hdr U).
Local Abbreviation NL_CB_CALL := (Nl.NL_CB_CALL U arg).
Local Abbreviation process_frame :=
  (Nl.process_frame U arg dm mem nl_syserr2nlerr).
Local Abbreviation epilogue := (Nl.epilogue U).
Local Abbreviation recvmsgs_loop :=
  (Nl.recvmsgs_loop U arg dm mem nl_syserr2nlerr nl_recv).
Local Abbreviation recvmsgs :=
  (Nl.recvmsgs U arg dm mem nl_syserr2nlerr nl_recv).

(** What a step of the loop body keeps: the socket apart from
    [s_seq_expect], a recorded interruption, and the cursor. *)
Local Abbreviation kept s s' :=
  (r_sk s' = set_seq_expect (r_sk s) (s_seq_expect (r_sk s'))
   /\ (r_interrupted s = true -> r_interrupted s' = true)
   /\ r_n s' = r_n s /\ r_hdr s' = r_hdr s).

Local Abbreviation keeps m :=
  (forall (s s' : rstate), flow_state (m s) = Some s' -> kept s s').

Lemma set_seq_expect_same sk : sk = set_seq_expect sk (s_seq_expect sk).
Proof. destruct sk; reflexivity. Qed.

Lemma set_seq_expect_twice sk a b :
  set_seq_expect (set_seq_expect sk a) b = set_seq_expect sk b.
Proof. reflexivity. Qed.

Lemma kept_refl (s : rstate) : kept s s.
Proof. repeat split; [apply set_seq_expect_same | auto]. Qed.

Lemma kept_trans (s1 s2 s3 : rstate) : kept s1 s2 -> kept s2 s3 -> kept s1 s3.
Proof.
  intros (Ha & Hb & Hc & Hd) (Ha' & Hb' & Hc' & Hd').
  repeat split; [| auto | congruence | congruence].
  rewrite Ha', Ha. reflexivity.
Qed.

Lemma kept_same_frame (s s' : rstate) : same_frame s s' -> kept s s'.
Proof.
  intros (Hsk & _ & Hin & _ & Hn & Hh).
  repeat split; [| congruence | exact Hn | exact Hh].
  rewrite Hsk. apply set_seq_expect_same.
Qed.

Lemma keeps_bind {A B} (m : M A) (k : A -> M B) :
  keeps m -> (forall a, keeps (k a)) -> keeps (bind U m k).
Proof.
  intros Hm Hk s s' H. unfold bind in H.
  destruct (m s) as [a s1 | s1 | s1 | err s1 |] eqn:E.
  - apply (kept_trans s s1 s').
    + apply Hm. rewrite E. reflexivity.
    + apply (Hk a). exact H.
  - apply Hm. rewrite E. exact H.
  - apply Hm. rewrite E. exact H.
  - apply Hm. rewrite E. exact H.
  - discriminate.
Qed.

Lemma keeps_seqm {B} (m : M unit) (k : M B) :
  keeps m -> keeps k -> keeps (seqm U m k).
Proof. intros Hm Hk. apply keeps_bind; auto. Qed.

Lemma keeps_ret {A} (a : A) : keeps (ret U a).
Proof. intros s s' [= <-]. apply kept_refl. Qed.

Lemma keeps_goto_out {A} err : keeps (@goto_out U A err).
Proof. intros s s' [= <-]. apply kept_refl. Qed.

Lemma keeps_goto_skip {A} : keeps (@goto_skip U A).
Proof. intros s s' [= <-]. apply kept_refl. Qed.

Lemma keeps_when b (m : M unit) : keeps m -> keeps (when U b m).
Proof. intros Hm. destruct b; [exact Hm | apply keeps_ret]. Qed.

Lemma keeps_modify (f : rstate -> rstate) :
  (forall s, kept s (f s)) -> keeps (modify U f).
Proof. intros Hf s s' [= <-]. apply Hf. Qed.

Lemma keeps_NL_CB_CALL cb type : keeps (NL_CB_CALL cb type).
Proof.
  intros s s' H. apply NL_CB_CALL_log in H. destruct H as [H _].
  apply kept_same_frame. exact H.
Qed.

Lemma kept_simple (s s' : rstate) :
  r_sk s' = r_sk s -> r_interrupted s' = r_interrupted s ->
  r_n s' = r_n s -> r_hdr s' = r_hdr s -> kept s s'.
Proof.
  intros Hsk Hin Hn Hh. repeat split; [| congruence | exact Hn | exact Hh].
  rewrite Hsk. apply set_seq_expect_same.
Qed.

Lemma keeps_frame_prologue cb dg f :
  keeps (Nl.frame_prologue U arg dm mem cb dg f).
Proof.
  unfold Nl.frame_prologue.
  apply keeps_seqm; [apply keeps_modify; intros s; apply kept_simple; reflexivity |].
  apply keeps_seqm; [| apply keeps_when, keeps_NL_CB_CALL].
  intros s s'.
  destruct (nlmsg_convert dm mem f) as [[msg |] |]; try discriminate;
    intros [= <-]; apply kept_simple; reflexivity.
Qed.

Lemma keeps_frame_checks cb f : keeps (Nl.frame_checks U arg cb f).
Proof.
  unfold Nl.frame_checks.
  apply keeps_seqm; [| apply keeps_seqm; [| apply keeps_seqm;
                                             [| apply keeps_seqm]]].
  - unfold Nl.seq_check. destruct (Nl.bound U arg cb NL_CB_SEQ_CHECK);
      [apply keeps_NL_CB_CALL |].
    apply keeps_bind; [intros s s' [= <-]; apply kept_refl |].
    intros s0. destruct (negb _); [| apply keeps_ret].
    destruct (negb _); [| apply keeps_ret].
    destruct (Nl.bound U arg cb NL_CB_INVALID);
      [apply keeps_NL_CB_CALL | apply keeps_goto_out].
  - unfold Nl.seq_advance. apply keeps_when, keeps_modify.
    intros s. repeat split; auto.
  - unfold Nl.mark_multipart. apply keeps_when, keeps_modify.
    intros s. apply kept_simple; reflexivity.
  - unfold Nl.dump_intr. apply keeps_when.
    destruct (Nl.bound U arg cb NL_CB_DUMP_INTR);
      [apply keeps_NL_CB_CALL |].
    apply keeps_modify. intros s.
    split; [apply set_seq_expect_same | repeat split].
  - unfold Nl.send_ack. apply keeps_when, keeps_when, keeps_NL_CB_CALL.
Qed.

Lemma keeps_call_err cb dg e : keeps (Nl.call_err U arg nl_syserr2nlerr cb dg e).
Proof.
  unfold Nl.call_err. destruct (Handlers.cb_err U arg cb) as [h |];
    [| apply keeps_goto_out].
  intros s s'. destruct (h _ _ _ _) as [err u'].
  destruct (err <? 0); [intros [= <-]; apply kept_simple; reflexivity |].
  destruct (err =? NL_SKIP); [intros [= <-]; apply kept_simple; reflexivity |].
  destruct (err =? NL_STOP); intros [= <-]; apply kept_simple; reflexivity.
Qed.

Lemma keeps_dispatch cb dg f :
  keeps (Nl.dispatch U arg nl_syserr2nlerr cb dg f).
Proof.
  unfold Nl.dispatch.
  destruct (_ =? NLMSG_DONE).
  { apply keeps_seqm; [| apply keeps_when, keeps_NL_CB_CALL].
    apply keeps_modify. intros s. apply kept_simple; reflexivity. }
  destruct (_ =? NLMSG_NOOP).
  { destruct (Nl.bound U arg cb NL_CB_SKIPPED);
      [apply keeps_NL_CB_CALL | apply keeps_goto_skip]. }
  destruct (_ =? NLMSG_OVERRUN).
  { destruct (Nl.bound U arg cb NL_CB_OVERRUN);
      [apply keeps_NL_CB_CALL | apply keeps_goto_out]. }
  destruct (_ =? NLMSG_ERROR); [| apply keeps_when, keeps_NL_CB_CALL].
  destruct (_ <? _).
  { destruct (Nl.bound U arg cb NL_CB_INVALID);
      [apply keeps_NL_CB_CALL | apply keeps_goto_out]. }
  destruct (negb _); [apply keeps_call_err |].
  apply keeps_when, keeps_NL_CB_CALL.
Qed.

Lemma keeps_process_frame cb dg f : keeps (process_frame cb dg f).
Proof.
  unfold Nl.process_frame.
  apply keeps_seqm; [apply keeps_frame_prologue |].
  apply keeps_seqm; [apply keeps_frame_checks | apply keeps_dispatch].
Qed.

(** The reader [recvmsgs] uses: the override of the callback set, or
    [nl_recv]. *)
Local Abbreviation reader cb :=
  (match Handlers.cb_recv_ow U arg cb with
   | Some f => f
   | None => nl_recv
   end).

(** Both invariants of the loop, by induction on the fuel. *)
Lemma recvmsgs_loop_inv fuel :
  forall cb ph (s : rstate) v sf,
    recvmsgs_loop fuel cb ph s = Returns v sf ->
    r_sk sf = set_seq_expect (r_sk s) (s_seq_expect (r_sk sf))
    /\ (r_interrupted s = true ->
        v = - NLE_DUMP_INTR
        \/ (v <= 0 /\ exists sk u, fst (fst (reader cb sk u)) = v)).
Proof.
  induction fuel as [| fuel IH]; intros cb ph s v sf H; [discriminate |].
  simpl in H. destruct ph as [| dg].
  - destruct (reader cb (r_sk s) (Nl.w_user U (r_world s)))
      as [[n dg] u'] eqn:Er.
    destruct (Z.leb_spec n 0) as [Hn | Hn].
    + injection H as <- <-. split; [apply set_seq_expect_same |].
      intros _. right. split; [exact Hn |].
      exists (r_sk s), (Nl.w_user U (r_world s)). rewrite Er. reflexivity.
    + apply IH in H. exact H.
  - set (f := dg_buf dg (r_hdr s)) in *.
    destruct (nlmsg_ok dm (rf_hdr f) (r_n s)).
    + pose proof (keeps_process_frame cb dg f s) as Hk.
      destruct (process_frame cb dg f s) as [[] s' | s' | s' | err s' |].
      * specialize (Hk s' eq_refl). destruct Hk as (Hsk & Hin & _).
        apply IH in H. destruct H as [Hsk' Hv]. simpl in Hsk', Hv. split.
        -- rewrite Hsk', Hsk. reflexivity.
        -- intros Hi. apply Hv, Hin, Hi.
      * specialize (Hk s' eq_refl). destruct Hk as (Hsk & Hin & _).
        apply IH in H. destruct H as [Hsk' Hv]. simpl in Hsk', Hv. split.
        -- rewrite Hsk', Hsk. reflexivity.
        -- intros Hi. apply Hv, Hin, Hi.
      * specialize (Hk s' eq_refl). destruct Hk as (Hsk & Hin & _).
        injection H as <- <-. split; [exact Hsk |].
        intros Hi. left. rewrite (Hin Hi). reflexivity.
      * specialize (Hk s' eq_refl). destruct Hk as (Hsk & Hin & _).
        injection H as <- <-. split; [exact Hsk |].
        intros Hi. left. rewrite (Hin Hi). reflexivity.
      * discriminate.
    + simpl in H. destruct (Nl.r_multipart U s).
      * apply IH in H. exact H.
      * injection H as <- <-. split; [apply set_seq_expect_same |].
        intros Hi. left. rewrite Hi. reflexivity.
Qed.

(** X11: whatever the frames and whatever the hooks return, a call of
    [recvmsgs] that returns leaves the socket as it found it apart from
    [s_seq_expect]: addresses, descriptor, protocol, [s_seq_next], flags,
    callback set and buffer size are those of before. (Hooks are taken to
    act on the message and on the state of the user, not on the socket
    behind the back of the loop.) *)
Theorem recvmsgs_keeps_socket :
  forall fuel cb ph (s : rstate) v sf,
    recvmsgs_loop fuel cb ph s = Returns v sf ->
    s_local (r_sk sf) = s_local (r_sk s)
    /\ s_peer (r_sk sf) = s_peer (r_sk s)
    /\ s_fd (r_sk sf) = s_fd (r_sk s)
    /\ s_proto (r_sk sf) = s_proto (r_sk s)
    /\ s_seq_next (r_sk sf) = s_seq_next (r_sk s)
    /\ s_flags (r_sk sf) = s_flags (r_sk s)
    /\ s_cb (r_sk sf) = s_cb (r_sk s)
    /\ s_bufsize (r_sk sf) = s_bufsize (r_sk s).
Proof.
  intros fuel cb ph s v sf H.
  apply recvmsgs_loop_inv in H. destruct H as [-> _].
  repeat split.
Qed.

(** X12: once the loop has recorded a dump interruption (a frame carried
    [NLM_F_DUMP_INTR] and no hook was bound for it), it no longer returns
    a count of messages or any other code: what it returns is
    [-NLE_DUMP_INTR], unless a later read of the same call comes back
    with nothing or with an error, whose value, zero or negative, is then
    returned as it is. *)
Theorem recvmsgs_interrupted_sticky :
  forall fuel cb ph (s : rstate) v sf,
    r_interrupted s = true ->
    recvmsgs_loop fuel cb ph s = Returns v sf ->
    v = - NLE_DUMP_INTR
    \/ (v <= 0 /\ exists sk u, fst (fst (reader cb sk u)) = v).
Proof.
  intros fuel cb ph s v sf Hi H.
  apply recvmsgs_loop_inv in H. destruct H as [_ H]. exact (H Hi).
Qed.

End LoopInvariants.

(** ** What the dispatch does with each frame type (lib/nl.c) *)

Section Dispatch.

Variable U : Type.
Variable arg : Type.
Variable dm : data_model.
Variable mem : Z -> bool.
Variable nl_syserr2nlerr : Z -> Z.
Variable nl_recv : nl_sock -> U -> Z * datagram * U.

Local Abbreviation nl_cb := (Handlers.nl_cb U arg).
Local Abbreviation cb_set := (Handlers.cb_set U arg).
Local Abbreviation cb_args := (Handlers.cb_args U arg).
Local Abbreviation cb_err := (Handlers.cb_err U arg).
Local Abbreviation rstate := (Nl.rstate U).
Local Abbreviation w_log := (Nl.w_log U).
Local Abbreviation w_user := (Nl.w_user U).
Local Abbreviation r_sk := (Nl.r_sk U).
Local Abbreviation r_world := (Nl.r_world U).
Local Abbreviation r_msg := (Nl.r_msg U).
Local Abbreviation r_interrupted := (Nl.r_interrupted U).
Local Abbreviation r_multipart := (Nl.r_multipart U).
Local Abbreviation r_nrecv := (Nl.r_nrecv U).
Local Abbreviation r_n := (Nl.r_n U).
Local Abbreviation r_hdr := (Nl.r_hdr U).
Local Abbreviation bound := (Nl.bound U arg).
Local Abbreviation dispatch := (Nl.dispatch U arg nl_syserr2nlerr).
Local Abbreviation process_frame :=
  (Nl.process_frame U arg dm mem nl_syserr2nlerr).
Local Abbreviation reaches_dispatch := (Nl.reaches_dispatch U arg dm mem).
Local Abbreviation epilogue := (Nl.epilogue U).
Local Abbreviation recvmsgs_loop :=
  (Nl.recvmsgs_loop U arg dm mem nl_syserr2nlerr nl_recv).

(** The loop taken up again at the frame behind [f], from the state [s]
    the body left. *)
Local Abbreviation next_frame fuel cb dg f s :=
  (recvmsgs_loop fuel cb (PARSING dg)
     (with_cursor U s
        (fst (nlmsg_next (r_hdr s) (rf_hdr f) (r_n s)))
        (snd (nlmsg_next (r_hdr s) (rf_hdr f) (r_n s))))).

(** X13: the defaults of the dispatch for frames nobody handles. A NOOP
    frame with no SKIPPED hook is passed over; an OVERRUN frame with no
    OVERRUN hook ends the loop with the negative MsgOverflow code; an
    ERROR frame too short for an error record, with no INVALID hook, ends
    it with the negative MsgTrunc code; an ERROR frame with a code that is
    not zero and no error hook ends it with the translated kernel error.
    In each case the negative DumpInterrupted code takes precedence when
    an interruption was recorded. *)
Theorem recvmsgs_unbound_defaults :
  forall fuel cb dg s0 s2,
    let f := dg_buf dg (r_hdr s0) in
    let kernel := s32 (- nl_syserr2nlerr (e_error (rf_err f))) in
    let fails err :=
      recvmsgs_loop (S fuel) cb (PARSING dg) s0
      = Returns (if r_interrupted s2 then - NLE_DUMP_INTR else err)
                (with_msg U s2 None) in
    nlmsg_ok dm (rf_hdr f) (r_n s0) = true ->
    reaches_dispatch cb dg f s0 s2 ->
    (nlmsg_type (rf_hdr f) = NLMSG_NOOP -> bound cb NL_CB_SKIPPED = false ->
     recvmsgs_loop (S fuel) cb (PARSING dg) s0 = next_frame fuel cb dg f s2)
    /\ (nlmsg_type (rf_hdr f) = NLMSG_OVERRUN ->
        bound cb NL_CB_OVERRUN = false -> fails (- NLE_MSG_OVERFLOW))
    /\ (nlmsg_type (rf_hdr f) = NLMSG_ERROR ->
        nlmsg_len (rf_hdr f) < u32 (nlmsg_size sizeof_nlmsgerr) ->
        bound cb NL_CB_INVALID = false -> fails (- NLE_MSG_TRUNC))
    /\ (nlmsg_type (rf_hdr f) = NLMSG_ERROR ->
        u32 (nlmsg_size sizeof_nlmsgerr) <= nlmsg_len (rf_hdr f) ->
        e_error (rf_err f) <> 0 -> cb_err cb = None ->
        kernel <> 0 -> fails kernel).
Proof.
  intros fuel cb dg s0 s2 f kernel fails Hok Hreach. subst fails.
  pose proof (process_frame_dispatch U arg dm mem nl_syserr2nlerr
                cb dg f s0 s2 Hreach) as Hp.
  repeat apply conj.
  - intros Ht Hb.
    assert (Hflow : process_frame cb dg f s0 = GotoSkip s2).
    { rewrite Hp. unfold Nl.dispatch. rewrite Ht, Hb. reflexivity. }
    apply (recvmsgs_loop_next U arg dm mem nl_syserr2nlerr nl_recv
             fuel cb dg s0 _ s2 Hok Hflow). auto.
  - intros Ht Hb.
    assert (Hflow : process_frame cb dg f s0
                    = GotoOut (- NLE_MSG_OVERFLOW) s2).
    { rewrite Hp. unfold Nl.dispatch. rewrite Ht, Hb. reflexivity. }
    rewrite (recvmsgs_loop_out U arg dm mem nl_syserr2nlerr nl_recv
               fuel cb dg s0 _ s2 Hok Hflow).
    rewrite epilogue_error by (unfold NLE_MSG_OVERFLOW; lia). reflexivity.
  - intros Ht Hl Hb.
    assert (Hflow : process_frame cb dg f s0 = GotoOut (- NLE_MSG_TRUNC) s2).
    { rewrite Hp. unfold Nl.dispatch. rewrite Ht. simpl.
      destruct (Z.ltb_spec (nlmsg_len (rf_hdr f))
                           (u32 (nlmsg_size sizeof_nlmsgerr))); [| lia].
      rewrite Hb. reflexivity. }
    rewrite (recvmsgs_loop_out U arg dm mem nl_syserr2nlerr nl_recv
               fuel cb dg s0 _ s2 Hok Hflow).
    rewrite epilogue_error by (unfold NLE_MSG_TRUNC; lia). reflexivity.
  - intros Ht Hl He Hcb Hk.
    assert (Hflow : process_frame cb dg f s0 = GotoOut kernel s2).
    { rewrite Hp. rewrite (dispatch_error U arg nl_syserr2nlerr cb dg f Ht Hl He).
      unfold Nl.call_err. rewrite Hcb. reflexivity. }
    rewrite (recvmsgs_loop_out U arg dm mem nl_syserr2nlerr nl_recv
               fuel cb dg s0 _ s2 Hok Hflow).
    rewrite epilogue_error by exact Hk. reflexivity.
Qed.

(** X14: a DONE frame ends a multipart batch. When it reaches the
    dispatch with no FINISH hook bound, the multipart mark is cleared,
    whatever earlier frames or the flags of the frame itself had set; if
    it is the last frame of the datagram the loop then returns without
    another read: the count of messages, or the negative DumpInterrupted
    code when an interruption was recorded. *)
Theorem recvmsgs_done_ends_batch :
  forall fuel cb dg s0 s2,
    let f := dg_buf dg (r_hdr s0) in
    let s3 := with_multipart U s2 false in
    let pos := fst (nlmsg_next (r_hdr s2) (rf_hdr f) (r_n s2)) in
    let n := snd (nlmsg_next (r_hdr s2) (rf_hdr f) (r_n s2)) in
    nlmsg_ok dm (rf_hdr f) (r_n s0) = true ->
    reaches_dispatch cb dg f s0 s2 ->
    nlmsg_type (rf_hdr f) = NLMSG_DONE ->
    bound cb NL_CB_FINISH = false ->
    process_frame cb dg f s0 = Proceed tt s3
    /\ (nlmsg_ok dm (rf_hdr (dg_buf dg pos)) n = false ->
        recvmsgs_loop (S (S fuel)) cb (PARSING dg) s0
        = Returns (if r_interrupted s2 then - NLE_DUMP_INTR else r_nrecv s2)
                  (with_msg U (with_cursor U s3 pos n) None)).
Proof.
  intros fuel cb dg s0 s2 f s3 pos n Hok Hreach Ht Hb.
  assert (Hflow : process_frame cb dg f s0 = Proceed tt s3).
  { rewrite (process_frame_dispatch U arg dm mem nl_syserr2nlerr
               cb dg f s0 s2 Hreach).
    unfold Nl.dispatch. rewrite Ht. simpl. unfold seqm, bind, modify, when.
    rewrite Hb. reflexivity. }
  split; [exact Hflow |].
  intros Hend.
  rewrite (recvmsgs_loop_next U arg dm mem nl_syserr2nlerr nl_recv
             (S fuel) cb dg s0 _ s3 Hok Hflow) by auto.
  change (Nl.r_hdr U s3) with (r_hdr s2).
  change (Nl.r_n U s3) with (r_n s2).
  fold f pos n.
  cbn [Nl.recvmsgs_loop].
  change (Nl.r_hdr U (with_cursor U s3 pos n)) with pos.
  change (Nl.r_n U (with_cursor U s3 pos n)) with n.
  rewrite Hend. simpl. destruct (Nl.r_interrupted U s2); reflexivity.
Qed.

(** X15: what the return value of a VALID hook does to the loop. For a
    frame that is none of the four control types and reaches the
    dispatch, the hook is called with the converted message; OK and SKIP
    go on with the next frame, STOP ends the loop with the count of
    messages, and any other value, positive ones included, ends the loop
    and is returned as it is. A recorded interruption turns each of these
    returns into the negative DumpInterrupted code. With no VALID hook
    the frame is passed over. *)
Theorem recvmsgs_valid_hook :
  forall fuel cb dg s0 s2,
    let f := dg_buf dg (r_hdr s0) in
    nlmsg_ok dm (rf_hdr f) (r_n s0) = true ->
    reaches_dispatch cb dg f s0 s2 ->
    nlmsg_type (rf_hdr f) <> NLMSG_DONE ->
    nlmsg_type (rf_hdr f) <> NLMSG_NOOP ->
    nlmsg_type (rf_hdr f) <> NLMSG_OVERRUN ->
    nlmsg_type (rf_hdr f) <> NLMSG_ERROR ->
    (cb_set cb NL_CB_VALID = None ->
     recvmsgs_loop (S fuel) cb (PARSING dg) s0 = next_frame fuel cb dg f s2)
    /\ (forall h msg r msg' u',
          cb_set cb NL_CB_VALID = Some h ->
          r_msg s2 = Some msg ->
          h msg (cb_args cb NL_CB_VALID) (w_user (r_world s2))
          = (r, msg', u') ->
          let s3 :=
            with_msg U
              (with_world U s2
                 (mk_world U u'
                    (w_log (r_world s2) ++ [EvHook NL_CB_VALID msg])))
              (Some msg') in
          let ends v :=
            recvmsgs_loop (S fuel) cb (PARSING dg) s0
            = Returns (if r_interrupted s2 then - NLE_DUMP_INTR else v)
                      (with_msg U s3 None) in
          (r = NL_OK \/ r = NL_SKIP ->
           recvmsgs_loop (S fuel) cb (PARSING dg) s0
           = next_frame fuel cb dg f s3)
          /\ (r = NL_STOP -> ends (r_nrecv s2))
          /\ (r <> NL_OK -> r <> NL_SKIP -> r <> NL_STOP -> ends r)).
Proof.
  intros fuel cb dg s0 s2 f Hok Hreach Hd Hn Ho He.
  apply Z.eqb_neq in Hd, Hn, Ho, He.
  pose proof (process_frame_dispatch U arg dm mem nl_syserr2nlerr
                cb dg f s0 s2 Hreach) as Hp.
  assert (Hdis : dispatch cb dg f
                 = when U (bound cb NL_CB_VALID)
                     (Nl.NL_CB_CALL U arg cb NL_CB_VALID)).
  { unfold Nl.dispatch. rewrite Hd, Hn, Ho, He. reflexivity. }
  rewrite Hdis in Hp. split.
  - intros Hnone.
    assert (Hflow : process_frame cb dg f s0 = Proceed tt s2).
    { rewrite Hp. unfold Nl.bound. rewrite Hnone. reflexivity. }
    apply (recvmsgs_loop_next U arg dm mem nl_syserr2nlerr nl_recv
             fuel cb dg s0 _ s2 Hok Hflow). auto.
  - intros h msg r msg' u' Hh Hmsg Hcall s3 ends. subst ends.
    assert (Hflow : process_frame cb dg f s0
                    = if r =? NL_OK then Proceed tt s3
                      else if r =? NL_SKIP then GotoSkip s3
                      else if r =? NL_STOP then GotoStop s3
                      else GotoOut r s3).
    { rewrite Hp. unfold Nl.bound. rewrite Hh. simpl.
      unfold Nl.NL_CB_CALL, nl_cb_call. rewrite Hmsg, Hh, Hcall.
      reflexivity. }
    repeat apply conj.
    + intros [-> | ->]; simpl in Hflow;
        apply (recvmsgs_loop_next U arg dm mem nl_syserr2nlerr nl_recv
                 fuel cb dg s0 _ s3 Hok Hflow); auto.
    + intros ->. simpl in Hflow.
      cbn [Nl.recvmsgs_loop]. fold f. rewrite Hok, Hflow. simpl.
      destruct (Nl.r_interrupted U s2); reflexivity.
    + intros H1 H2 H3.
      destruct (Z.eqb_spec r NL_OK); [contradiction |].
      destruct (Z.eqb_spec r NL_SKIP); [contradiction |].
      destruct (Z.eqb_spec r NL_STOP); [contradiction |].
      rewrite (recvmsgs_loop_out U arg dm mem nl_syserr2nlerr nl_recv
                 fuel cb dg s0 _ s3 Hok Hflow).
      rewrite epilogue_error by (unfold NL_OK in H1; exact H1).
      reflexivity.
Qed.

End Dispatch.

(** ** Connection management (lib/nl.c) *)

Section Connecting.

Import Connection.

Variable U : Type.
Variable nl_syserr2nlerr : Z -> Z.
Variable sys_socket : Z -> U -> Z * Z * U.
Variable sys_bind : Z -> sockaddr_nl -> U -> Z * Z * U.
Variable sys_getsockname : Z -> U -> Z * Z * sockaddr_nl * Z * U.
Variable sys_close : Z -> U -> U.
Variable nl_socket_set_buffer_size :
  nl_sock -> Z -> Z -> U -> Z * Z * list syscall * U.

Local Abbreviation host := (Connection.host U).
Local Abbreviation errout := (Connection.errout U sys_close).
Local Abbreviation nl_connect :=
  (Connection.nl_connect U nl_syserr2nlerr sys_socket sys_bind
     sys_getsockname sys_close nl_socket_set_buffer_size).
Local Abbreviation nl_close := (Connection.nl_close U sys_close).

(** What [errout:] leaves: no descriptor, and a [close] as the last
    system call when there was one. *)
Lemma errout_closed err sk (w : host) :
  let r := errout err sk w in
  fst (fst r) = err
  /\ s_fd (snd (fst r)) = -1
  /\ s_proto (snd (fst r)) = s_proto sk
  /\ s_seq_next (snd (fst r)) = s_seq_next sk
  /\ s_seq_expect (snd (fst r)) = s_seq_expect sk
  /\ s_cb (snd (fst r)) = s_cb sk
  /\ (s_fd sk <> -1 -> last (h_trace (snd r)) = Some (SysClose (s_fd sk))).
Proof.
  unfold Connection.errout. destruct (Z.eqb_spec (s_fd sk) (-1)) as [E | E];
    simpl.
  - repeat split; try assumption. intros H. contradiction.
  - repeat split. intros _. apply last_snoc.
Qed.

(** X16: [nl_connect] on a socket that has a descriptor returns the
    negative BadSocket code without a system call and without touching
    the socket. On a socket without one it returns 0 exactly when every
    step went well: [socket] gave a descriptor, the buffer sizes, when
    they had to be set, were set, [bind] and [getsockname] succeeded and
    the address stored has the size and the family of a netlink address.
    The socket then holds that descriptor, the protocol asked for and
    the address [getsockname] stored, and the system calls were, in
    order: [socket], those of [nl_socket_set_buffer_size] if it was
    called, [bind], [getsockname]. Otherwise the value is negative, the
    socket has no descriptor and keeps its old protocol, and the
    descriptor [socket] gave, if any, was closed by the last system
    call. The sequence counters and the callback set are never touched.
    The error translator is taken to answer with a positive code, as
    that of lib/error.c does. *)
Theorem nl_connect_outcome :
  forall sk protocol (w : host),
    (forall e, 0 < nl_syserr2nlerr e <= INT_MAX) ->
    let r := nl_connect sk protocol w in
    let a1 := sys_socket protocol (h_user w) in
    let fd := s32 (fst (fst a1)) in
    let tune := Z.land (s_flags sk) NL_SOCK_BUFSIZE_SET =? 0 in
    let a2 := nl_socket_set_buffer_size (set_fd sk fd) 0 0 (snd a1) in
    let a3 := sys_bind fd (s_local sk) (if tune then snd a2 else snd a1) in
    let a4 := sys_getsockname fd (snd a3) in
    let connected :=
      (0 <=? fd) && (negb tune || (0 <=? fst (fst (fst a2))))
      && (0 <=? s32 (fst (fst a3)))
      && (0 <=? s32 (fst (fst (fst (fst a4)))))
      && (snd (fst a4) =? sizeof_sockaddr_nl)
      && (nl_family (snd (fst (fst a4))) =? AF_NETLINK) in
    (s_fd sk <> -1 -> r = (- NLE_BAD_SOCK, sk, w))
    /\ (s_fd sk = -1 -> connected = true ->
        fst (fst r) = 0
        /\ s_fd (snd (fst r)) = fd
        /\ s_proto (snd (fst r)) = protocol
        /\ s_local (snd (fst r)) = snd (fst (fst a4))
        /\ h_trace (snd r)
           = h_trace w
             ++ SysSocket protocol
                :: (if tune then snd (fst a2) else [])
                ++ [SysBind fd (s_local sk); SysGetsockname fd])
    /\ (s_fd sk = -1 -> connected = false ->
        fst (fst r) < 0
        /\ s_fd (snd (fst r)) = -1
        /\ s_proto (snd (fst r)) = s_proto sk
        /\ (fd <> -1 -> last (h_trace (snd r)) = Some (SysClose fd)))
    /\ s_seq_next (snd (fst r)) = s_seq_next sk
    /\ s_seq_expect (snd (fst r)) = s_seq_expect sk
    /\ s_cb (snd (fst r)) = s_cb sk.
Proof.
  intros sk protocol w Hpos r a1 fd tune a2 a3 a4 connected.
  assert (Hneg : forall e, s32 (- nl_syserr2nlerr e) < 0).
  { intros e. specialize (Hpos e). rewrite s32_id; [lia |].
    unfold is_int, INT_MIN, INT_MAX in *. lia. }
  destruct (Z.eqb_spec (s_fd sk) (-1)) as [E | E].
  2:{ subst r. unfold Connection.nl_connect.
      rewrite (proj2 (Z.eqb_neq _ _) E). cbn [negb fst snd].
      repeat split; intros; try contradiction; reflexivity. }
  split; [intros H; contradiction |].
  remember connected as c eqn:Hc. remember r as r0 eqn:Hr.
  subst connected r a4 a3 a2 fd a1 tune.
  unfold Connection.nl_connect in Hr. rewrite E in Hr.
  change (negb (-1 =? -1)) with false in Hr. cbv iota in Hr.
  destruct (sys_socket protocol (h_user w)) as [[fd errno] u].
  cbn [fst snd] in *.
  change (s_fd (set_fd sk (s32 fd))) with (s32 fd) in Hr.
  change (s_flags (set_fd sk (s32 fd))) with (s_flags sk) in Hr.
  change (h_user (issue U (SysSocket protocol) u w)) with u in Hr.
  match goal with
  | |- ?G =>
      assert (Hfail : forall err sk2 (w2 : host),
                 err < 0 -> c = false ->
                 s_fd sk2 = s32 fd -> s_proto sk2 = s_proto sk ->
                 s_seq_next sk2 = s_seq_next sk ->
                 s_seq_expect sk2 = s_seq_expect sk -> s_cb sk2 = s_cb sk ->
                 r0 = errout err sk2 w2 -> G)
  end.
  { intros err sk2 w2 Herr Hf Hfd Hpr Hsn Hse Hcb Hr0.
    destruct (errout_closed err sk2 w2) as (H0 & H1 & H2 & H3 & H4 & H5 & H6).
    rewrite Hfd in H6. rewrite <- Hr0 in *.
    split; [intros _ Ht; congruence |].
    split; [| repeat split; congruence].
    intros _ _. split; [rewrite H0; exact Herr |].
    repeat split; try congruence. exact H6. }
  destruct (Z.ltb_spec (s32 fd) 0) as [Hlt | Hge].
  { rewrite (proj2 (Z.leb_gt _ _) Hlt) in Hc. cbn [andb] in Hc.
    eapply Hfail; [.. | exact Hr];
      [exact (Hneg errno) | exact Hc | reflexivity ..]. }
  rewrite (proj2 (Z.leb_le _ _) Hge) in Hc. cbn [andb] in Hc.
  destruct (Z.land (s_flags sk) NL_SOCK_BUFSIZE_SET =? 0).
  - cbn [negb orb] in Hc.
    destruct (nl_socket_set_buffer_size (set_fd sk (s32 fd)) 0 0 u)
      as [[[err flags] calls] u1].
    cbn [fst snd] in *.
    destruct (Z.ltb_spec err 0) as [He | He].
    { rewrite (proj2 (Z.leb_gt _ _) He) in Hc. cbn [andb] in Hc.
      eapply Hfail; [.. | exact Hr];
        [exact He | exact Hc | reflexivity ..]. }
    rewrite (proj2 (Z.leb_le _ _) He) in Hc. cbn [andb] in Hc.
    change (s_fd (set_flags (set_fd sk (s32 fd)) flags)) with (s32 fd) in Hr.
    change (s_local (set_flags (set_fd sk (s32 fd)) flags))
      with (s_local sk) in Hr.
    cbn [h_user h_trace issue] in Hr.
    destruct (sys_bind (s32 fd) (s_local sk) u1) as [[e2 errno2] u2].
    cbn [fst snd] in *.
    destruct (Z.ltb_spec (s32 e2) 0) as [H2 | H2].
    { rewrite (proj2 (Z.leb_gt _ _) H2) in Hc. cbn [andb] in Hc.
      eapply Hfail; [.. | exact Hr];
        [exact (Hneg errno2) | exact Hc | reflexivity ..]. }
    rewrite (proj2 (Z.leb_le _ _) H2) in Hc. cbn [andb] in Hc.
    destruct (sys_getsockname (s32 fd) u2) as [[[[e3 errno3] addr] alen] u3].
    cbn [fst snd] in *.
    destruct (Z.ltb_spec (s32 e3) 0) as [H3 | H3].
    { rewrite (proj2 (Z.leb_gt _ _) H3) in Hc. cbn [andb] in Hc.
      eapply Hfail; [.. | exact Hr];
        [exact (Hneg errno3) | exact Hc | reflexivity ..]. }
    rewrite (proj2 (Z.leb_le _ _) H3) in Hc. cbn [andb] in Hc.
    destruct (alen =? sizeof_sockaddr_nl); cbn [negb andb] in Hc, Hr.
    2:{ eapply Hfail; [.. | exact Hr];
          [unfold NLE_NOADDR; lia | exact Hc | reflexivity ..]. }
    change (s_local (set_local (set_flags (set_fd sk (s32 fd)) flags) addr)) with addr in Hr.
    destruct (nl_family addr =? AF_NETLINK); cbn [negb andb] in Hc, Hr.
    2:{ eapply Hfail; [.. | exact Hr];
          [unfold NLE_AF_NOSUPPORT; lia | exact Hc | reflexivity ..]. }
    subst r0. cbn [fst snd].
    split; [| split; [intros _ Hf; congruence | repeat split]].
    intros _ _. repeat split.
    unfold issue. cbn [h_trace]. rewrite <- !app_assoc. reflexivity.
  - cbn [negb orb andb] in Hc. change (0 <? 0) with false in Hr.
    cbv iota beta in Hr.
    change (s_fd (set_fd sk (s32 fd))) with (s32 fd) in Hr.
    change (s_local (set_fd sk (s32 fd))) with (s_local sk) in Hr.
    cbn [h_user h_trace issue] in Hr.
    destruct (sys_bind (s32 fd) (s_local sk) u) as [[e2 errno2] u2].
    cbn [fst snd] in *.
    destruct (Z.ltb_spec (s32 e2) 0) as [H2 | H2].
    { rewrite (proj2 (Z.leb_gt _ _) H2) in Hc. cbn [andb] in Hc.
      eapply Hfail; [.. | exact Hr];
        [exact (Hneg errno2) | exact Hc | reflexivity ..]. }
    rewrite (proj2 (Z.leb_le _ _) H2) in Hc. cbn [andb] in Hc.
    destruct (sys_getsockname (s32 fd) u2) as [[[[e3 errno3] addr] alen] u3].
    cbn [fst snd] in *.
    destruct (Z.ltb_spec (s32 e3) 0) as [H3 | H3].
    { rewrite (proj2 (Z.leb_gt _ _) H3) in Hc. cbn [andb] in Hc.
      eapply Hfail; [.. | exact Hr];
        [exact (Hneg errno3) | exact Hc | reflexivity ..]. }
    rewrite (proj2 (Z.leb_le _ _) H3) in Hc. cbn [andb] in Hc.
    destruct (alen =? sizeof_sockaddr_nl); cbn [negb andb] in Hc, Hr.
    2:{ eapply Hfail; [.. | exact Hr];
          [unfold NLE_NOADDR; lia | exact Hc | reflexivity ..]. }
    change (s_local (set_local (set_fd sk (s32 fd)) addr)) with addr in Hr.
    destruct (nl_family addr =? AF_NETLINK); cbn [negb andb] in Hc, Hr.
    2:{ eapply Hfail; [.. | exact Hr];
          [unfold NLE_AF_NOSUPPORT; lia | exact Hc | reflexivity ..]. }
    subst r0. cbn [fst snd].
    split; [| split; [intros _ Hf; congruence | repeat split]].
    intros _ _. repeat split.
    unfold issue. cbn [h_trace]. rewrite <- !app_assoc. reflexivity.
Qed.

(** A connection attempt on a socket without descriptor starts with
    the call of [socket]. *)
Lemma nl_connect_trace sk protocol (w : host) :
  s_fd sk = -1 ->
  exists rest,
    h_trace (snd (nl_connect sk protocol w))
    = h_trace w ++ SysSocket protocol :: rest.
Proof.
  intros E.
  remember (nl_connect sk protocol w) as r eqn:Hr.
  unfold Connection.nl_connect in Hr. rewrite E in Hr. simpl in Hr.
  destruct (sys_socket protocol (h_user w)) as [[fd errno] u].
  assert (Hout : forall err sk3 (w3 : host) r0,
             h_trace w3 = h_trace w ++ SysSocket protocol :: r0 ->
             r = errout err sk3 w3 ->
             exists rest,
               h_trace (snd r) = h_trace w ++ SysSocket protocol :: rest).
  { intros err sk3 w3 r0 Hw ->. unfold Connection.errout.
    destruct (negb _); simpl.
    - exists (r0 ++ [SysClose (s_fd sk3)]).
      rewrite Hw, <- app_assoc. reflexivity.
    - exists r0. exact Hw. }
  simpl in Hr.
  destruct (s32 fd <? 0); [eapply (Hout _ _ _ []); [| exact Hr]; reflexivity |].
  destruct (Z.land (s_flags sk) NL_SOCK_BUFSIZE_SET =? 0).
  - destruct (nl_socket_set_buffer_size _ 0 0 u) as [[[err flags] calls] u1].
    destruct (err <? 0).
    { eapply (Hout _ _ _ calls); [| exact Hr].
      unfold issue. simpl. rewrite <- !app_assoc. reflexivity. }
    simpl in Hr.
    destruct (sys_bind _ _ _) as [[e2 errno2] u2].
    destruct (s32 e2 <? 0).
    { eapply (Hout _ _ _ (calls ++ [_])); [| exact Hr].
      unfold issue. simpl. rewrite <- !app_assoc. reflexivity. }
    simpl in Hr.
    destruct (sys_getsockname _ _) as [[[[e3 errno3] addr] alen] u3].
    assert (Ht : forall u0,
               h_trace (issue U (SysGetsockname (s32 fd)) u0
                          (issue U (SysBind (s32 fd) (s_local sk)) u2
                             (mk_host U u1
                                ((h_trace w ++ [SysSocket protocol])
                                 ++ calls))))
               = h_trace w ++ SysSocket protocol
                   :: (calls ++ [SysBind (s32 fd) (s_local sk);
                                 SysGetsockname (s32 fd)])).
    { intros u0. unfold issue. simpl. rewrite <- !app_assoc. reflexivity. }
    destruct (s32 e3 <? 0); [eapply Hout; [apply Ht | exact Hr] |].
    destruct (negb (alen =? sizeof_sockaddr_nl));
      [eapply Hout; [apply Ht | exact Hr] |].
    destruct (negb _); [eapply Hout; [apply Ht | exact Hr] |].
    subst r. eexists. apply Ht.
  - simpl in Hr.
    destruct (sys_bind _ _ _) as [[e2 errno2] u2].
    destruct (s32 e2 <? 0).
    { eapply (Hout _ _ _ [_]); [| exact Hr].
      unfold issue. simpl. rewrite <- !app_assoc. reflexivity. }
    simpl in Hr.
    destruct (sys_getsockname _ _) as [[[[e3 errno3] addr] alen] u3].
    assert (Ht : forall u0,
               h_trace (issue U (SysGetsockname (s32 fd)) u0
                          (issue U (SysBind (s32 fd) (s_local sk)) u2
                             (issue U (SysSocket protocol) u w)))
               = h_trace w ++ SysSocket protocol
                   :: [SysBind (s32 fd) (s_local sk); SysGetsockname (s32 fd)]).
    { intros u0. unfold issue. simpl. rewrite <- !app_assoc. reflexivity. }
    destruct (s32 e3 <? 0); [eapply Hout; [apply Ht | exact Hr] |].
    destruct (negb (alen =? sizeof_sockaddr_nl));
      [eapply Hout; [apply Ht | exact Hr] |].
    destruct (negb _); [eapply Hout; [apply Ht | exact Hr] |].
    subst r. eexists. apply Ht.
Qed.

(** X17: [nl_close] clears the protocol, and closes and forgets the
    descriptor when there is one; a second [nl_close] issues no system
    call and changes nothing; and on a socket that was open or never
    connected, [nl_connect] after [nl_close] is not turned away: its
    first step is the call of [socket]. *)
Theorem nl_close_idempotent :
  forall sk (w : host),
    let sk1 := fst (nl_close sk w) in
    let w1 := snd (nl_close sk w) in
    s_proto sk1 = 0
    /\ (0 <= s_fd sk ->
        s_fd sk1 = -1 /\ h_trace w1 = h_trace w ++ [SysClose (s_fd sk)])
    /\ (s_fd sk < 0 -> s_fd sk1 = s_fd sk /\ w1 = w)
    /\ nl_close sk1 w1 = (sk1, w1)
    /\ (-1 <= s_fd sk ->
        forall protocol,
          exists rest,
            h_trace (snd (nl_connect sk1 protocol w1))
            = h_trace w1 ++ SysSocket protocol :: rest).
Proof.
  intros sk w. cbv zeta.
  assert (Hfd : -1 <= s_fd sk -> s_fd (fst (nl_close sk w)) = -1).
  { unfold Connection.nl_close.
    destruct (Z.leb_spec 0 (s_fd sk)); simpl; lia. }
  repeat apply conj.
  - unfold Connection.nl_close. destruct (0 <=? s_fd sk); reflexivity.
  - intros H. unfold Connection.nl_close.
    destruct (Z.leb_spec 0 (s_fd sk)); [| lia]. split; reflexivity.
  - intros H. unfold Connection.nl_close.
    destruct (Z.leb_spec 0 (s_fd sk)); [lia |]. simpl.
    split; reflexivity.
  - unfold Connection.nl_close.
    destruct (Z.leb_spec 0 (s_fd sk)); simpl.
    + reflexivity.
    + destruct (Z.leb_spec 0 (s_fd sk)); [lia |]. reflexivity.
  - intros H protocol. apply nl_connect_trace. apply Hfd, H.
Qed.

End Connecting.

(** ** Reading one datagram (lib/nl.c) *)

Section Reading.

Import Connection Reader.

Variable U : Type.
Variable dm : data_model.
Variable nl_syserr2nlerr : Z -> Z.
Variable getpagesize : Z.
Variable cmsg_space_ucred : Z.
Variable sys_recvmsg : recv_call -> U -> recv_reply * U.

Local Abbreviation recv_loop :=
  (Reader.recv_loop U dm nl_syserr2nlerr sys_recvmsg).
Local Abbreviation nl_recv :=
  (Reader.nl_recv U dm nl_syserr2nlerr getpagesize cmsg_space_ucred
     sys_recvmsg).

(** What [nl_recv] returns, told by the last call of [recvmsg] it made. *)
Local Abbreviation told_by sk want_creds n dg call reply :=
  (rc_fd call = s_fd sk
   /\ (((rr_n reply = 0 \/ (rr_n reply < 0 /\ rr_errno reply = EAGAIN))
        /\ n = 0 /\ dg = None)
       \/ (rr_n reply < 0 /\ rr_errno reply <> EINTR
           /\ rr_errno reply <> EAGAIN
           /\ n = s32 (- nl_syserr2nlerr (rr_errno reply)) /\ dg = None)
       \/ (0 < rr_n reply /\ rc_flags call = 0
           /\ usize dm (rr_n reply) <= rc_iov_len call
           /\ has_flag (rr_msg_flags reply) MSG_TRUNC = false
           /\ has_flag (rr_msg_flags reply) MSG_CTRUNC = false
           /\ ((rr_namelen reply <> sizeof_sockaddr_nl
                /\ n = - NLE_NOADDR /\ dg = None)
               \/ (rr_namelen reply = sizeof_sockaddr_nl
                   /\ n = s32 (rr_n reply)
                   /\ dg = Some (mk_datagram (rr_nla reply) (rr_buf reply)
                                   (if want_creds : bool
                                    then find_creds (rr_control reply)
                                    else None))))))).

Lemma recv_loop_told fuel :
  forall sk want_creds flags iov_len controllen namelen u trace n dg u' trace',
    recv_loop fuel sk want_creds flags iov_len controllen namelen u trace
    = RecvReturns n dg u' trace' ->
    exists call reply calls,
      trace' = trace ++ calls
      /\ last calls = Some (call, reply)
      /\ told_by sk want_creds n dg call reply.
Proof.
  induction fuel as [| fuel IH];
    intros sk want_creds flags iov_len controllen namelen u trace
           n dg u' trace' H; [discriminate |].
  cbn [Reader.recv_loop] in H.
  set (call := mk_recv_call (s_fd sk) flags iov_len controllen namelen) in *.
  destruct (sys_recvmsg call u) as [reply u1].
  assert (Hretry : forall fl il cl nm,
             recv_loop fuel sk want_creds fl il cl nm u1
                       (trace ++ [(call, reply)])
             = RecvReturns n dg u' trace' ->
             exists call0 reply0 calls,
               trace' = trace ++ calls
               /\ last calls = Some (call0, reply0)
               /\ told_by sk want_creds n dg call0 reply0).
  { intros fl il cl nm Hl. apply IH in Hl.
    destruct Hl as (c0 & r0 & calls & -> & Hlast & Htold).
    exists c0, r0, ((call, reply) :: calls).
    split; [rewrite <- app_assoc; reflexivity |].
    split; [| exact Htold].
    destruct calls; [discriminate | exact Hlast]. }
  assert (Hhere : forall n0 dg0,
             told_by sk want_creds n0 dg0 call reply ->
             RecvReturns n0 dg0 u1 (trace ++ [(call, reply)])
             = RecvReturns n dg u' trace' ->
             exists call0 reply0 calls,
               trace' = trace ++ calls
               /\ last calls = Some (call0, reply0)
               /\ told_by sk want_creds n dg call0 reply0).
  { intros n0 dg0 Htold [= <- <- <- <-].
    exists call, reply, [(call, reply)].
    split; [reflexivity |]. split; [reflexivity | exact Htold]. }
  destruct (Z.eqb_spec (rr_n reply) 0) as [Hz | Hz].
  { apply (Hhere _ _ ltac:(split; [reflexivity | left; auto]) H). }
  destruct (Z.ltb_spec (rr_n reply) 0) as [Hneg | Hpos].
  { destruct (Z.eqb_spec (rr_errno reply) EINTR) as [Hi | Hi];
      [apply (Hretry _ _ _ _ H) |].
    destruct (Z.eqb_spec (rr_errno reply) EAGAIN) as [Ha | Ha].
    - apply (Hhere _ _ ltac:(split; [reflexivity | left; auto]) H).
    - apply (Hhere _ _
               ltac:(split; [reflexivity | right; left; auto]) H). }
  destruct (has_flag (rr_msg_flags reply) MSG_CTRUNC) eqn:Hct;
    [apply (Hretry _ _ _ _ H) |].
  destruct (Z.ltb_spec iov_len (usize dm (rr_n reply))) as [Hlen | Hlen];
    [apply (Hretry _ _ _ _ H) |].
  destruct (has_flag (rr_msg_flags reply) MSG_TRUNC) eqn:Htr;
    [apply (Hretry _ _ _ _ H) |].
  simpl in H.
  destruct (Z.eqb_spec flags 0) as [Hf | Hf];
    [| apply (Hretry _ _ _ _ H)].
  simpl in H.
  destruct (Z.eqb_spec (rr_namelen reply) sizeof_sockaddr_nl) as [Hn | Hn];
    simpl in H.
  - apply (Hhere _ _
             ltac:(split; [reflexivity |
                           right; right; repeat split;
                           [lia | exact Hf | exact Hlen | right; auto]]) H).
  - apply (Hhere _ _
             ltac:(split; [reflexivity |
                           right; right; repeat split;
                           [lia | exact Hf | exact Hlen | left; auto]]) H).
Qed.

(** X18: what [nl_recv] returns is told by the last [recvmsg] it made,
    on the descriptor of the socket. It returns 0 with the buffer freed
    when that call read nothing or failed with [EAGAIN]; the translated
    negative code when it failed with an [errno] other than [EINTR] and
    [EAGAIN]; and for a call that read something, only if that call was
    made without [MSG_PEEK], the datagram fit the buffer and neither it
    nor the control data were truncated: then the negative NoAddress code
    if the address has the wrong size, and otherwise the length read with
    the buffer, the address and the credentials. A call interrupted by a
    signal is never what it reports. *)
Theorem nl_recv_result :
  forall fuel sk want_creds u n dg u' trace,
    nl_recv fuel sk want_creds u = RecvReturns n dg u' trace ->
    exists call reply,
      last trace = Some (call, reply)
      /\ told_by sk want_creds n dg call reply.
Proof.
  intros fuel sk want_creds u n dg u' trace H.
  unfold Reader.nl_recv in H. apply recv_loop_told in H.
  destruct H as (call & reply & calls & -> & Hlast & Htold).
  exists call, reply. split; [exact Hlast | exact Htold].
Qed.

End Reading.

(** ** Waiting for an acknowledgement (lib/nl.c) *)

Section Waiting.

Import Requests.

Variable U : Type.
Variable arg : Type.
Variable dm : data_model.
Variable mem : Z -> bool.
Variable fprintf : FILE arg -> string -> U -> U.
Variable print_header_content : FILE arg -> nlmsghdr -> U -> U.
Variable nl_msg_dump : nl_msg -> FILE arg -> U -> U.
Variable strerror : Z -> string.
Variable nl_syserr2nlerr : Z -> Z.
Variable nl_recv : nl_sock -> U -> Z * datagram * U.

Local Abbreviation nl_cb := (Handlers.nl_cb U arg).
Local Abbreviation cb_set := (Handlers.cb_set U arg).
Local Abbreviation set_slot := (Handlers.set_slot U arg).
Local Abbreviation set_refcnt := (Handlers.set_refcnt U arg).
Local Abbreviation cb_recvmsgs_ow := (Handlers.cb_recvmsgs_ow U arg).
Local Abbreviation rstate := (Nl.rstate U).
Local Abbreviation world := (Nl.world U).
Local Abbreviation w_log := (Nl.w_log U).
Local Abbreviation w_user := (Nl.w_user U).
Local Abbreviation r_sk := (Nl.r_sk U).
Local Abbreviation r_world := (Nl.r_world U).
Local Abbreviation r_msg := (Nl.r_msg U).
Local Abbreviation r_interrupted := (Nl.r_interrupted U).
Local Abbreviation r_nrecv := (Nl.r_nrecv U).
Local Abbreviation r_n := (Nl.r_n U).
Local Abbreviation r_hdr := (Nl.r_hdr U).
Local Abbreviation reaches_dispatch := (Nl.reaches_dispatch U arg dm mem).
Local Abbreviation process_frame :=
  (Nl.process_frame U arg dm mem nl_syserr2nlerr).
Local Abbreviation recvmsgs_loop :=
  (Nl.recvmsgs_loop U arg dm mem nl_syserr2nlerr nl_recv).
Local Abbreviation recvmsgs :=
  (Nl.recvmsgs U arg dm mem nl_syserr2nlerr nl_recv).
Local Abbreviation nl_recvmsgs :=
  (Nl.nl_recvmsgs U arg dm mem nl_syserr2nlerr nl_recv).
Local Abbreviation ack_wait_handler := (Requests.ack_wait_handler U arg).
Local Abbreviation nl_wait_for_ack :=
  (Requests.nl_wait_for_ack U arg dm mem fprintf print_header_content
     nl_msg_dump strerror nl_syserr2nlerr nl_recv).

(** The callback set [nl_wait_for_ack] receives with: the clone of the
    set of the socket with [ack_wait_handler] bound to ACK. *)
Local Abbreviation waiting_cb o :=
  (set_slot (set_refcnt o 1) NL_CB_ACK (Some ack_wait_handler) None).

Lemma nl_recvmsgs_not_positive fuel (h : gmap positive nl_cb) sk cb w v s :
  nl_recvmsgs fuel h sk cb w = Returns v s -> v <= 0.
Proof.
  unfold Nl.nl_recvmsgs.
  destruct (nl_recvmsgs_report _ _ _ _ _ _ _ _ _ _ _) as [err s' | |];
    try discriminate.
  intros [= <- <-]. destruct (Z.ltb_spec 0 err); lia.
Qed.

(** The steps of [nl_wait_for_ack] once the clone is made. *)
Lemma nl_wait_for_ack_cloned fuel (h : gmap positive nl_cb) p sk w o :
  h !! s_cb sk = Some o -> h !! p = None ->
  nl_wait_for_ack fuel h (Some p) sk w
  = match nl_recvmsgs fuel (<[p := waiting_cb o]> h) sk p w with
    | Returns err s => Waited err h (r_sk s) (r_world s)
    | Aborts => WaitAborts
    | OutOfFuel => WaitOutOfFuel
    end.
Proof.
  intros Ho Hp. unfold Requests.nl_wait_for_ack.
  destruct (nl_cb_clone U arg fprintf print_header_content nl_msg_dump
              strerror nl_syserr2nlerr h (Some p) (s_cb sk))
    as [[h1 [q |]] |] eqn:Ec.
  - destruct (nl_cb_clone_inv U arg fprintf print_header_content nl_msg_dump
                strerror nl_syserr2nlerr h h1 (Some p) (s_cb sk) o q Ho Ec)
      as ([= <-] & _ & _ & ->).
    rewrite lookup_insert_eq.
    erewrite nl_cb_set_in_range; [| reflexivity | reflexivity].
    cbn [fst]. rewrite insert_insert_eq.
    destruct (nl_recvmsgs fuel _ sk p w) as [err s | |]; try reflexivity.
    unfold Handlers.nl_cb_put. rewrite lookup_insert_eq.
    cbn [Handlers.cb_refcnt Handlers.set_refcnt Handlers.set_slot].
    change (s32 (1 - 1)) with 0. cbn [Z.ltb Z.leb Z.compare].
    rewrite delete_insert_id by exact Hp. reflexivity.
  - exfalso. unfold Handlers.nl_cb_clone, Handlers.nl_cb_alloc in Ec.
    cbn [Z.ltb Z.compare orb NL_CB_KIND_MAX] in Ec.
    rewrite Hp in Ec.
    rewrite lookup_insert_ne in Ec by congruence.
    rewrite Ho in Ec. discriminate.
  - exfalso. unfold Handlers.nl_cb_clone, Handlers.nl_cb_alloc in Ec.
    cbn [Z.ltb Z.compare orb NL_CB_KIND_MAX] in Ec.
    rewrite Hp in Ec.
    rewrite lookup_insert_ne in Ec by congruence.
    rewrite Ho in Ec. discriminate.
Qed.

(** X19: [nl_wait_for_ack] returns the negative NoMemory code, without
    reading, when the clone of the socket's callback set cannot be made,
    and never a positive value. When the set of the socket does not
    replace the receive loop, it leaves the store of callback sets as it
    found it (the clone it receives with is released again and the set
    of the socket keeps its count), the socket changes in [s_seq_expect]
    at most, and the value is that of [recvmsgs] run with the hooks of
    the socket and [ack_wait_handler] in the ACK slot, a count of
    messages being turned into 0. Hooks are taken to act on the message
    and on the user's state, not on the socket or on the store of
    callback sets; nothing is said of socket and store for a set that
    replaces the receive loop, since that override is handed both by
    pointer. *)
Theorem nl_wait_for_ack_restores :
  forall fuel (h : gmap positive nl_cb) block sk (w : world) o,
    h !! s_cb sk = Some o ->
    (block = None ->
     nl_wait_for_ack fuel h block sk w = Waited (- NLE_NOMEM) h sk w)
    /\ (forall v h' sk' w',
          nl_wait_for_ack fuel h block sk w = Waited v h' sk' w' -> v <= 0)
    /\ (forall v h' sk' w',
          cb_recvmsgs_ow o = None ->
          nl_wait_for_ack fuel h block sk w = Waited v h' sk' w' ->
          h' = h /\ sk' = set_seq_expect sk (s_seq_expect sk'))
    /\ (forall p,
          block = Some p -> h !! p = None -> cb_recvmsgs_ow o = None ->
          nl_wait_for_ack fuel h block sk w
          = match recvmsgs fuel sk (waiting_cb o) w with
            | Returns err s =>
                Waited (if 0 <? err then 0 else err) h (r_sk s) (r_world s)
            | Aborts => WaitAborts
            | OutOfFuel => WaitOutOfFuel
            end).
Proof.
  intros fuel h block sk w o Ho.
  assert (Hused : forall p c, h !! p = Some c ->
            forall v h' sk' w',
              nl_wait_for_ack fuel h (Some p) sk w <> Waited v h' sk' w').
  { intros p c Hp v h' sk' w'.
    unfold Requests.nl_wait_for_ack, Handlers.nl_cb_clone,
      Handlers.nl_cb_alloc.
    cbn [Z.ltb Z.compare orb NL_CB_KIND_MAX]. rewrite Hp. discriminate. }
  repeat apply conj.
  - intros ->. reflexivity.
  - intros v h' sk' w'. destruct block as [p |].
    + destruct (h !! p) as [c |] eqn:Hp.
      * intros E. destruct (Hused p c Hp _ _ _ _ E).
      * rewrite (nl_wait_for_ack_cloned fuel h p sk w o Ho Hp).
        destruct (nl_recvmsgs fuel _ sk p w) as [err s | |] eqn:Er;
          try discriminate.
        intros [= <- <- <- <-].
        exact (nl_recvmsgs_not_positive _ _ _ _ _ _ _ Er).
    + intros [= <- <- <- <-]. unfold NLE_NOMEM; lia.
  - intros v h' sk' w' Hov. destruct block as [p |].
    + destruct (h !! p) as [c |] eqn:Hp.
      * intros E. destruct (Hused p c Hp _ _ _ _ E).
      * rewrite (nl_wait_for_ack_cloned fuel h p sk w o Ho Hp).
        destruct (nl_recvmsgs fuel _ sk p w) as [err s | |] eqn:Er;
          try discriminate.
        intros [= <- <- <- <-]. split; [reflexivity |].
        unfold Nl.nl_recvmsgs, nl_recvmsgs_report in Er.
        rewrite lookup_insert_eq in Er.
        change (Handlers.cb_recvmsgs_ow U arg (waiting_cb o))
          with (cb_recvmsgs_ow o) in Er.
        rewrite Hov in Er.
        destruct (Nl.recvmsgs U arg dm mem nl_syserr2nlerr nl_recv
                    fuel sk (waiting_cb o) w) as [v0 s0 | |] eqn:E0;
          try discriminate.
        injection Er as _ <-.
        apply recvmsgs_loop_inv in E0. destruct E0 as [E0 _].
        exact E0.
    + intros [= <- <- <- <-]. split; [reflexivity |].
      apply set_seq_expect_same.
  - intros p -> Hp Hov.
    rewrite (nl_wait_for_ack_cloned fuel h p sk w o Ho Hp).
    unfold Nl.nl_recvmsgs, nl_recvmsgs_report.
    rewrite lookup_insert_eq.
    change (Handlers.cb_recvmsgs_ow U arg (waiting_cb o))
      with (cb_recvmsgs_ow o).
    rewrite Hov.
    destruct (Nl.recvmsgs U arg dm mem nl_syserr2nlerr nl_recv
                fuel sk (waiting_cb o) w); reflexivity.
Qed.

(** X20: the ACK that [nl_wait_for_ack] waits for. With the callback set
    it receives with, an ERROR frame carrying the code 0 that reaches the
    dispatch ends the loop at once: [ack_wait_handler] is called on it,
    and the loop returns the count of messages, or the negative
    DumpInterrupted code when an interruption was recorded; no further
    frame of the datagram is looked at. Every slot but ACK is that of
    the socket's own set. *)
Theorem recvmsgs_ack_wait :
  forall fuel (o : nl_cb) dg s0 s2 msg,
    let cb := waiting_cb o in
    let f := dg_buf dg (r_hdr s0) in
    nlmsg_ok dm (rf_hdr f) (r_n s0) = true ->
    reaches_dispatch cb dg f s0 s2 ->
    nlmsg_type (rf_hdr f) = NLMSG_ERROR ->
    u32 (nlmsg_size sizeof_nlmsgerr) <= nlmsg_len (rf_hdr f) ->
    e_error (rf_err f) = 0 ->
    r_msg s2 = Some msg ->
    recvmsgs_loop (S fuel) cb (PARSING dg) s0
    = Returns (if r_interrupted s2 then - NLE_DUMP_INTR else r_nrecv s2)
        (with_msg U
           (with_world U s2
              (mk_world U (w_user (r_world s2))
                 (w_log (r_world s2) ++ [EvHook NL_CB_ACK msg])))
           None)
    /\ (forall t, t <> NL_CB_ACK -> cb_set cb t = cb_set o t).
Proof.
  intros fuel o dg s0 s2 msg cb f Hok Hreach Ht Hl He Hmsg. split.
  - assert (Hflow : process_frame cb dg f s0
                    = GotoStop
                        (with_msg U
                           (with_world U s2
                              (mk_world U (w_user (r_world s2))
                                 (w_log (r_world s2)
                                  ++ [EvHook NL_CB_ACK msg])))
                           (Some msg))).
    { rewrite (process_frame_dispatch U arg dm mem nl_syserr2nlerr
                 cb dg f s0 s2 Hreach).
      rewrite (dispatch_ack U arg nl_syserr2nlerr cb dg f Ht Hl He).
      assert (Hb : Nl.bound U arg cb NL_CB_ACK = true) by reflexivity.
      rewrite Hb. unfold Nl.NL_CB_CALL, nl_cb_call. rewrite Hmsg.
      reflexivity. }
    cbn [Nl.recvmsgs_loop]. fold f. rewrite Hok, Hflow. simpl.
    destruct (Nl.r_interrupted U s2); reflexivity.
  - intros t Hne. simpl. destruct (decide (t = NL_CB_ACK));
      [contradiction | reflexivity].
Qed.

End Waiting.

(** ** A request built and sent in one call (lib/nl.c) *)

Section SendSimple.

Import Requests.

Variable U : Type.
Variable arg : Type.
Variable dm : data_model.
Variable mem : Z -> bool.
Variable junk : nat -> byte.
Variable nl_errno_ENOMEM : Z.
Variable nl_syserr2nlerr : Z -> Z.
Variable sys_sendmsg : Z -> msghdr -> nl_msg -> U -> Z * Z * U.

Local Abbreviation nl_cb := (Handlers.nl_cb U arg).
Local Abbreviation cb_set := (Handlers.cb_set U arg).
Local Abbreviation cb_send_ow := (Handlers.cb_send_ow U arg).
Local Abbreviation world := (Nl.world U).
Local Abbreviation w_log := (Nl.w_log U).
Local Abbreviation w_user := (Nl.w_user U).
Local Abbreviation nl_send_auto :=
  (Nl.nl_send_auto U arg dm nl_syserr2nlerr sys_sendmsg).
Local Abbreviation nl_send_simple :=
  (Requests.nl_send_simple U arg dm mem junk nl_errno_ENOMEM
     nl_syserr2nlerr sys_sendmsg).

Lemma reserve_tlen_align4 size :
  0 <= size -> size + 3 < 2 ^ 32 ->
  reserve_tlen dm size NLMSG_ALIGNTO = NLMSG_ALIGN size.
Proof.
  intros H0 Hs. pose proof (pow2_size_ge dm) as Hp.
  change NLMSG_ALIGNTO with (2 ^ 2).
  rewrite reserve_tlen_pow2 by (change (2 ^ 2) with 4; lia).
  rewrite NLMSG_ALIGN_eq, u32_id by (unfold is_u32; lia).
  reflexivity.
Qed.

Lemma nlmsg_alloc_simple_granted type flags :
  mem 16 = true ->
  nlmsg_alloc_simple dm mem type flags
  = Ret (Some (mk_nl_msg (-1) 0 zero_addr zero_addr zero_ucred
                 (mk_nlmsghdr 16 (u16 type) (u16 flags) 0 0) [])).
Proof.
  intros Hm. unfold nlmsg_alloc_simple, nlmsg_inherit.
  rewrite (nlmsg_alloc_granted dm mem Hm). reflexivity.
Qed.

(** The flags auto-completion leaves in a header whose flags fit 16
    bits. *)
Local Abbreviation completed_flags sk flags :=
  (if Z.land (s_flags sk) NL_NO_AUTO_ACK =? 0
   then u16 (Z.lor (u16 (Z.lor (u16 flags) NLM_F_REQUEST)) NLM_F_ACK)
   else u16 (Z.lor (u16 flags) NLM_F_REQUEST)).

(** Sending a message that is complete but for the automatic fields,
    through a socket whose set has neither a send override nor a
    [MSG_OUT] hook. *)
Lemma nl_send_auto_plain (h : gmap positive nl_cb) sk (w : world) cb
    len type flags d :
  h !! s_cb sk = Some cb ->
  cb_send_ow cb = None -> cb_set cb NL_CB_MSG_OUT = None ->
  is_u32 len ->
  let m := mk_nl_msg (s_proto sk) 0 (s_local sk) zero_addr zero_ucred
             (mk_nlmsghdr len (u16 type) (completed_flags sk flags)
                (s_seq_next sk) (nl_pid (s_local sk))) d in
  let hdr := mk_msghdr (s_peer sk) [mk_iovec msg_block len] None in
  nl_send_auto h sk
    (mk_nl_msg (-1) 0 zero_addr zero_addr zero_ucred
       (mk_nlmsghdr len (u16 type) (u16 flags) 0 0) d) w
  = Ret (let '(n, errno, _) := sys_sendmsg (s_fd sk) hdr m (w_user w) in
         if s32 n <? 0 then s32 (- nl_syserr2nlerr errno) else s32 n,
         set_seq_next sk (u32 (s_seq_next sk + 1)), m,
         mk_world U
           (snd (sys_sendmsg (s_fd sk) hdr m (w_user w)))
           (w_log w ++ [EvSendmsg (s_fd sk) hdr m])).
Proof.
  intros Hcb How Hout Hlen m hdr.
  unfold Nl.nl_send_auto. rewrite Hcb.
  assert (Hc : nl_complete_msg sk
                 (mk_nl_msg (-1) 0 zero_addr zero_addr zero_ucred
                    (mk_nlmsghdr len (u16 type) (u16 flags) 0 0) d)
               = (set_seq_next sk (u32 (s_seq_next sk + 1)),
                  mk_nl_msg (s_proto sk) 0 zero_addr zero_addr zero_ucred
                    (mk_nlmsghdr len (u16 type) (completed_flags sk flags)
                       (s_seq_next sk) (nl_pid (s_local sk))) d)).
  { unfold nl_complete_msg. simpl.
    destruct (Z.land (s_flags sk) NL_NO_AUTO_ACK =? 0); reflexivity. }
  rewrite Hc, How.
  unfold Nl.nl_send, nl_send_iovec, Nl.nl_sendmsg.
  change (s_cb (set_seq_next sk (u32 (s_seq_next sk + 1)))) with (s_cb sk).
  rewrite Hcb, Hout.
  unfold do_sendmsg, nlmsg_set_src, nlmsg_get_dst, nlmsg_get_creds,
    nlmsg_hdr.
  cbn [nm_protocol nm_flags nm_src nm_dst nm_creds nm_nlh nm_data
       nlmsg_len nl_family zero_addr].
  change (0 =? AF_NETLINK) with false. cbv iota.
  change (s_peer (set_seq_next sk (u32 (s_seq_next sk + 1)))) with (s_peer sk).
  change (s_fd (set_seq_next sk (u32 (s_seq_next sk + 1)))) with (s_fd sk).
  change (s_local (set_seq_next sk (u32 (s_seq_next sk + 1))))
    with (s_local sk).
  cbn [nlmsg_hdr nm_nlh nlmsg_len nlmsg_get_creds nm_flags nlmsg_set_src
       nm_protocol nm_src nm_creds nm_data].
  change (Z.land 0 NL_MSG_CRED_PRESENT =? 0) with true. cbv iota.
  rewrite (usize_id dm len) by (apply u32_is_size; exact Hlen).
  fold m hdr.
  destruct (sys_sendmsg (s_fd sk) hdr m (w_user w)) as [[n errno] u'].
  cbn [snd]. destruct (s32 n <? 0); reflexivity.
Qed.

(** What [nl_send_simple] returns when it hands the transport a frame of
    [len] octets with the payload [d]: the result of the transport (the
    octets written, or the translated negative code), the socket with
    one sequence number used, and the world with the datagram logged. *)
Local Abbreviation on_wire sk w len type flags d :=
  (let m := mk_nl_msg (s_proto sk) 0 (s_local sk) zero_addr zero_ucred
              (mk_nlmsghdr len (u16 type) (completed_flags sk flags)
                 (s_seq_next sk) (nl_pid (s_local sk))) d in
   let hdr := mk_msghdr (s_peer sk) [mk_iovec msg_block len] None in
   Ret (let '(n, errno, _) := sys_sendmsg (s_fd sk) hdr m (w_user w) in
        if s32 n <? 0 then s32 (- nl_syserr2nlerr errno) else s32 n,
        set_seq_next sk (u32 (s_seq_next sk + 1)),
        mk_world U (snd (sys_sendmsg (s_fd sk) hdr m (w_user w)))
          (w_log w ++ [EvSendmsg (s_fd sk) hdr m]))).

(** X21: the frame [nl_send_simple] puts on the wire, through a socket
    whose callback set has neither a send override nor a [MSG_OUT] hook.
    When the message cannot be allocated it returns the negative NoMemory
    code, and when the payload cannot be appended the code of the append;
    in both cases nothing is sent and no sequence number is used. Without
    payload (NULL buffer or size 0) it sends the bare header of 16
    octets. With a payload it sends one datagram of 16 octets plus the
    size rounded up to a multiple of 4, to the peer of the socket: the
    header carries that length, the type and flags given (16 bits each)
    with REQUEST and, unless disabled, ACK, the next sequence number of
    the socket and its local port; behind it lie the caller's octets,
    then zeros. *)
Theorem nl_send_simple_wire :
  forall (h : gmap positive nl_cb) sk type flags buf size (w : world) cb,
    h !! s_cb sk = Some cb ->
    cb_send_ow cb = None -> cb_set cb NL_CB_MSG_OUT = None ->
    (mem 16 = false ->
     nl_send_simple h sk type flags buf size w = Ret (- NLE_NOMEM, sk, w))
    /\ (forall data,
          buf = Some data -> mem 16 = true -> size <> 0 ->
          mem (usize dm (16 + reserve_tlen dm size NLMSG_ALIGNTO)) = false ->
          nl_errno_ENOMEM < 0 ->
          nl_send_simple h sk type flags buf size w
          = Ret (nl_errno_ENOMEM, sk, w))
    /\ (mem 16 = true -> buf = None \/ size = 0 ->
        nl_send_simple h sk type flags buf size w
        = on_wire sk w 16 type flags [])
    /\ (forall data,
          buf = Some data -> mem 16 = true ->
          0 < size -> size + 19 < 2 ^ 32 ->
          size <= Z.of_nat (length data) ->
          mem (16 + NLMSG_ALIGN size) = true ->
          exists d,
            nl_send_simple h sk type flags buf size w
            = on_wire sk w (16 + NLMSG_ALIGN size) type flags d
            /\ length d = Z.to_nat (NLMSG_ALIGN size)
            /\ (forall j, 0 <= j < size ->
                  d !! Z.to_nat j = data !! Z.to_nat j)
            /\ (forall j, size <= j < NLMSG_ALIGN size ->
                  d !! Z.to_nat j = Some x00)).
Proof.
  intros h sk type flags buf size w cb Hcb How Hout.
  assert (Hbare : mem 16 = true ->
            match nl_send_auto h sk
                    (mk_nl_msg (-1) 0 zero_addr zero_addr zero_ucred
                       (mk_nlmsghdr 16 (u16 type) (u16 flags) 0 0) []) w with
            | NoReturn => NoReturn
            | Ret (err, sk', _, w') => Ret (err, sk', w')
            end = on_wire sk w 16 type flags []).
  { intros _.
    rewrite (nl_send_auto_plain h sk w cb 16 type flags [] Hcb How Hout)
      by (unfold is_u32; lia).
    reflexivity. }
  repeat apply conj.
  - intros Hm. unfold Requests.nl_send_simple, nlmsg_alloc_simple,
      nlmsg_inherit, nlmsg_alloc.
    assert (E : usize dm (nlmsg_total_size 0) = 16)
      by (destruct dm; reflexivity).
    rewrite E. unfold __nlmsg_alloc. rewrite Hm. reflexivity.
  - intros data -> Hm Hs Hno Hneg.
    unfold Requests.nl_send_simple.
    rewrite (nlmsg_alloc_simple_granted type flags Hm).
    destruct (Z.eqb_spec size 0); [contradiction |]. cbn [negb].
    unfold nlmsg_append, nlmsg_reserve.
    cbn [nm_nlh nlmsg_len]. rewrite Hno. cbn [negb].
    destruct (Z.ltb_spec nl_errno_ENOMEM 0); [reflexivity | lia].
  - intros Hm Hb. unfold Requests.nl_send_simple.
    rewrite (nlmsg_alloc_simple_granted type flags Hm).
    destruct Hb as [-> | ->]; [exact (Hbare Hm) |].
    destruct buf; exact (Hbare Hm).
  - intros data -> Hm Hpos Hfit Hdata Hgrant.
    pose proof (pow2_size_ge dm) as Hp2.
    assert (Ht : reserve_tlen dm size NLMSG_ALIGNTO = NLMSG_ALIGN size)
      by (apply reserve_tlen_align4; lia).
    assert (Ha : size <= NLMSG_ALIGN size <= size + 3).
    { rewrite NLMSG_ALIGN_eq, u32_id by (unfold is_u32; lia).
      Z.div_mod_to_equations. lia. }
    set (m0 := mk_nl_msg (-1) 0 zero_addr zero_addr zero_ucred
                 (mk_nlmsghdr 16 (u16 type) (u16 flags) 0 0) []).
    assert (Hsz : usize dm (16 + NLMSG_ALIGN size) = 16 + NLMSG_ALIGN size)
      by (apply usize_id; unfold is_size; lia).
    destruct (nlmsg_reserve_granted dm mem junk m0 size NLMSG_ALIGNTO)
      as [d Hres].
    { cbn [m0 nm_nlh nlmsg_len]. rewrite Ht, Hsz. exact Hgrant. }
    { cbn [m0 nm_nlh nlmsg_len]. lia. }
    { cbn [m0 nm_nlh nlmsg_len]. rewrite Ht, Hsz. lia. }
    cbn [m0 nm_nlh nlmsg_len] in Hres. rewrite Ht in Hres.
    rewrite (u32_id (16 + NLMSG_ALIGN size)) in Hres
      by (unfold is_u32; lia).
    destruct (nlmsg_append_contents dm mem junk nl_errno_ENOMEM m0 data size
                NLMSG_ALIGNTO _ _
                ltac:(unfold is_size; lia)
                ltac:(unfold NLMSG_ALIGNTO, INT_MAX; lia)
                ltac:(unfold NLMSG_ALIGNTO; lia)
                ltac:(unfold is_u32; cbn; lia)
                Hdata
                ltac:(unfold buffer_len; cbn; lia)
                Hres)
      as (d' & Happ & _ & Hd & Hz & _ & Hdl).
    rewrite Ht in Hz.
    assert (Hlen : length d' = Z.to_nat (NLMSG_ALIGN size)).
    { pose proof (nlmsg_reserve_buffer_len dm mem junk m0 size NLMSG_ALIGNTO
                    _ _ ltac:(unfold is_size; lia)
                    ltac:(unfold is_u32; cbn; lia) Hres) as Hb.
      rewrite Ht in Hb. unfold buffer_len in Hb. cbn in Hb.
      rewrite Hdl. cbn. lia. }
    exists d'.
    unfold Requests.nl_send_simple.
    rewrite (nlmsg_alloc_simple_granted type flags Hm).
    destruct (Z.eqb_spec size 0); [lia |]. cbn [negb].
    fold m0. rewrite Happ. cbn [Z.ltb Z.compare].
    split; [| split; [| split]].
    + change (nl_send_auto h sk _ w)
        with (nl_send_auto h sk
                (mk_nl_msg (-1) 0 zero_addr zero_addr zero_ucred
                   (mk_nlmsghdr (16 + NLMSG_ALIGN size) (u16 type)
                      (u16 flags) 0 0) d') w).
      rewrite (nl_send_auto_plain h sk w cb (16 + NLMSG_ALIGN size)
                 type flags d' Hcb How Hout)
        by (unfold is_u32; lia).
      reflexivity.
    + exact Hlen.
    + intros j Hj. specialize (Hd j Hj). unfold byte_at in Hd.
      destruct (Z.ltb_spec (16 + j) 16); [lia |].
      replace (16 + j - 16) with j in Hd by lia. exact Hd.
    + intros j Hj. specialize (Hz j Hj). unfold byte_at in Hz.
      destruct (Z.ltb_spec (16 + j) 16); [lia |].
      replace (16 + j - 16) with j in Hz by lia. exact Hz.
Qed.

End SendSimple.

(** ** Headers, converted frames and attribute streams (lib/msg.c) *)

Section Headers.

Import Payload.

Variable dm : data_model.
Variable mem : Z -> bool.
Variable junk : nat -> byte.

(** The size [nlmsg_put] reserves for a positive payload. *)
Lemma nlmsg_put_tlen payload :
  0 < payload <= INT_MAX - 3 ->
  reserve_tlen dm (usize dm payload) NLMSG_ALIGNTO = NLMSG_ALIGN payload.
Proof.
  intros H. unfold INT_MAX in H.
  pose proof (pow2_size_ge dm) as Hp2.
  rewrite (usize_id dm payload) by (unfold is_size; lia).
  change NLMSG_ALIGNTO with (2 ^ 2).
  rewrite (reserve_tlen_pow2 dm payload 2) by (change (2 ^ 2) with 4; lia).
  rewrite NLMSG_ALIGN_eq, (u32_id (payload + 3)) by (unfold is_u32; lia).
  reflexivity.
Qed.

(** X22: [nlmsg_put] asserts that the message holds a header. On a
    message that does, it overwrites type and flags (16 bits of each),
    port and sequence number, and this before anything can fail; then it
    returns. With a payload that is not positive it returns the header,
    length and contents as they were. With a positive payload whose
    reservation is refused it returns NULL, the header already
    overwritten. With a positive payload that is granted and fits, it
    returns the header, the length grown by the payload rounded up to a
    multiple of 4. *)
Theorem nlmsg_put_header :
  forall m pid seq type payload flags,
    let len := nlmsg_len (nm_nlh m) in
    let hdr := mk_nlmsghdr len (u16 type) (u16 flags) seq pid in
    (len < 16 ->
     nlmsg_put dm mem junk m pid seq type payload flags = NoReturn)
    /\ (forall m' ok,
          nlmsg_put dm mem junk m pid seq type payload flags = Ret (m', ok) ->
          nlmsg_type (nm_nlh m') = u16 type
          /\ nlmsg_flags (nm_nlh m') = u16 flags
          /\ nlmsg_pid (nm_nlh m') = pid
          /\ nlmsg_seq (nm_nlh m') = seq
          /\ (payload <= 0 ->
              ok = true /\ nlmsg_len (nm_nlh m') = nlmsg_len (nm_nlh m)
              /\ nm_data m' = nm_data m)
          /\ (ok = false ->
              0 < payload /\ nlmsg_len (nm_nlh m') = nlmsg_len (nm_nlh m)
              /\ nm_data m' = nm_data m)
          /\ (ok = true -> 0 < payload -> payload <= INT_MAX - 3 ->
              nlmsg_len (nm_nlh m')
              = u32 (nlmsg_len (nm_nlh m) + NLMSG_ALIGN payload)))
    /\ (16 <= len -> payload <= 0 ->
        nlmsg_put dm mem junk m pid seq type payload flags
        = Ret (set_nlh m hdr (nm_data m), true))
    /\ (16 <= len -> 0 < payload ->
        mem (usize dm
               (len + reserve_tlen dm (usize dm payload) NLMSG_ALIGNTO))
        = false ->
        nlmsg_put dm mem junk m pid seq type payload flags
        = Ret (set_nlh m hdr (nm_data m), false))
    /\ (16 <= len -> 0 < payload <= INT_MAX - 3 ->
        mem (usize dm (len + NLMSG_ALIGN payload)) = true ->
        len <= usize dm (len + NLMSG_ALIGN payload) ->
        exists d,
          nlmsg_put dm mem junk m pid seq type payload flags
          = Ret (set_nlh m
                   (set_nlmsg_len hdr (u32 (len + NLMSG_ALIGN payload))) d,
                 true)).
Proof.
  intros m pid seq type payload flags len hdr. subst len hdr.
  unfold nlmsg_put.
  rewrite NLMSG_HDRLEN_16. change (u32 16) with 16.
  split; [| split; [| split; [| split]]].
  - intros H. destruct (Z.ltb_spec (nlmsg_len (nm_nlh m)) 16);
      [reflexivity | lia].
  - intros m' ok.
    destruct (Z.ltb_spec (nlmsg_len (nm_nlh m)) 16); [discriminate |].
    destruct (Z.ltb_spec 0 payload) as [Hpos | Hnon].
    + set (n1 := set_nlh m _ (nm_data m)).
      destruct (nlmsg_reserve dm mem junk n1 (usize dm payload) NLMSG_ALIGNTO)
        as [[n2 [off |]] |] eqn:Er; try discriminate.
      * intros [= <- <-].
        apply nlmsg_reserve_inv in Er. cbv zeta in Er.
        destruct Er as (_ & _ & _ & Hh & _).
        rewrite Hh. subst n1.
        cbn [nlmsg_type nlmsg_flags nlmsg_pid nlmsg_seq nlmsg_len nm_nlh
             set_nlmsg_len set_nlh nm_data].
        repeat split; try discriminate; try lia.
        intros _ _ Hmax.
        rewrite nlmsg_put_tlen by lia. reflexivity.
      * intros [= <- <-].
        apply nlmsg_reserve_null in Er. subst n2. cbn.
        repeat split; try discriminate; try lia.
    + intros [= <- <-]. cbn.
      repeat split; try discriminate; try lia.
  - intros H16 Hnon.
    destruct (Z.ltb_spec (nlmsg_len (nm_nlh m)) 16); [lia |].
    destruct (Z.ltb_spec 0 payload); [lia | reflexivity].
  - intros H16 Hpos Hmem.
    destruct (Z.ltb_spec (nlmsg_len (nm_nlh m)) 16); [lia |].
    destruct (Z.ltb_spec 0 payload); [| lia].
    unfold nlmsg_reserve.
    cbn [nlmsg_len nm_nlh set_nlh]. rewrite Hmem. reflexivity.
  - intros H16 Hpay Hmem Hfit.
    destruct (Z.ltb_spec (nlmsg_len (nm_nlh m)) 16); [lia |].
    destruct (Z.ltb_spec 0 payload); [| lia].
    set (n1 := set_nlh m _ (nm_data m)).
    destruct (nlmsg_reserve_granted dm mem junk n1 (usize dm payload)
                NLMSG_ALIGNTO) as [d Hd].
    + rewrite nlmsg_put_tlen by exact Hpay. exact Hmem.
    + exact H16.
    + rewrite nlmsg_put_tlen by exact Hpay. exact Hfit.
    + rewrite Hd. rewrite nlmsg_put_tlen by exact Hpay.
      exists d. reflexivity.
Qed.

(** X23: [nlmsg_convert] of a frame that holds a header yields a copy
    of the frame: the header is the frame's, every payload octet within
    the frame's own length is the frame's, the octets between that length
    and the aligned length are zero, the protocol is unset and there are
    no credentials. When the block is refused the result is NULL. *)
Theorem nlmsg_convert_copies :
  forall f,
    let len := nlmsg_len (rf_hdr f) in
    16 <= len ->
    (mem (usize dm (NLMSG_ALIGN len)) = false ->
     nlmsg_convert dm mem f = Ret None)
    /\ (forall m,
          nlmsg_convert dm mem f = Ret (Some m) ->
          nm_nlh m = rf_hdr f
          /\ nm_protocol m = -1
          /\ nlmsg_get_creds m = None
          /\ (forall i, 16 <= i < len ->
                byte_at m i = rf_data f !! Z.to_nat (i - 16))
          /\ (forall i, len <= i < NLMSG_ALIGN len ->
                byte_at m i = Some x00)).
Proof.
  intros f len Hhdr. split.
  - intros Hm. unfold nlmsg_convert, __nlmsg_alloc. fold len.
    rewrite Hm. reflexivity.
  - intros m H.
    pose proof (nlmsg_convert_lengths dm mem f m H) as (Hbuf & _ & Hh & Hle).
    fold len in Hbuf, Hle.
    unfold nlmsg_convert in H. fold len in H.
    destruct (__nlmsg_alloc mem (usize dm (NLMSG_ALIGN len)))
      as [[nm |] |] eqn:Ea; try discriminate.
    apply __nlmsg_alloc_inv in Ea. destruct Ea as [H16 ->].
    destruct (Z.ltb_spec (NLMSG_ALIGN len) len); [discriminate |].
    destruct (Z.ltb_spec (Z.of_nat (length (rf_data f))) (len - 16));
      [discriminate |].
    cbn [orb] in H. injection H as <-.
    unfold buffer_len in Hbuf. cbn in Hbuf.
    rewrite length_app, length_take, length_drop, length_replicate in Hbuf.
    split; [reflexivity |]. split; [reflexivity |]. split; [reflexivity |].
    unfold byte_at. cbn. split.
    + intros i Hi. destruct (Z.ltb_spec i 16); [lia |].
      rewrite lookup_app_l by (rewrite length_take; lia).
      apply lookup_take_lt. lia.
    + intros i Hi. destruct (Z.ltb_spec i 16); [lia |].
      rewrite lookup_app_r by (rewrite length_take; lia).
      rewrite length_take, lookup_drop.
      apply lookup_replicate_2. lia.
Qed.

End Headers.

Section AttributeStreams.

Import Payload.

Variable nla_parse : Z -> Z -> Z -> Z.
Variable nla_validate : Z -> Z -> Z -> Z.
Variable nl_errno_EINVAL : Z.

Local Abbreviation nlmsg_parse :=
  (Payload.nlmsg_parse nla_parse nl_errno_EINVAL).
Local Abbreviation nlmsg_validate :=
  (Payload.nlmsg_validate nla_validate nl_errno_EINVAL).

(** X24: [nlmsg_parse] and [nlmsg_validate] turn away, with the code of
    an invalid argument and without looking at any attribute, a frame
    shorter than the header plus the family header. Any other frame is
    handed to the attribute parser with the stream that starts behind the
    aligned family header and ends where the frame ends. The length
    given is what is left of the frame there; the check is made on the
    unaligned family header, so that length can be negative, by up to 3,
    when the family header length is not a multiple of 4. *)
Theorem nlmsg_parse_attributes :
  forall nlh hdrlen maxtype,
    is_u32 (nlmsg_len nlh) -> nlmsg_len nlh <= INT_MAX ->
    0 <= hdrlen <= INT_MAX - 19 ->
    let alen := nlmsg_len nlh - 16 - NLMSG_ALIGN hdrlen in
    (nlmsg_len nlh < 16 + hdrlen ->
     nlmsg_parse nlh hdrlen maxtype = nl_errno_EINVAL
     /\ nlmsg_validate nlh hdrlen maxtype = nl_errno_EINVAL)
    /\ (16 + hdrlen <= nlmsg_len nlh ->
        nlmsg_parse nlh hdrlen maxtype
        = nla_parse maxtype (16 + NLMSG_ALIGN hdrlen) alen
        /\ nlmsg_validate nlh hdrlen maxtype
           = nla_validate (16 + NLMSG_ALIGN hdrlen) alen maxtype
        /\ -3 <= alen
        /\ (hdrlen mod 4 = 0 -> 0 <= alen)
        /\ 16 + NLMSG_ALIGN hdrlen + alen = nlmsg_len nlh).
Proof.
  intros nlh hdrlen maxtype Hu Hmax Hh alen.
  unfold INT_MAX in *. unfold is_u32 in Hu.
  assert (Hsz : u32 (nlmsg_msg_size hdrlen) = 16 + hdrlen).
  { unfold nlmsg_msg_size. rewrite NLMSG_HDRLEN_16.
    rewrite s32_id by (unfold is_int, INT_MIN, INT_MAX; lia).
    apply u32_id. unfold is_u32. lia. }
  assert (Ha : NLMSG_ALIGN hdrlen = 4 * ((hdrlen + 3) / 4)).
  { rewrite NLMSG_ALIGN_eq, u32_id by (unfold is_u32; lia). reflexivity. }
  assert (Hb : hdrlen <= NLMSG_ALIGN hdrlen <= hdrlen + 3).
  { rewrite Ha. Z.div_mod_to_equations. lia. }
  unfold Payload.nlmsg_parse, Payload.nlmsg_validate. rewrite Hsz. split.
  - intros Hshort.
    destruct (Z.ltb_spec (nlmsg_len nlh) (16 + hdrlen)); [| lia].
    split; reflexivity.
  - intros Hlong.
    destruct (Z.ltb_spec (nlmsg_len nlh) (16 + hdrlen)); [lia |].
    assert (Hal : nlmsg_attrlen nlh hdrlen = alen).
    { unfold nlmsg_attrlen, nlmsg_payload_len. rewrite NLMSG_HDRLEN_16.
      rewrite (s32_id (nlmsg_len nlh - 16))
        by (unfold is_int, INT_MIN, INT_MAX; lia).
      apply s32_id. unfold is_int, INT_MIN, INT_MAX. lia. }
    assert (Had : nlmsg_attrdata hdrlen = 16 + NLMSG_ALIGN hdrlen).
    { unfold nlmsg_attrdata, nlmsg_data. rewrite NLMSG_HDRLEN_16.
      reflexivity. }
    rewrite Hal, Had. subst alen.
    repeat split; try lia.
    intros Hmod. rewrite Ha. Z.div_mod_to_equations. lia.
Qed.

End AttributeStreams.

(** ** Where a message is sent (lib/nl.c) *)

Section Addressing.

Variable U : Type.
Variable arg : Type.
Variable dm : data_model.
Variable nl_syserr2nlerr : Z -> Z.
Variable sys_sendmsg : Z -> msghdr -> nl_msg -> U -> Z * Z * U.

Local Abbreviation nl_cb := (Handlers.nl_cb U arg).
Local Abbreviation cb_set := (Handlers.cb_set U arg).
Local Abbreviation world := (Nl.world U).
Local Abbreviation w_log := (Nl.w_log U).
Local Abbreviation w_user := (Nl.w_user U).
Local Abbreviation nl_send :=
  (Nl.nl_send U arg dm nl_syserr2nlerr sys_sendmsg).

(** The result of [nl_send] when the transport is given [hdr] and [m]. *)
Local Abbreviation sent sk w hdr m :=
  (Ret (let '(n, errno, _) := sys_sendmsg (s_fd sk) hdr m (w_user w) in
        if s32 n <? 0 then s32 (- nl_syserr2nlerr errno) else s32 n,
        m,
        mk_world U (snd (sys_sendmsg (s_fd sk) hdr m (w_user w)))
          (w_log w ++ [EvSendmsg (s_fd sk) hdr m]))).

Lemma nl_send_plain (h : gmap positive nl_cb) sk msg (w : world) cb :
  h !! s_cb sk = Some cb -> cb_set cb NL_CB_MSG_OUT = None ->
  is_u32 (nlmsg_len (nm_nlh msg)) ->
  nl_send h sk msg w
  = sent sk w
      (mk_msghdr (if nl_family (nm_dst msg) =? AF_NETLINK
                  then nm_dst msg else s_peer sk)
         [mk_iovec msg_block (nlmsg_len (nm_nlh msg))]
         (nlmsg_get_creds msg))
      (nlmsg_set_src msg (s_local sk)).
Proof.
  intros Hcb Hout Hlen.
  unfold Nl.nl_send, nl_send_iovec, Nl.nl_sendmsg. rewrite Hcb, Hout.
  unfold do_sendmsg, nlmsg_get_dst, nlmsg_hdr.
  rewrite (usize_id dm _ (u32_is_size dm _ Hlen)).
  destruct (sys_sendmsg _ _ _ _) as [[n errno] u'].
  cbn [snd]. destruct (s32 n <? 0); reflexivity.
Qed.

(** X25: where [nl_send] sends, through a socket whose callback set has
    no [MSG_OUT] hook. The datagram is the block of the message in its
    header length, stamped with the local address of the socket as
    source. A destination of the netlink family set with [nlmsg_set_dst]
    overrides the peer of the socket, and credentials set with
    [nlmsg_set_creds] travel as control data; a message with neither goes
    to the peer without control data. The value returned is the count
    the transport reports, or the translated negative code when the
    transport fails. *)
Theorem nl_send_addressing :
  forall (h : gmap positive nl_cb) sk msg (w : world) cb,
    h !! s_cb sk = Some cb -> cb_set cb NL_CB_MSG_OUT = None ->
    is_u32 (nlmsg_len (nm_nlh msg)) ->
    let iov := [mk_iovec msg_block (nlmsg_len (nm_nlh msg))] in
    (forall dst creds,
        nl_family dst = AF_NETLINK ->
        let out := nlmsg_set_creds (nlmsg_set_dst msg dst) creds in
        nl_send h sk out w
        = sent sk w (mk_msghdr dst iov (Some creds))
            (nlmsg_set_src out (s_local sk)))
    /\ (nl_family (nm_dst msg) <> AF_NETLINK ->
        nlmsg_get_creds msg = None ->
        nl_send h sk msg w
        = sent sk w (mk_msghdr (s_peer sk) iov None)
            (nlmsg_set_src msg (s_local sk))).
Proof.
  intros h sk msg w cb Hcb Hout Hlen iov. split.
  - intros dst creds Hfam out.
    rewrite (nl_send_plain h sk out w cb Hcb Hout) by exact Hlen.
    subst out. cbn [nlmsg_set_creds nlmsg_set_dst nm_dst nm_nlh].
    apply Z.eqb_eq in Hfam. rewrite Hfam.
    unfold nlmsg_get_creds, NL_MSG_CRED_PRESENT.
    change (nm_flags (nlmsg_set_creds (nlmsg_set_dst msg dst) creds))
      with (s32 (Z.lor (nm_flags msg) 1)).
    rewrite land_1_s32_lor_1. reflexivity.
  - intros Hfam Hnone.
    rewrite (nl_send_plain h sk msg w cb Hcb Hout) by exact Hlen.
    apply Z.eqb_neq in Hfam. rewrite Hfam, Hnone. reflexivity.
Qed.

End Addressing.

(** ** Message flags as text (lib/msg.c) *)

Section FlagText.

Import Translations.

Variable dm : data_model.

Local Abbreviation room := (Translations.room dm).
Local Abbreviation PRINT_FLAG := (Translations.PRINT_FLAG dm).
Local Abbreviation print_flags := (Translations.print_flags dm).
Local Abbreviation flags2str_with := (Translations.flags2str_with dm).
Local Abbreviation nl_nlmsg_flags2str := (Translations.nl_nlmsg_flags2str dm).

(** A buffer of [len] octets holds the text and its terminator. *)
Local Abbreviation fits len buf := (strlen buf <= len - 1).

Lemma strncat_fits len buf src :
  is_size dm len -> fits len buf -> fits len (strncat buf src (room len buf)).
Proof.
  intros Hl Hb. unfold strncat, Translations.room, strlen in *.
  unfold is_size in Hl.
  rewrite usize_id by (unfold is_size; lia).
  rewrite length_app, length_take. lia.
Qed.

Lemma PRINT_FLAG_fits len f name st :
  is_size dm len -> fits len (snd st) ->
  fits len (snd (PRINT_FLAG len f name st)).
Proof.
  intros Hl Hb. unfold Translations.PRINT_FLAG. destruct st as [flags buf].
  destruct (negb (Z.land flags f =? 0)); [| exact Hb].
  cbn [snd] in *.
  destruct (negb (Z.land flags (Z.lnot f) =? 0)).
  - apply strncat_fits; [exact Hl |]. apply strncat_fits; assumption.
  - apply strncat_fits; assumption.
Qed.

Lemma print_flags_fits len table :
  forall st,
    is_size dm len -> fits len (snd st) ->
    fits len (snd (print_flags len table st)).
Proof.
  unfold Translations.print_flags.
  induction table as [| e table IH]; intros st Hl Hb; [exact Hb |].
  cbn [fold_left]. apply IH; [exact Hl |].
  apply PRINT_FLAG_fits; assumption.
Qed.

(** A flag that is not set is not printed; a flag that was handled is
    not set afterwards; and handling one flag does not set another. *)
Lemma PRINT_FLAG_absent len f name st :
  Z.land (fst st) f = 0 -> PRINT_FLAG len f name st = st.
Proof.
  intros H. unfold Translations.PRINT_FLAG. destruct st as [flags buf].
  cbn [fst] in H. rewrite H. reflexivity.
Qed.

Lemma PRINT_FLAG_clears len f name st :
  Z.land (fst (PRINT_FLAG len f name st)) f = 0.
Proof.
  unfold Translations.PRINT_FLAG. destruct st as [flags buf].
  destruct (Z.eqb_spec (Z.land flags f) 0) as [E | E]; cbn [negb fst].
  - exact E.
  - rewrite <- Z.land_assoc, (Z.land_comm (Z.lnot f)), Z.land_lnot_diag.
    apply Z.land_0_r.
Qed.

Lemma PRINT_FLAG_keeps len f name st g :
  Z.land (fst st) g = 0 -> Z.land (fst (PRINT_FLAG len f name st)) g = 0.
Proof.
  intros H. unfold Translations.PRINT_FLAG. destruct st as [flags buf].
  cbn [fst] in H.
  destruct (negb (Z.land flags f =? 0)); cbn [fst]; [| exact H].
  rewrite <- Z.land_assoc, (Z.land_comm (Z.lnot f)), Z.land_assoc, H.
  apply Z.land_0_l.
Qed.

(** X26: [nl_nlmsg_flags2str] on a buffer of at least one octet returns
    a text that fits the buffer with its terminator, whatever the flags,
    so it never writes behind the buffer; for no flags the text is
    empty. The entries REPLACE, EXCL and CREATE of its table are never
    printed: they share their bits with ROOT, MATCH and ATOMIC, which
    come first and clear them, so the text is the one the table without
    the three entries gives. With a buffer of no octets and any flag set
    the first write is behind the buffer. *)
Theorem nl_nlmsg_flags2str_fits :
  forall flags old len,
    is_size dm len ->
    (1 <= len ->
     exists text,
       nl_nlmsg_flags2str flags old len = Ret text
       /\ strlen text <= len - 1
       /\ (flags = 0 -> text = []))
    /\ nl_nlmsg_flags2str flags old len
       = flags2str_with
           [(NLM_F_REQUEST, "REQUEST"); (NLM_F_MULTI, "MULTI");
            (NLM_F_ACK, "ACK"); (NLM_F_ECHO, "ECHO"); (NLM_F_ROOT, "ROOT");
            (NLM_F_MATCH, "MATCH"); (NLM_F_ATOMIC, "ATOMIC");
            (NLM_F_APPEND, "APPEND")]%string flags old len
    /\ (len = 0 -> flags <> 0 ->
        nl_nlmsg_flags2str flags old len = NoReturn).
Proof.
  intros flags old len Hl. repeat apply conj.
  - intros Hlen.
    unfold Translations.nl_nlmsg_flags2str, Translations.flags2str_with.
    destruct (Z.eqb_spec len 0); [lia |].
    pose proof (print_flags_fits len flag_names (flags, []) Hl) as Hfit.
    cbn [snd] in Hfit. specialize (Hfit ltac:(unfold strlen; cbn; lia)).
    assert (Hzero : flags = 0 ->
                    print_flags len flag_names (flags, []) = (0, [])).
    { intros ->. reflexivity. }
    destruct (Translations.print_flags dm len flag_names (flags, []))
      as [rest buf].
    cbn [snd] in Hfit. eexists. split; [reflexivity |]. split.
    + destruct (negb (rest =? 0)); [| exact Hfit].
      apply strncat_fits; assumption.
    + intros Hf. specialize (Hzero Hf). injection Hzero as -> ->.
      reflexivity.
  - unfold Translations.nl_nlmsg_flags2str, Translations.flags2str_with.
    destruct (len =? 0); [reflexivity |].
    assert (E : forall st,
               print_flags len flag_names st
               = print_flags len
                   [(NLM_F_REQUEST, "REQUEST"); (NLM_F_MULTI, "MULTI");
                    (NLM_F_ACK, "ACK"); (NLM_F_ECHO, "ECHO");
                    (NLM_F_ROOT, "ROOT"); (NLM_F_MATCH, "MATCH");
                    (NLM_F_ATOMIC, "ATOMIC");
                    (NLM_F_APPEND, "APPEND")]%string st).
    { intros st. unfold Translations.print_flags, flag_names.
      cbn [fold_left fst snd].
      set (s4 := PRINT_FLAG len NLM_F_ECHO "ECHO" _).
      set (s5 := PRINT_FLAG len NLM_F_ROOT "ROOT" s4).
      set (s6 := PRINT_FLAG len NLM_F_MATCH "MATCH" s5).
      set (s7 := PRINT_FLAG len NLM_F_ATOMIC "ATOMIC" s6).
      assert (H5 : Z.land (fst s7) NLM_F_REPLACE = 0).
      { subst s7 s6. do 2 apply PRINT_FLAG_keeps.
        apply PRINT_FLAG_clears. }
      assert (H6 : Z.land (fst s7) NLM_F_EXCL = 0).
      { subst s7. apply PRINT_FLAG_keeps. apply PRINT_FLAG_clears. }
      assert (H7 : Z.land (fst s7) NLM_F_CREATE = 0).
      { subst s7. apply PRINT_FLAG_clears. }
      rewrite (PRINT_FLAG_absent len NLM_F_REPLACE _ s7 H5).
      rewrite (PRINT_FLAG_absent len NLM_F_EXCL _ s7 H6).
      rewrite (PRINT_FLAG_absent len NLM_F_CREATE _ s7 H7).
      reflexivity. }
    rewrite E. reflexivity.
  - intros -> Hf. unfold Translations.nl_nlmsg_flags2str,
      Translations.flags2str_with. cbn [Z.eqb].
    destruct (Z.eqb_spec flags 0); [contradiction | reflexivity].
Qed.

End FlagText.

(** ** The command line tools (src/utils.c, src/nl-route-add.c) *)

Section CommandLine.

Import Translations Tools.

Lemma nat_of_ascii_zero c : nat_of_ascii c = 0%nat -> c = Ascii.zero.
Proof.
  intros H. rewrite <- (ascii_nat_embedding c), H. reflexivity.
Qed.

Lemma tolower_not_zero c : c <> Ascii.zero -> tolower c <> Ascii.zero.
Proof.
  intros Hc. unfold tolower.
  destruct ((65 <=? nat_of_ascii c)%nat && (nat_of_ascii c <=? 90)%nat)
    eqn:E; [| exact Hc].
  apply andb_prop in E. destruct E as [E1 E2].
  apply Nat.leb_le in E1, E2. intros H.
  apply (f_equal nat_of_ascii) in H.
  rewrite nat_ascii_embedding in H by lia.
  change (nat_of_ascii Ascii.zero) with 0%nat in H. lia.
Qed.

Lemma nat_of_ascii_pos c : c <> Ascii.zero -> (0 < nat_of_ascii c)%nat.
Proof.
  intros Hc. destruct (nat_of_ascii c) eqn:E; [| lia].
  exfalso. apply Hc, nat_of_ascii_zero, E.
Qed.

(** [strcasecmp] on C strings is 0 exactly when the two agree after
    [tolower]. *)
Lemma strcasecmp_zero a :
  forall b,
    Ascii.zero ∉ a -> Ascii.zero ∉ b ->
    (strcasecmp a b = 0 <-> map tolower a = map tolower b).
Proof.
  induction a as [| c a IH]; intros [| d b] Ha Hb; cbn [strcasecmp map].
  - split; reflexivity.
  - assert (Hd : d <> Ascii.zero).
    { intros ->. apply Hb. left. }
    pose proof (nat_of_ascii_pos _ (tolower_not_zero d Hd)).
    split; [lia | discriminate].
  - assert (Hc : c <> Ascii.zero).
    { intros ->. apply Ha. left. }
    pose proof (nat_of_ascii_pos _ (tolower_not_zero c Hc)).
    split; [lia | discriminate].
  - destruct (Ascii.eqb_spec (tolower c) (tolower d)) as [E | E].
    + rewrite IH.
      * rewrite E. split; [intros ->; reflexivity | intros [= ->]; reflexivity].
      * intros H. apply Ha. right. exact H.
      * intros H. apply Hb. right. exact H.
    + split.
      * intros H. exfalso. apply E.
        rewrite <- (ascii_nat_embedding (tolower c)),
                <- (ascii_nat_embedding (tolower d)).
        f_equal. lia.
      * intros [= H _]. contradiction.
Qed.

Lemma is_word_spec str (word : string) :
  Ascii.zero ∉ str ->
  Ascii.zero ∉ list_ascii_of_string word ->
  map tolower (list_ascii_of_string word) = list_ascii_of_string word ->
  is_word str word
  = bool_decide (map tolower str = list_ascii_of_string word).
Proof.
  intros Hs Hw Hl. unfold is_word.
  pose proof (strcasecmp_zero str (list_ascii_of_string word) Hs Hw) as H.
  rewrite Hl in H.
  destruct (Z.eqb_spec (strcasecmp str (list_ascii_of_string word)) 0)
    as [E | E]; symmetry.
  - apply bool_decide_eq_true. apply H, E.
  - apply bool_decide_eq_false. intros E'. apply E, H, E'.
Qed.

Lemma word_no_zero (word : string) :
  forallb (fun c => negb (Ascii.eqb c Ascii.zero))
          (list_ascii_of_string word) = true ->
  Ascii.zero ∉ list_ascii_of_string word.
Proof.
  intros H Hin. rewrite forallb_forall in H.
  apply list_elem_of_In in Hin. specialize (H _ Hin).
  rewrite Ascii.eqb_refl in H. discriminate.
Qed.

(** X27: [nltool_parse_dumptype] looks at the text only through
    [tolower], so it does not tell upper from lower case. It returns
    BRIEF for brief, FULL for details and for detailed, STATS for stats,
    XML for xml and ENV for env, and for nothing else; every other text
    gives -1, and only then is a line written to [stderr]. *)
Theorem nltool_parse_dumptype_words :
  forall str,
    Ascii.zero ∉ str ->
    let word (w : string) := map tolower str = list_ascii_of_string w in
    let r := nltool_parse_dumptype str in
    (fst r = Some NL_DUMP_BRIEF <-> word "brief"%string)
    /\ (fst r = Some NL_DUMP_FULL
        <-> word "details"%string \/ word "detailed"%string)
    /\ (fst r = Some NL_DUMP_STATS <-> word "stats"%string)
    /\ (fst r = Some NL_DUMP_XML <-> word "xml"%string)
    /\ (fst r = Some NL_DUMP_ENV <-> word "env"%string)
    /\ (snd r = [] <-> fst r <> None).
Proof.
  intros str Hs word r. subst word r. unfold nltool_parse_dumptype.
  rewrite !(is_word_spec str _ Hs)
    by (reflexivity || (apply word_no_zero; reflexivity)).
  repeat case_bool_decide; cbn [orb fst snd];
    repeat apply conj; intros; try congruence; try tauto;
    try discriminate;
    repeat match goal with
           | H : _ \/ _ |- _ => destruct H
           end;
    cbn [list_ascii_of_string] in *; congruence.
Qed.

(** X28: the loop of nl-route-add over the arguments that are not
    options does nothing with an argument once the route has a
    destination: it neither uses it nor moves on, so it never ends. That
    is what happens with the two arguments of the usage line, ADDR
    NEXTHOP, once ADDR has been taken as the destination. With the one
    argument ADDR the loop takes it as the destination and ends. *)
Theorem positional_never_ends :
  forall (route : Type) (rtnl_route_get_dst : route -> bool)
         (parse_dst : route -> cstring -> option route) argv optind r,
    let loop fuel :=
      positional route rtnl_route_get_dst parse_dst fuel argv in
    (rtnl_route_get_dst r = true -> (optind < length argv)%nat ->
     forall fuel, loop fuel optind r = StillLooping)
    /\ (forall r',
          rtnl_route_get_dst r = false ->
          parse_dst r (nth optind argv []) = Some r' ->
          rtnl_route_get_dst r' = true ->
          ((S optind < length argv)%nat ->
           forall fuel, loop fuel optind r = StillLooping)
          /\ (S optind = length argv ->
              forall fuel, loop (S (S fuel)) optind r = Parsed r' (S optind))).
Proof.
  intros route get_dst parse_dst argv optind r loop. subst loop.
  assert (Hstuck : forall fuel i r0,
             get_dst r0 = true -> (i < length argv)%nat ->
             positional route get_dst parse_dst fuel argv i r0
             = StillLooping).
  { induction fuel as [| fuel IH]; intros i r0 Hd Hi; [reflexivity |].
    cbn [positional]. destruct (Nat.ltb_spec i (length argv)); [| lia].
    rewrite Hd. cbn [negb]. apply IH; assumption. }
  split.
  - intros Hd Hi fuel. apply Hstuck; assumption.
  - intros r' Hd Hp Hd'. split.
    + intros Hi [| fuel]; [reflexivity |].
      cbn [positional].
      destruct (Nat.ltb_spec optind (length argv)); [| lia].
      rewrite Hd, Hp. cbn [negb]. apply Hstuck; assumption.
    + intros Hi fuel. cbn [positional].
      destruct (Nat.ltb_spec optind (length argv)); [| lia].
      rewrite Hd, Hp. cbn [negb].
      destruct (Nat.ltb_spec (S optind) (length argv)); [lia | reflexivity].
Qed.

End CommandLine.

(** ** Concrete instances of the further properties *)

Import Cases.

Lemma nlmsg_append_stores_witness :
  exists m',
    nlmsg_append LP64 grant dirty (-5) blank [x01; x02; x03] 3 4 = Ret (m', 0)
    /\ byte_at m' 16 = Some x01
    /\ byte_at m' 19 = Some x00.
Proof.
  destruct (nlmsg_append_stores LP64 grant dirty (-5) blank [x01; x02; x03]
              3 4
              (mk_nl_msg (-1) 0 zero_addr zero_addr zero_ucred
                 (mk_nlmsghdr 20 0 0 0 0) [xff; xff; xff; x00]) 16)
    as (m' & Ha & _ & _ & Hd & Hz & _).
  - unfold is_size; simpl; lia.
  - unfold INT_MAX; lia.
  - simpl; lia.
  - unfold is_u32; simpl; lia.
  - simpl; lia.
  - unfold buffer_len; simpl; lia.
  - vm_compute; reflexivity.
  - exists m'. split; [exact Ha |]. split.
    + apply (Hd 0). lia.
    + apply (Hz 3). split; [lia | reflexivity].
Defined.

Lemma nl_cb_alloc_contents_witness :
  exists c,
    Handlers.nl_cb_alloc unit unit no_fprintf no_header no_dump no_strerror
      errno_table store (Some 2%positive) 1
    = Ret (<[2%positive := c]> store, Some 2%positive)
    /\ cb_refcnt unit unit c = 1
    /\ cb_set unit unit c NL_CB_INVALID
       = Some (nl_invalid_handler_verbose unit unit no_fprintf no_header)
    /\ cb_set unit unit c NL_CB_ACK = None
    /\ store !! 1%positive = Some empty_cb.
Proof.
  destruct (nl_cb_alloc_contents unit unit no_fprintf no_header no_dump
              no_strerror errno_table store (Some 2%positive) 1)
    as (_ & Hcont & Hmade).
  destruct (Hmade 2%positive) as (c & Hrun).
  - unfold NL_CB_KIND_MAX. lia.
  - reflexivity.
  - reflexivity.
  - destruct (Hcont _ _ Hrun)
      as (k & c' & Hk & _ & _ & Hl & Hslots & _ & _ & _ & _ & _ & Hcnt & _).
    rewrite lookup_insert_eq in Hl. injection Hl as <-.
    injection Hk as <-.
    exists c. split; [exact Hrun |]. split; [exact Hcnt |].
    split; [exact (proj1 (Hslots NL_CB_INVALID)) |].
    split; [exact (proj1 (Hslots NL_CB_ACK)) | reflexivity].
Defined.

Lemma preset_handlers_follow_table_witness :
  HandlerDoc.default_return NL_CB_FINISH
  = Some (fst (fst (nl_finish_handler_debug unit unit no_fprintf no_header
                      blank None tt)))
  /\ snd (fst (nl_finish_handler_debug unit unit no_fprintf no_header
                 blank None tt)) = blank.
Proof.
  apply (preset_handlers_follow_table unit unit no_fprintf no_header no_dump
           NL_CB_FINISH NL_CB_DEBUG).
  reflexivity.
Defined.

Lemma nl_cb_clone_copy_witness :
  nl_cb_put unit unit (<[2%positive := empty_cb]> store) (Some 2%positive)
  = Ret store.
Proof.
  destruct (nl_cb_clone_copy unit unit no_fprintf no_header no_dump
              no_strerror errno_table store (Some 2%positive) 1%positive
              empty_cb)
    as [_ Hclone].
  - reflexivity.
  - destruct (Hclone (<[2%positive := empty_cb]> store) 2%positive)
      as (_ & _ & _ & _ & Hput).
    + vm_compute; reflexivity.
    + exact Hput.
Defined.

Lemma nl_cb_get_put_witness :
  exists h1,
    nl_cb_get unit unit store 1%positive = Ret (h1, 1%positive)
    /\ nl_cb_put unit unit h1 (Some 1%positive) = Ret store.
Proof.
  apply (nl_cb_get_put unit unit store 1%positive empty_cb).
  - reflexivity.
  - unfold INT_MAX; simpl; lia.
Defined.

Lemma recvmsgs_keeps_socket_witness :
  s_seq_next
    (r_sk unit
       (with_msg unit
          (with_cursor unit (at_dispatch 36 (error_frame 7 0)) 36 0) None))
  = s_seq_next sock
  /\ s_seq_expect
       (r_sk unit
          (with_msg unit
             (with_cursor unit (at_dispatch 36 (error_frame 7 0)) 36 0) None))
     = 8.
Proof.
  destruct (recvmsgs_keeps_socket unit unit LP64 grant errno_table
              (recv_of 36 (datagram_of [(0, error_frame 7 0)])) 2 empty_cb
              (PARSING (datagram_of [(0, error_frame 7 0)]))
              (at_first_frame 36) 1
              (with_msg unit
                 (with_cursor unit (at_dispatch 36 (error_frame 7 0)) 36 0)
                 None))
    as (_ & _ & _ & _ & Hnext & _).
  - vm_compute; reflexivity.
  - split; [exact Hnext | reflexivity].
Defined.

Lemma recvmsgs_interrupted_sticky_witness :
  -33 = - NLE_DUMP_INTR
  \/ (-33 <= 0
      /\ exists sk u,
           fst (fst (recv_of 16 (datagram_of [(0, data_frame 7 0)]) sk u))
           = -33).
Proof.
  apply (recvmsgs_interrupted_sticky unit unit LP64 grant errno_table
           (recv_of 16 (datagram_of [(0, data_frame 7 0)])) 2 empty_cb
           (PARSING (datagram_of [(0, data_frame 7 0)]))
           (with_interrupted unit (at_first_frame 16) true) (-33)
           (with_msg unit
              (with_cursor unit
                 (with_nrecv unit
                    (with_msg unit
                       (with_interrupted unit (at_first_frame 16) true)
                       (Some (converted (data_frame 7 0)))) 1)
                 16 0)
              None)).
  - reflexivity.
  - vm_compute; reflexivity.
Defined.

Lemma recvmsgs_unbound_defaults_witness :
  recvmsgs_loop unit unit LP64 grant errno_table
    (recv_of 36 (datagram_of [(0, error_frame 7 (-2))])) 1 empty_cb
    (PARSING (datagram_of [(0, error_frame 7 (-2))])) (at_first_frame 36)
  = Returns (-12) (with_msg unit (at_dispatch 36 (error_frame 7 (-2))) None).
Proof.
  destruct (recvmsgs_unbound_defaults unit unit LP64 grant errno_table
              (recv_of 36 (datagram_of [(0, error_frame 7 (-2))])) 0 empty_cb
              (datagram_of [(0, error_frame 7 (-2))]) (at_first_frame 36)
              (at_dispatch 36 (error_frame 7 (-2))))
    as (_ & _ & _ & Hnack).
  - reflexivity.
  - exists (with_nrecv unit
              (with_msg unit (at_first_frame 36)
                 (Some (converted (error_frame 7 (-2))))) 1).
    split; vm_compute; reflexivity.
  - apply Hnack.
    + reflexivity.
    + vm_compute; discriminate.
    + vm_compute; discriminate.
    + reflexivity.
    + vm_compute; discriminate.
Defined.

Lemma recvmsgs_done_ends_batch_witness :
  recvmsgs_loop unit unit LP64 grant errno_table
    (recv_of 16 (datagram_of [(0, done_frame 7 NLM_F_MULTI)])) 2 empty_cb
    (PARSING (datagram_of [(0, done_frame 7 NLM_F_MULTI)])) (at_first_frame 16)
  = Returns 1
      (with_msg unit
         (with_cursor unit (at_dispatch 16 (done_frame 7 NLM_F_MULTI)) 16 0)
         None).
Proof.
  destruct (recvmsgs_done_ends_batch unit unit LP64 grant errno_table
              (recv_of 16 (datagram_of [(0, done_frame 7 NLM_F_MULTI)]))
              0 empty_cb
              (datagram_of [(0, done_frame 7 NLM_F_MULTI)]) (at_first_frame 16)
              (with_multipart unit
                 (at_dispatch 16 (done_frame 7 NLM_F_MULTI)) true))
    as [_ Hlast].
  - reflexivity.
  - exists (with_nrecv unit
              (with_msg unit (at_first_frame 16)
                 (Some (converted (done_frame 7 NLM_F_MULTI)))) 1).
    split; vm_compute; reflexivity.
  - reflexivity.
  - reflexivity.
  - apply Hlast. reflexivity.
Defined.

Lemma recvmsgs_valid_hook_witness :
  recvmsgs_loop unit unit LP64 grant errno_table
    (recv_of 16 (datagram_of [(0, data_frame 7 0)])) 1
    (with_hook empty_cb NL_CB_VALID NL_STOP)
    (PARSING (datagram_of [(0, data_frame 7 0)])) (at_first_frame 16)
  = Returns 1
      (with_world unit
         (with_nrecv unit (with_msg unit (at_first_frame 16) None) 1)
         (mk_world unit tt [EvHook NL_CB_VALID (converted (data_frame 7 0))])).
Proof.
  destruct (recvmsgs_valid_hook unit unit LP64 grant errno_table
              (recv_of 16 (datagram_of [(0, data_frame 7 0)])) 0
              (with_hook empty_cb NL_CB_VALID NL_STOP)
              (datagram_of [(0, data_frame 7 0)]) (at_first_frame 16)
              (with_nrecv unit
                 (with_msg unit (at_first_frame 16)
                    (Some (converted (data_frame 7 0)))) 1))
    as [_ Hhook].
  - reflexivity.
  - exists (with_nrecv unit
              (with_msg unit (at_first_frame 16)
                 (Some (converted (data_frame 7 0)))) 1).
    split; vm_compute; reflexivity.
  - vm_compute; discriminate.
  - vm_compute; discriminate.
  - vm_compute; discriminate.
  - vm_compute; discriminate.
  - destruct (Hhook (hook NL_STOP) (converted (data_frame 7 0)) NL_STOP
                (converted (data_frame 7 0)) tt)
      as (_ & Hstop & _).
    + reflexivity.
    + reflexivity.
    + reflexivity.
    + apply Hstop. reflexivity.
Defined.

Lemma nl_connect_outcome_witness :
  fst (fst (connect bind_ok)) = 0
  /\ s_fd (snd (fst (connect bind_ok))) = 3
  /\ Connection.h_trace (snd (connect bind_ok))
     = [Connection.SysSocket 0; Connection.SysSetsockopt 3 7 32768;
        Connection.SysSetsockopt 3 8 32768;
        Connection.SysBind 3 (mk_sockaddr_nl 16 0 0 0);
        Connection.SysGetsockname 3]
  /\ fst (fst (connect bind_in_use)) < 0
  /\ s_fd (snd (fst (connect bind_in_use))) = -1
  /\ last (Connection.h_trace (snd (connect bind_in_use)))
     = Some (Connection.SysClose 3).
Proof.
  assert (Hpos : forall e, 0 < errno_table e <= INT_MAX).
  { intros e. unfold errno_table, INT_MAX. destruct (Z.abs e =? 2); lia. }
  destruct (nl_connect_outcome unit errno_table socket_3 bind_ok
              getsockname_1234 close_ok set_buffer_size_ok unconnected 0
              (Connection.mk_host unit tt []) Hpos) as (_ & Hok & _).
  destruct (nl_connect_outcome unit errno_table socket_3 bind_in_use
              getsockname_1234 close_ok set_buffer_size_ok unconnected 0
              (Connection.mk_host unit tt []) Hpos) as (_ & _ & Hko & _).
  destruct Hok as (H1 & H2 & _ & _ & H3);
    [reflexivity | vm_compute; reflexivity |].
  destruct Hko as (H4 & H5 & _ & H6);
    [reflexivity | vm_compute; reflexivity |].
  split; [exact H1 |]. split; [exact H2 |]. split; [exact H3 |].
  split; [exact H4 |]. split; [exact H5 |]. apply H6. discriminate.
Defined.

Lemma nl_recv_result_witness :
  exists call reply,
    last [(Reader.mk_recv_call 3 0 4096 0 12,
           fst (recvmsg_16 (Reader.mk_recv_call 3 0 4096 0 12) tt))]
    = Some (call, reply)
    /\ Reader.rc_fd call = s_fd sock.
Proof.
  destruct (nl_recv_result unit LP64 errno_table 4096 32 recvmsg_16 1 sock
              true tt 16
              (Some (mk_datagram zero_addr (frame_at [(0, data_frame 7 0)])
                       None))
              tt
              [(Reader.mk_recv_call 3 0 4096 0 12,
                fst (recvmsg_16 (Reader.mk_recv_call 3 0 4096 0 12) tt))])
    as (call & reply & Hlast & Hfd & _).
  - vm_compute; reflexivity.
  - exists call, reply. split; [exact Hlast | exact Hfd].
Defined.

Lemma nl_wait_for_ack_restores_witness :
  exists v h' sk' w',
    Requests.nl_wait_for_ack unit unit LP64 grant no_fprintf no_header no_dump
      no_strerror errno_table
      (recv_of 36 (datagram_of [(0, error_frame 7 0)])) 8 store
      (Some 2%positive) sock w0
    = Requests.Waited v h' sk' w'
    /\ h' = store /\ v <= 0
    /\ w_log unit w' = [EvHook NL_CB_ACK (converted (error_frame 7 0))].
Proof.
  destruct (nl_wait_for_ack_restores unit unit LP64 grant no_fprintf no_header
              no_dump no_strerror errno_table
              (recv_of 36 (datagram_of [(0, error_frame 7 0)])) 8 store
              (Some 2%positive) sock w0 empty_cb)
    as (_ & Hval & Hres & _).
  - reflexivity.
  - assert (Hrun : Requests.nl_wait_for_ack unit unit LP64 grant no_fprintf
                     no_header no_dump no_strerror errno_table
                     (recv_of 36 (datagram_of [(0, error_frame 7 0)])) 8
                     store (Some 2%positive) sock w0
                   = Requests.Waited 0 store (set_seq_expect sock 8)
                       (mk_world unit tt
                          [EvHook NL_CB_ACK (converted (error_frame 7 0))])).
    { vm_compute; reflexivity. }
    destruct (Hres _ _ _ _ eq_refl Hrun) as (Hstore & _).
    pose proof (Hval _ _ _ _ Hrun) as Hv.
    exists 0, store, (set_seq_expect sock 8),
      (mk_world unit tt [EvHook NL_CB_ACK (converted (error_frame 7 0))]).
    split; [exact Hrun |]. split; [exact Hstore |].
    split; [exact Hv | reflexivity].
Defined.

Lemma recvmsgs_ack_wait_witness :
  recvmsgs_loop unit unit LP64 grant errno_table
    (recv_of 52 (datagram_of [(0, error_frame 7 0); (36, data_frame 8 0)])) 1
    (set_slot unit unit (set_refcnt unit unit empty_cb 1) NL_CB_ACK
       (Some (Requests.ack_wait_handler unit unit)) None)
    (PARSING (datagram_of [(0, error_frame 7 0); (36, data_frame 8 0)]))
    (at_first_frame 52)
  = Returns 1
      (with_msg unit
         (with_world unit (at_dispatch 52 (error_frame 7 0))
            (mk_world unit tt
               [EvHook NL_CB_ACK (converted (error_frame 7 0))]))
         None).
Proof.
  destruct (recvmsgs_ack_wait unit unit LP64 grant errno_table
              (recv_of 52
                 (datagram_of [(0, error_frame 7 0); (36, data_frame 8 0)]))
              0 empty_cb
              (datagram_of [(0, error_frame 7 0); (36, data_frame 8 0)])
              (at_first_frame 52) (at_dispatch 52 (error_frame 7 0))
              (converted (error_frame 7 0)))
    as [Hstop _].
  - reflexivity.
  - exists (with_nrecv unit
              (with_msg unit (at_first_frame 52)
                 (Some (converted (error_frame 7 0)))) 1).
    split; vm_compute; reflexivity.
  - reflexivity.
  - vm_compute; discriminate.
  - reflexivity.
  - reflexivity.
  - exact Hstop.
Defined.

Lemma nl_send_simple_wire_witness :
  exists d,
    Requests.nl_send_simple unit unit LP64 grant dirty (-5) errno_table
      sendmsg_16 store sock 16 0 (Some [x01; x02; x03]) 3 w0
    = Ret (16, set_seq_next sock 8,
           mk_world unit tt
             [EvSendmsg 3 (mk_msghdr zero_addr [mk_iovec msg_block 20] None)
                (mk_nl_msg 0 0 (s_local sock) zero_addr zero_ucred
                   (mk_nlmsghdr 20 16 5 7 1234) d)])
    /\ d !! 0%nat = Some x01
    /\ d !! 3%nat = Some x00.
Proof.
  destruct (nl_send_simple_wire unit unit LP64 grant dirty (-5) errno_table
              sendmsg_16 store sock 16 0 (Some [x01; x02; x03]) 3 w0 empty_cb)
    as (_ & _ & _ & Hsend).
  - reflexivity.
  - reflexivity.
  - reflexivity.
  - destruct (Hsend [x01; x02; x03]) as (d & Hs & _ & Hd & Hz).
    + reflexivity.
    + reflexivity.
    + lia.
    + simpl; lia.
    + simpl; lia.
    + reflexivity.
    + exists d. split; [exact Hs |]. split.
      * apply (Hd 0). lia.
      * apply (Hz 3). split; [lia | reflexivity].
Defined.

Lemma nlmsg_put_header_witness :
  (exists d,
     nlmsg_put LP64 grant dirty blank 1234 7 16 5 5
     = Ret (set_nlh blank (mk_nlmsghdr 24 16 5 7 1234) d, true))
  /\ nlmsg_put LP64 (fun _ => false) dirty blank 1234 7 16 5 5
     = Ret (set_nlh blank (mk_nlmsghdr 16 16 5 7 1234) [], false)
  /\ nlmsg_put LP64 grant dirty blank 1234 7 16 0 5
     = Ret (set_nlh blank (mk_nlmsghdr 16 16 5 7 1234) [], true).
Proof.
  destruct (nlmsg_put_header LP64 grant dirty blank 1234 7 16 5 5)
    as (_ & _ & _ & _ & Hgranted).
  destruct (nlmsg_put_header LP64 (fun _ => false) dirty blank 1234 7 16 5 5)
    as (_ & _ & _ & Hrefused & _).
  destruct (nlmsg_put_header LP64 grant dirty blank 1234 7 16 0 5)
    as (_ & _ & Hnone & _).
  split; [| split].
  - apply Hgranted.
    + simpl. lia.
    + unfold INT_MAX. lia.
    + reflexivity.
    + vm_compute. discriminate.
  - apply Hrefused; [simpl; lia | lia | reflexivity].
  - apply Hnone; [simpl; lia | lia].
Defined.

Lemma nlmsg_convert_copies_witness :
  byte_at (mk_nl_msg (-1) 0 zero_addr zero_addr zero_ucred
             (rf_hdr short_frame) [x01; x02; x03; x00]) 18 = Some x03
  /\ byte_at (mk_nl_msg (-1) 0 zero_addr zero_addr zero_ucred
                (rf_hdr short_frame) [x01; x02; x03; x00]) 19 = Some x00.
Proof.
  destruct (nlmsg_convert_copies LP64 grant short_frame) as [_ Hcopy].
  - simpl; lia.
  - destruct (Hcopy (mk_nl_msg (-1) 0 zero_addr zero_addr zero_ucred
                       (rf_hdr short_frame) [x01; x02; x03; x00]))
      as (_ & _ & _ & Hd & Hz).
    + vm_compute; reflexivity.
    + split.
      * apply (Hd 18). simpl; lia.
      * apply (Hz 19). split; [simpl; lia | reflexivity].
Defined.

Lemma nlmsg_parse_attributes_witness :
  Payload.nlmsg_parse (fun _ _ len => len) (-22) (mk_nlmsghdr 17 16 0 7 0) 1 0
  = -3.
Proof.
  destruct (nlmsg_parse_attributes (fun _ _ len => len) (fun _ len _ => len)
              (-22) (mk_nlmsghdr 17 16 0 7 0) 1 0)
    as [_ Hparse].
  - unfold is_u32; simpl; lia.
  - unfold INT_MAX; simpl; lia.
  - unfold INT_MAX; lia.
  - destruct Hparse as (Hp & _).
    + simpl; lia.
    + exact Hp.
Defined.

Lemma nl_send_addressing_witness :
  nl_send unit unit LP64 errno_table sendmsg_16 store sock
    (nlmsg_set_creds (nlmsg_set_dst blank (mk_sockaddr_nl 16 0 99 0))
       (mk_ucred 1 2 3)) w0
  = Ret (16,
         nlmsg_set_src
           (nlmsg_set_creds (nlmsg_set_dst blank (mk_sockaddr_nl 16 0 99 0))
              (mk_ucred 1 2 3)) (s_local sock),
         mk_world unit tt
           [EvSendmsg 3
              (mk_msghdr (mk_sockaddr_nl 16 0 99 0) [mk_iovec msg_block 16]
                 (Some (mk_ucred 1 2 3)))
              (nlmsg_set_src
                 (nlmsg_set_creds
                    (nlmsg_set_dst blank (mk_sockaddr_nl 16 0 99 0))
                    (mk_ucred 1 2 3)) (s_local sock))]).
Proof.
  destruct (nl_send_addressing unit unit LP64 errno_table sendmsg_16 store
              sock blank w0 empty_cb)
    as [Hdst _].
  - reflexivity.
  - reflexivity.
  - unfold is_u32; simpl; lia.
  - exact (Hdst (mk_sockaddr_nl 16 0 99 0) (mk_ucred 1 2 3) eq_refl).
Defined.

Lemma nl_nlmsg_flags2str_fits_witness :
  exists text,
    Translations.nl_nlmsg_flags2str LP64 5 [] 32 = Ret text
    /\ Translations.strlen text <= 31.
Proof.
  destruct (nl_nlmsg_flags2str_fits LP64 5 [] 32) as [Hfit _].
  - unfold is_size; simpl; lia.
  - destruct Hfit as (text & Htext & Hlen & _).
    + lia.
    + exists text. split; [exact Htext | exact Hlen].
Defined.

Lemma nltool_parse_dumptype_words_witness :
  fst (Tools.nltool_parse_dumptype (list_ascii_of_string "DeTails"))
  = Some Tools.NL_DUMP_FULL.
Proof.
  destruct (nltool_parse_dumptype_words (list_ascii_of_string "DeTails"))
    as (_ & Hfull & _).
  - apply word_no_zero. reflexivity.
  - apply Hfull. left. reflexivity.
Defined.
